(** * split-pdf: a shallow embedding of [pdf_splitter.py]

    The development follows the source file top to bottom:

    - [PyStr]   : the Python string primitives the script relies on
                  ([str.strip], [str.split], [str.lower], [in], [int], [str]);
    - [Re]      : the fragment of Python's [re] the three patterns of the
                  script live in (anchors and repeated character classes,
                  greedy or lazy, with capture groups), with backtracking;
    - [Splitter]: the functions of the script, in source order, and the
                  top-level driver.

    Strings are Rocq strings: a character is one code point below 256, and
    the character classes are Python's ([Py_UNICODE_ISSPACE], [str.isalnum],
    ...) restricted to that range.  [print] is modelled by the list of lines
    written, in order.  Dictionaries are association lists in insertion
    order, which is the order Python iterates them in.  Font sizes are
    binary64 floats, with the Standard Library's [SpecFloat] for their
    arithmetic.  Whether a chapter file can be written is a parameter of
    the splitter and of the script. *)

From Stdlib Require Import String Ascii List ZArith QArith Qround Lia Bool Arith.
From Stdlib Require Import DecimalString Sorting.Sorted Sorting.Permutation.
From Stdlib Require Import Floats.SpecFloat.
Import ListNotations.

Close Scope Q_scope.
Open Scope string_scope.
Open Scope list_scope.

(* ===================================================================== *)
(** * Python string primitives *)
(* ===================================================================== *)

Module PyStr.

Definition code (c : ascii) : N := N_of_ascii c.

Definition in_range (lo hi : N) (c : ascii) : bool :=
  (N.leb lo (code c) && N.leb (code c) hi)%bool.

(** [Py_UNICODE_ISSPACE] below 256: what [str.strip], [str.split] and the
    regular expression class [\s] call whitespace. *)
Definition isspace (c : ascii) : bool :=
  (in_range 9 13 c || in_range 28 32 c
   || N.eqb (code c) 133 || N.eqb (code c) 160)%bool.

(** [\d] on a [str] pattern: the decimal digits. *)
Definition isdecimal (c : ascii) : bool := in_range 48 57 c.

Definition isupper_ascii (c : ascii) : bool := in_range 65 90 c.
Definition islower_ascii (c : ascii) : bool := in_range 97 122 c.

(** Letters of the Latin-1 supplement: feminine and masculine ordinals, the
    micro sign, and the accented letters (all but the two operators). *)
Definition isalpha_latin1 (c : ascii) : bool :=
  (N.eqb (code c) 170 || N.eqb (code c) 181 || N.eqb (code c) 186
   || in_range 192 214 c || in_range 216 246 c || in_range 248 255 c)%bool.

(** Superscript digits and vulgar fractions: numeric without being decimal. *)
Definition isnumeric_latin1 (c : ascii) : bool :=
  (N.eqb (code c) 178 || N.eqb (code c) 179 || N.eqb (code c) 185
   || in_range 188 190 c)%bool.

(** [str.isalnum] on one character. *)
Definition isalnum (c : ascii) : bool :=
  (isdecimal c || isupper_ascii c || islower_ascii c
   || isalpha_latin1 c || isnumeric_latin1 c)%bool.

(** [\w] on a [str] pattern: alphanumeric or underscore. *)
Definition isword (c : ascii) : bool :=
  (isalnum c || Ascii.eqb c "_")%bool.

Definition newline : ascii := ascii_of_N 10.

(** [str.lower] on one character: the ASCII capitals and the capitals of
    the Latin-1 supplement move 32 places up. *)
Definition lower_char (c : ascii) : ascii :=
  if (isupper_ascii c || in_range 192 214 c || in_range 216 222 c)%bool
  then ascii_of_N (code c + 32) else c.

Fixpoint map_str (f : ascii -> ascii) (s : string) : string :=
  match s with
  | EmptyString => EmptyString
  | String c r => String (f c) (map_str f r)
  end.

Fixpoint filter_str (p : ascii -> bool) (s : string) : string :=
  match s with
  | EmptyString => EmptyString
  | String c r => if p c then String c (filter_str p r) else filter_str p r
  end.

Fixpoint all_str (p : ascii -> bool) (s : string) : bool :=
  match s with
  | EmptyString => true
  | String c r => (p c && all_str p r)%bool
  end.

Definition lower (s : string) : string := map_str lower_char s.

Definition is_empty (s : string) : bool :=
  match s with EmptyString => true | _ => false end.

Fixpoint lstrip (s : string) : string :=
  match s with
  | EmptyString => EmptyString
  | String c r => if isspace c then lstrip r else s
  end.

Fixpoint rstrip (s : string) : string :=
  match s with
  | EmptyString => EmptyString
  | String c r =>
      let r' := rstrip r in
      if (isspace c && is_empty r')%bool then EmptyString else String c r'
  end.

Definition strip (s : string) : string := rstrip (lstrip s).

(** [s.split()]: the maximal runs of non-whitespace characters. *)
Fixpoint split_from (cur : string) (s : string) : list string :=
  match s with
  | EmptyString => if is_empty cur then [] else [cur]
  | String c r =>
      if isspace c
      then (if is_empty cur then split_from EmptyString r
            else cur :: split_from EmptyString r)
      else split_from (cur ++ String c EmptyString) r
  end.

Definition split (s : string) : list string := split_from EmptyString s.

(** [sep.join(parts)] *)
Fixpoint join (sep : string) (parts : list string) : string :=
  match parts with
  | [] => EmptyString
  | [p] => p
  | p :: ps => p ++ sep ++ join sep ps
  end.

(** [needle in hay] *)
Fixpoint contains (needle hay : string) : bool :=
  match hay with
  | EmptyString => is_empty needle
  | String _ r => (prefix needle hay || contains needle r)%bool
  end.

(** [str(n)] for an integer. *)
Definition str_of_Z (n : Z) : string := NilZero.string_of_int (Z.to_int n).

Definition digit_val (c : ascii) : Z := Z.of_N (code c) - 48.

(** The digit part of an integer literal given to [int]: decimal digits,
    where single underscores may separate two digits. [prev_digit] says
    whether the character before was a digit; [acc] is the value so far. *)
Fixpoint int_digits (prev_digit : bool) (acc : Z) (s : string) : option Z :=
  match s with
  | EmptyString => if prev_digit then Some acc else None
  | String c r =>
      if isdecimal c then int_digits true (10 * acc + digit_val c) r
      else if (Ascii.eqb c "_" && prev_digit)%bool then
        match r with
        | String d _ => if isdecimal d then int_digits false acc r else None
        | EmptyString => None
        end
      else None
  end.

(** [int(s)]: [None] stands for [ValueError]. *)
Definition int_of_str (s : string) : option Z :=
  match strip s with
  | String "+" r => int_digits false 0 r
  | String "-" r => option_map Z.opp (int_digits false 0 r)
  | t => int_digits false 0 t
  end.

End PyStr.

(* ===================================================================== *)
(** * The fragment of [re] used by the script *)
(* ===================================================================== *)

Module Re.

(** The three patterns of the script are sequences of anchors and of
    repeated character classes; every capture group encloses exactly one
    repetition.  [Rep cap cls lo hi greedy] is the class [cls] repeated at
    least [lo] and at most [hi] times, captured when [cap] holds. *)
Inductive atom : Type :=
| Bol
| Eol
| Rep (cap : bool) (cls : ascii -> bool) (lo : nat) (hi : option nat)
      (greedy : bool).

Definition pattern := list atom.

(** [^]: at the start; with [re.MULTILINE] also after every newline. *)
Definition at_bol (multiline : bool) (prev : option ascii) : bool :=
  match prev with
  | None => true
  | Some c => (multiline && Ascii.eqb c PyStr.newline)%bool
  end.

(** [$]: at the end, or before the newline that ends the string; with
    [re.MULTILINE] before every newline. *)
Definition at_eol (multiline : bool) (rest : string) : bool :=
  match rest with
  | EmptyString => true
  | String c r =>
      (Ascii.eqb c PyStr.newline && (multiline || PyStr.is_empty r))%bool
  end.

Definition below (hi : option nat) (n : nat) : bool :=
  match hi with
  | None => true
  | Some h => Nat.ltb n h
  end.

Definition or_else {A} (x y : option A) : option A :=
  match x with Some _ => x | None => y end.

(** One repetition, with backtracking into the continuation [k]: a greedy
    repetition tries the longer run first, a lazy one the shorter. [n]
    characters, [taken], are consumed so far. *)
Fixpoint rep_loop {A} (cls : ascii -> bool) (lo : nat) (hi : option nat)
    (greedy : bool) (k : string -> option ascii -> string -> option A)
    (n : nat) (taken : string) (prev : option ascii) (rest : string)
    : option A :=
  let stop := if Nat.leb lo n then k taken prev rest else None in
  let more :=
    match rest with
    | String c r =>
        if (cls c && below hi n)%bool
        then rep_loop cls lo hi greedy k (S n)
                      (taken ++ String c EmptyString) (Some c) r
        else None
    | EmptyString => None
    end in
  if greedy then or_else more stop else or_else stop more.

(** Match a pattern here: the captured groups, in order, and the input that
    follows the match. [prev] is the character before the current position. *)
Fixpoint match_here (multiline : bool) (p : pattern)
    : option ascii -> string -> option (list string * string) :=
  match p with
  | [] => fun _ rest => Some ([], rest)
  | Bol :: p' => fun prev rest =>
      if at_bol multiline prev then match_here multiline p' prev rest
      else None
  | Eol :: p' => fun prev rest =>
      if at_eol multiline rest then match_here multiline p' prev rest
      else None
  | Rep cap cls lo hi greedy :: p' => fun prev rest =>
      rep_loop cls lo hi greedy
        (fun taken prev' rest' =>
           match match_here multiline p' prev' rest' with
           | Some (caps, after) =>
               Some (if cap then taken :: caps else caps, after)
           | None => None
           end)
        0 EmptyString prev rest
  end.

(** [re.search(p, s)]: the groups of the first match, tried at every
    position from the left. *)
Fixpoint search_from (multiline : bool) (p : pattern) (prev : option ascii)
    (s : string) : option (list string) :=
  match match_here multiline p prev s with
  | Some (caps, _) => Some caps
  | None =>
      match s with
      | String c r => search_from multiline p (Some c) r
      | EmptyString => None
      end
  end.

Definition re_search (multiline : bool) (p : pattern) (s : string)
    : option (list string) :=
  search_from multiline p None s.

(** [re.match(p, s)]: the groups of a match at the start of [s]. *)
Definition re_match (multiline : bool) (p : pattern) (s : string)
    : option (list string) :=
  option_map fst (match_here multiline p None s).

(** [p.finditer(s)]: the groups of the successive matches, from the left,
    without overlap. [skip] counts the characters of the previous match
    still to step over. The search resumes where a match ends, which is
    what [re] does for a pattern that matches no empty string; the one
    pattern given to [finditer] matches three characters at least. *)
Fixpoint finditer_from (multiline : bool) (p : pattern) (skip : nat)
    (prev : option ascii) (s : string) {struct s} : list (list string) :=
  match skip with
  | S k =>
      match s with
      | String c r => finditer_from multiline p k (Some c) r
      | EmptyString => []
      end
  | O =>
      match match_here multiline p prev s with
      | Some (caps, after) =>
          caps ::
          match s with
          | String c r =>
              finditer_from multiline p
                (Nat.pred (String.length s - String.length after)) (Some c) r
          | EmptyString => []
          end
      | None =>
          match s with
          | String c r => finditer_from multiline p 0 (Some c) r
          | EmptyString => []
          end
      end
  end.

Definition finditer (multiline : bool) (p : pattern) (s : string)
    : list (list string) :=
  finditer_from multiline p 0 None s.

(** Character classes of the patterns. *)
Definition dot (c : ascii) : bool := negb (Ascii.eqb c PyStr.newline).
Definition digit_or_dot (c : ascii) : bool :=
  (PyStr.isdecimal c || Ascii.eqb c ".")%bool.
Definition space_or_dot (c : ascii) : bool :=
  (PyStr.isspace c || Ascii.eqb c ".")%bool.
Definition is_dot (c : ascii) : bool := Ascii.eqb c ".".

(** The pattern of the title clean-up:
    [^ \d+ \.? \d* \s* ( .* ) $] *)
Definition title_pattern : pattern :=
  [ Bol;
    Rep false PyStr.isdecimal 1 None true;
    Rep false is_dot 0 (Some 1) true;
    Rep false PyStr.isdecimal 0 None true;
    Rep false PyStr.isspace 0 None true;
    Rep true dot 0 None true;
    Eol ].

(** The pattern of a table-of-contents line, compiled with [re.MULTILINE]:
    [^ ( [\d\.]+ ) \s* ( .+? ) [\s\.]+ ( \d+ ) $] *)
Definition toc_pattern_numbered : pattern :=
  [ Bol;
    Rep true digit_or_dot 1 None true;
    Rep false PyStr.isspace 0 None true;
    Rep true dot 1 None false;
    Rep false space_or_dot 1 None true;
    Rep true PyStr.isdecimal 1 None true;
    Eol ].

(** The pattern that splits a label into numeral prefix and title:
    [^ ( [\d\.]+ ) \s* ( .* ) $] *)
Definition filename_pattern : pattern :=
  [ Bol;
    Rep true digit_or_dot 1 None true;
    Rep false PyStr.isspace 0 None true;
    Rep true dot 0 None true;
    Eol ].

(** [re.sub] of every character that is neither [\w] nor [\s] by the
    empty string. *)
Definition strip_punctuation (s : string) : string :=
  PyStr.filter_str (fun c => (PyStr.isword c || PyStr.isspace c)%bool) s.

End Re.

(* ===================================================================== *)
(** * The script *)
(* ===================================================================== *)

Module Splitter.

Import PyStr Re.

(** ** Font sizes

    pdfplumber reports the size of a word as a Python number. The scanner
    uses four operations on it: [round(x, 1)], the product with [1.5], the
    comparison [>=], and the equality under which [Counter] merges keys.
    They are the fields of [SizeNum], so that the control flow of the
    scanner is proved once; [PyFloat], further down, gives them the
    meaning they have in the script, where the sizes are binary64
    floats. *)
Class SizeNum : Type := {
  num : Type;
  round1 : num -> num;
  times_1_5 : num -> num;
  num_geb : num -> num -> bool;
  num_eqb : num -> num -> bool
}.

(** ** What the PDF libraries hand over *)

(** A word of [page.extract_words]: a dict with the key ['text'] and,
    when the font is known, the key ['size']. *)
Record word `{SizeNum} : Type := mk_word {
  w_text : string;
  w_size : option num
}.
Arguments mk_word {_} w_text w_size.

(** A page as pdfplumber shows it: [extract_words()] and [extract_text()],
    the latter a string, empty for a page without text. *)
Record page `{SizeNum} : Type := mk_page {
  page_words : list word;
  page_text : string
}.
Arguments mk_page {_} page_words page_text.

(** The outcome of [pdfplumber.open(path)]: the pages, [FileNotFoundError],
    or any other exception with its message. *)
Inductive opened `{SizeNum} : Type :=
| Opened (pages : list page)
| NotFound
| Failed (e : string).

(** The outcome of pypdf's [PdfReader(path)]; of the pages only their number
    matters to the script. *)
Inductive reader : Type :=
| Reader (n_pages : nat)
| ReaderNotFound
| ReaderFailed (e : string).

(** ** Standard output

    One constructor per message of the modelled functions (and of
    [sys.exit]), carrying the values the message interpolates; prints that
    always come together, such as the instructions of the manual fallback,
    make one message. *)
Inductive line : Type :=
(* find_offset_by_title_scan *)
| ScanNeedsPlumber
| ScanStarting
| ScanEmptyTitle
| ScanSearching (search_key page_number_key : string) (first_file_page : Z)
| ScanStartsAt (file_page : Z)
| ScanSuccess (search_key page_number_key : string) (file_page : Z)
| ScanTitleOnly (search_key : string) (file_page : Z)
          (page_number_key : string)
| ScanFailed
| ScanNotFound
| ScanError (e : string)
(* extract_chapters_from_toc *)
| TocAttempting (pages_to_scan : Z)
| TocSuccess (n : nat)
| TocFailed
| TocNotFound
| TocError (e : string)
(* split_pdf_by_chapters *)
| SplitInputMissing
| SplitStarting
| SplitTotalPages (total_pages : nat)
| SplitWarningSkipping (title_with_num : string) (file_start file_end : Z)
| SplitWarningTotal (total_pages : nat)
| SplitCreated (output_path : string) (file_start file_end : Z)
          (printed : option (Z * Z))
| SplitComplete
| SplitError (e : string)
| SplitErrorHint
(* top level *)
| ExitTocFailed
| MainScanFailed
| MainFatalNotFound
| MainFatalSetup (e : string)
| MainManualRequired (anchor_chapter : option string)
          (anchor_printed_page : Z)
| MainUsingProvided (first_chapter_title : string)
| MainInvalidInput (user_input : string)
| MainManualOffset (page_offset : Z)
| MainFatalUnreadable
| MainMethodManual
| MainChapterList (ranges : list (string * (Z * Z)))
| MainFinalOffset (page_offset : Z).

(** ** Dictionaries: association lists in insertion order *)
Section Dict.
Context {V : Type}.

Definition dict := list (string * V).

Fixpoint dict_get (k : string) (d : dict) : option V :=
  match d with
  | [] => None
  | (k', v) :: r => if String.eqb k' k then Some v else dict_get k r
  end.

(** [k in d] *)
Definition dict_mem (k : string) (d : dict) : bool :=
  match dict_get k d with Some _ => true | None => false end.

(** [d[k] = v]: an existing key keeps its place, a new one goes last. *)
Fixpoint dict_set (k : string) (v : V) (d : dict) : dict :=
  match d with
  | [] => [(k, v)]
  | (k', v') :: r =>
      if String.eqb k' k then (k', v) :: r else (k', v') :: dict_set k v r
  end.
End Dict.
Arguments dict : clear implicits.

(** [sorted(items, key=...)] on integer keys: a stable sort, here by
  insertion from the right. *)
Section Sorted.
Context {A : Type} (key : A -> Z).

Fixpoint insert_sorted (x : A) (l : list A) : list A :=
  match l with
  | [] => [x]
  | y :: r =>
      if Z.leb (key x) (key y) then x :: l else y :: insert_sorted x r
  end.

Fixpoint sorted (l : list A) : list A :=
  match l with
  | [] => []
  | x :: r => insert_sorted x (sorted r)
  end.
End Sorted.

(** Exceptions of a loop body: [Raise e] is an exception with message [e]
    that travels up to the enclosing [except Exception]. *)
Inductive res (A : Type) : Type :=
| Ok (a : A)
| Raise (e : string).
Arguments Ok {A} a.
Arguments Raise {A} e.

Definition bind {A B} (x : res A) (f : A -> res B) : res B :=
  match x with
  | Ok a => f a
  | Raise e => Raise e
  end.

Notation "x <- c1 ;; c2" := (bind c1 (fun x => c2))
  (at level 61, c1 at next level, right associativity).

Definition is_nil {A} (l : list A) : bool :=
  match l with [] => true | _ => false end.

Definition index_error : string := "list index out of range".
Definition value_error : string := "invalid literal for int() with base 10".

(* --------------------------------------------------------------------- *)
(** ** [find_offset_by_title_scan] *)
(* --------------------------------------------------------------------- *)

Section Scanner.
Context `{SizeNum}.

(** [[word for word in words if 'size' in word]]: the text and the size of
    the words that carry one. *)
Definition sized_words (words : list word) : list (string * num) :=
  flat_map (fun w => match w_size w with
                     | Some s => [(w_text w, s)]
                     | None => []
                     end) words.

(** [Counter(xs)]: the keys in the order they first occur, with the number
    of their occurrences. *)
Fixpoint counter_incr (x : num) (c : list (num * nat)) : list (num * nat) :=
  match c with
  | [] => [(x, 1%nat)]
  | (k, n) :: r =>
      if num_eqb k x then (k, S n) :: r else (k, n) :: counter_incr x r
  end.

Definition Counter (xs : list num) : list (num * nat) :=
  fold_left (fun c x => counter_incr x c) xs [].

(** [max(items, key=count)]: a later item replaces the best one only when
    its count is strictly greater. *)
Fixpoint max_by_count (best : num * nat) (items : list (num * nat))
    : num * nat :=
  match items with
  | [] => best
  | it :: r => max_by_count (if Nat.ltb (snd best) (snd it) then it else best) r
  end.

(** [c.most_common(1)[0][0]] *)
Definition most_common1 (c : list (num * nat)) : res num :=
  match c with
  | [] => Raise index_error
  | it :: r => Ok (fst (max_by_count it r))
  end.

Definition is_large (threshold : num) (w : string * num) : bool :=
  num_geb (round1 (snd w)) threshold.

(** One turn of the loop that gathers the large text: the blocks closed so
    far and the block being built. *)
Definition block_step (threshold : num) (st : list string * string)
    (w : string * num) : list string * string :=
  let '(large_text_blocks, current_block) := st in
  if is_large threshold w
  then (large_text_blocks, (current_block ++ fst w ++ " ")%string)
  else if negb (is_empty current_block)
       then (large_text_blocks ++ [strip current_block], EmptyString)
       else (large_text_blocks, current_block).

Definition large_text_blocks (threshold : num) (ws : list (string * num))
    : list string :=
  let '(blocks, current_block) :=
    fold_left (block_step threshold) ws ([], EmptyString) in
  if negb (is_empty current_block)
  then blocks ++ [strip current_block]
  else blocks.

(** [title_found]: some block, rid of its punctuation and lowered, contains
    the search key. *)
Definition title_in_blocks (search_key : string) (blocks : list string)
    : bool :=
  existsb (fun block => contains search_key (lower (strip_punctuation block)))
          blocks.

(** What the body of the page loop finds on one page. *)
Inductive verdict : Type :=
| Skip
| Checked (title_found page_number_found : bool).

Definition inspect (search_key page_number_key : string) (p : page)
    : res verdict :=
  if is_nil (page_words p) then Ok Skip
  else
    let sized := sized_words (page_words p) in
    if is_nil sized then Ok Skip
    else
      let sizes := map (fun w => round1 (snd w)) sized in
      baseline_size <- most_common1 (Counter sizes) ;;
      let large_size_threshold := times_1_5 baseline_size in
      let blocks := large_text_blocks large_size_threshold sized in
      Ok (Checked (title_in_blocks search_key blocks)
                  (contains page_number_key (page_text p))).
(** The page loop, over the indices still to visit. [first_page_checked]
    is the flag of the same name. *)
Fixpoint scan_pages (pages : list page)
    (search_key page_number_key : string) (printed_start_page : Z)
    (first_page_checked : bool) (indices : list nat)
    : list line * option (Z * Z) :=
  match indices with
  | [] => ([ScanFailed], None)
  | i :: rest =>
      let file_page := (Z.of_nat i + 1)%Z in
      let starts := if first_page_checked then [ScanStartsAt file_page]
                    else [] in
      let continue (out : list line) :=
        let '(out', r) := scan_pages pages search_key page_number_key
                            printed_start_page false rest in
        (starts ++ out ++ out', r) in
      match nth_error pages i with
      | None => (starts ++ [ScanError index_error], None)
      | Some p =>
          match inspect search_key page_number_key p with
          | Raise e => (starts ++ [ScanError e], None)
          | Ok Skip => continue []
          | Ok (Checked true true) =>
              let calculated_offset := (file_page - printed_start_page)%Z in
              (starts ++ [ScanSuccess search_key page_number_key file_page],
               Some (calculated_offset, file_page))
          | Ok (Checked true false) =>
              continue [ScanTitleOnly search_key file_page page_number_key]
          | Ok (Checked false _) => continue []
          end
      end
  end.

(** [" ".join(clean_title.split()[:min(5, len(clean_title.split()))])] *)
Definition make_search_key (clean_title : string) : string :=
  let ws := split clean_title in
  join " " (firstn (Nat.min 5 (List.length ws)) ws).

(** The title without its numeral prefix, stripped and lowered. *)
Definition clean_chapter_title (chapter_title : string) : string :=
  lower (match re_search false title_pattern chapter_title with
         | Some groups => strip (nth 0 groups EmptyString)
         | None => strip chapter_title
         end).

(** [range(start_index, scan_limit)] *)
Definition scan_window (total_pages : nat) (toc_end_file_page : Z)
    : list nat :=
  let start_index := Z.to_nat (Z.max 0 toc_end_file_page) in
  let scan_limit := Nat.min (start_index + 50) total_pages in
  seq start_index (scan_limit - start_index).

Definition find_offset_by_title_scan (pdfplumber : bool) (pdf : opened)
    (chapter_title : string) (printed_start_page toc_end_file_page : Z)
    : list line * option (Z * Z) :=
  if negb pdfplumber then ([ScanNeedsPlumber], None)
  else
    let clean_title := clean_chapter_title chapter_title in
    if is_empty clean_title then ([ScanStarting; ScanEmptyTitle], None)
    else
      let search_key := make_search_key clean_title in
      let page_number_key := str_of_Z printed_start_page in
      match pdf with
      | Opened pages =>
          let total_pages := List.length pages in
          let start_index := Z.to_nat (Z.max 0 toc_end_file_page) in
          let '(out, r) :=
            scan_pages pages search_key page_number_key printed_start_page
                       true (scan_window total_pages toc_end_file_page) in
          (ScanStarting
           :: ScanSearching search_key page_number_key
                            (Z.of_nat start_index + 1)
           :: out, r)
      | NotFound => ([ScanStarting; ScanNotFound], None)
      | Failed e => ([ScanStarting; ScanError e], None)
      end.
End Scanner.

(* --------------------------------------------------------------------- *)
(** ** [extract_chapters_from_toc] *)
(* --------------------------------------------------------------------- *)

(** The body of the loop over the matches of one page: the groups of a
    match, and the dictionary built so far. *)
Definition toc_match_step (extracted_chapters : dict Z)
    (groups : list string) : res (dict Z) :=
  match groups with
  | [g1; g2; g3] =>
      let chapter_number := strip g1 in
      let title := strip g2 in
      match int_of_str g3 with
      | None => Raise value_error
      | Some printed_page =>
          let full_title_key := (chapter_number ++ " " ++ title)%string in
          if (Nat.ltb 5 (String.length title) && Z.ltb 1 printed_page
              && negb (dict_mem full_title_key extracted_chapters))%bool
          then Ok (dict_set full_title_key printed_page extracted_chapters)
          else Ok extracted_chapters
      end
  | _ => Raise index_error
  end.

Fixpoint toc_matches (extracted_chapters : dict Z)
    (matches : list (list string)) : res (dict Z) :=
  match matches with
  | [] => Ok extracted_chapters
  | groups :: rest =>
      d <- toc_match_step extracted_chapters groups ;;
      toc_matches d rest
  end.

Section Extractor.
Context `{SizeNum}.

(** The loop over the pages to scan; a page without text is passed over. *)
Fixpoint toc_pages (extracted_chapters : dict Z) (pages : list page)
    : res (dict Z) :=
  match pages with
  | [] => Ok extracted_chapters
  | p :: rest =>
      let text := page_text p in
      if is_empty text then toc_pages extracted_chapters rest
      else
        d <- toc_matches extracted_chapters
               (finditer true toc_pattern_numbered text) ;;
        toc_pages d rest
  end.

(** [pdf.pages[i] for i in range(scan_limit)] *)
Definition pages_scanned (pages : list page) (pages_to_scan : Z)
    : list page :=
  let scan_limit := Z.min pages_to_scan (Z.of_nat (List.length pages)) in
  firstn (Z.to_nat scan_limit) pages.

Definition extract_chapters_from_toc (pdfplumber : bool) (pdf : opened)
    (pages_to_scan : Z) : list line * option (dict Z) :=
  if negb pdfplumber then ([], None)
  else
    match pdf with
    | Opened pages =>
        match toc_pages [] (pages_scanned pages pages_to_scan) with
        | Ok extracted_chapters =>
            if negb (is_nil extracted_chapters)
            then
              let sorted_chapters := sorted snd extracted_chapters in
              ([TocAttempting pages_to_scan;
                TocSuccess (List.length sorted_chapters)],
               Some sorted_chapters)
            else ([TocAttempting pages_to_scan; TocFailed], None)
        | Raise e => ([TocAttempting pages_to_scan; TocError e], None)
        end
    | NotFound => ([TocAttempting pages_to_scan; TocNotFound], None)
    | Failed e => ([TocAttempting pages_to_scan; TocError e], None)
    end.
End Extractor.

(* --------------------------------------------------------------------- *)
(** ** [map_starts_to_ranges] *)
(* --------------------------------------------------------------------- *)

(** The loop over [sorted_items]: the end of an entry is the page before
    the next start, and [last_printed_page] for the last one. *)
Fixpoint ranges_loop (sorted_items : list (string * Z))
    (last_printed_page : Z) (final_map : dict (Z * Z)) : dict (Z * Z) :=
  match sorted_items with
  | [] => final_map
  | (title, start_page) :: rest =>
      let end_page :=
        match rest with
        | (_, next_start_page) :: _ => (next_start_page - 1)%Z
        | [] => last_printed_page
        end in
      ranges_loop rest last_printed_page
        (if Z.leb start_page end_page
         then dict_set title (start_page, end_page) final_map
         else final_map)
  end.

Definition map_starts_to_ranges (chapter_starts : dict Z)
    (last_printed_page : Z) : dict (Z * Z) :=
  ranges_loop (sorted snd chapter_starts) last_printed_page [].

(* --------------------------------------------------------------------- *)
(** ** [split_pdf_by_chapters] *)
(* --------------------------------------------------------------------- *)

(** The character kept or replaced by the sanitization of a title. *)
Definition safe_char (c : ascii) : ascii :=
  if (isalnum c || Ascii.eqb c " " || Ascii.eqb c "_" || Ascii.eqb c "-")%bool
  then c else "_"%char.

Definition safe_title_part (clean_title : string) : string :=
  strip (map_str safe_char clean_title).

Definition output_filename (title_with_num : string) : string :=
  let '(num_prefix, clean_title) :=
    match re_match false filename_pattern title_with_num with
    | Some groups =>
        (strip (nth 0 groups EmptyString), strip (nth 1 groups EmptyString))
    | None => (EmptyString, title_with_num)
    end in
  if negb (is_empty num_prefix)
  then (num_prefix ++ "_" ++ safe_title_part clean_title ++ ".pdf")%string
  else (safe_title_part clean_title ++ ".pdf")%string.

Definition output_dir : string := "chapters_output".

(** [os.path.join(output_dir, output_filename)] *)
Definition output_path (title_with_num : string) : string :=
  (output_dir ++ "/" ++ output_filename title_with_num)%string.

(** [file_start < 1 or file_end > total_pages or file_start > file_end] *)
Definition invalid_range (total_pages : nat) (file_start file_end : Z)
    : bool :=
  (Z.ltb file_start 1 || Z.ltb (Z.of_nat total_pages) file_end
   || Z.ltb file_end file_start)%bool.

(** [range(start_index, end_index)] over integers. *)
Definition range (lo hi : Z) : list Z :=
  map (fun k => (lo + Z.of_nat k)%Z) (seq 0 (Z.to_nat (hi - lo))).

(** What the splitter leaves behind: the lines printed and the files
    written in full, each with the indices of the source pages it is made
    of, in the order of writing. *)
Record effects : Type := mk_effects {
  printed : list line;
  written : list (string * list Z)
}.

Definition no_effects : effects := mk_effects [] [].

Definition say (l : line) (e : effects) : effects :=
  mk_effects (printed e ++ [l]) (written e).

(** What pypdf and the operating system answer when a chapter file is put
    together and written ([add_page], [open], [write]): [None] when the
    file is written, [Some e] when one of the calls raises an exception
    with the message [e]. The answer may depend on the files written
    before, on the path and on the pages. *)
Definition filesystem : Type :=
  list (string * list Z) -> string -> list Z -> option string.

(** Steps 3 to 5 of the loop body: the writer, its pages and the file. *)
Definition write_file (fs : filesystem) (path : string) (pages : list Z)
    (e : effects) : res effects :=
  match fs (written e) path pages with
  | Some err => Raise err
  | None => Ok (mk_effects (printed e) (written e ++ [(path, pages)]))
  end.

(** The body of the loop over [chapter_pages.items()]. The pages added are
    within the document once the range is valid. *)
Definition split_chapter (fs : filesystem) (total_pages : nat)
    (printed_chapter_pages : dict (Z * Z)) (e : effects)
    (item : string * (Z * Z)) : res effects :=
  let '(title_with_num, (file_start, file_end)) := item in
  let path := output_path title_with_num in
  if invalid_range total_pages file_start file_end
  then
    Ok (say (SplitWarningTotal total_pages)
          (say (SplitWarningSkipping title_with_num file_start file_end) e))
  else
    let start_index := (file_start - 1)%Z in
    let end_index := file_end in
    e' <- write_file fs path (range start_index end_index) e ;;
    Ok (say (SplitCreated path file_start file_end
               (dict_get title_with_num printed_chapter_pages)) e').

(** The loop, the line after it, and the handler of the [try] that
    encloses both: an exception raised for one chapter ends the loop, and
    the chapters after it are not looked at. *)
Fixpoint split_chapters (fs : filesystem) (total_pages : nat)
    (printed_chapter_pages : dict (Z * Z))
    (chapter_pages : dict (Z * Z)) (e : effects) : effects :=
  match chapter_pages with
  | [] => say SplitComplete e
  | item :: rest =>
      match split_chapter fs total_pages printed_chapter_pages e item with
      | Ok e' =>
          split_chapters fs total_pages printed_chapter_pages rest e'
      | Raise err => say SplitErrorHint (say (SplitError err) e)
      end
  end.

(** The directory of the output files is taken to exist or to be created
    without error: [os.makedirs] stands before the [try]. *)
Definition split_pdf_by_chapters (fs : filesystem) (input_pdf : reader)
    (chapter_pages printed_chapter_pages : dict (Z * Z)) : effects :=
  match input_pdf with
  | ReaderNotFound => say SplitInputMissing no_effects
  | ReaderFailed e =>
      say SplitErrorHint (say (SplitError e) (say SplitStarting no_effects))
  | Reader total_pages =>
      split_chapters fs total_pages printed_chapter_pages chapter_pages
        (say (SplitTotalPages total_pages) (say SplitStarting no_effects))
  end.

(* --------------------------------------------------------------------- *)
(** ** The top level *)
(* --------------------------------------------------------------------- *)

Definition TOC_END_FILE_PAGE : Z := 8.
Definition FIRST_PRINTED_PAGE_NUMBER : Z := 1.

(** The [while MANUAL_FALLBACK_FILE_PAGE is None] loop, on the lines still
    to be read from standard input: the page number accepted and the lines
    left, or [None] when the input ends first ([input] then raises
    [EOFError], which nothing catches). *)
Fixpoint prompt_file_page (stdin : list string)
    : list line * option (Z * list string) :=
  match stdin with
  | [] => ([], None)
  | user_input :: rest =>
      let again :=
        let '(out, r) := prompt_file_page rest in
        (MainInvalidInput user_input :: out, r) in
      match int_of_str (strip user_input) with
      | Some file_page =>
          if Z.ltb file_page 1 then again else ([], Some (file_page, rest))
      | None => again
      end
  end.

(** The anchor of the manual calculation: the first chapter when it is
    known and printed after page 1, else the first printed page. *)
Definition manual_anchor (first_chapter_title : string)
    (first_chapter_printed_page : Z) : option string * Z :=
  if (negb (is_empty first_chapter_title)
      && Z.ltb FIRST_PRINTED_PAGE_NUMBER first_chapter_printed_page)%bool
  then (Some first_chapter_title, first_chapter_printed_page)
  else (None, FIRST_PRINTED_PAGE_NUMBER).

(** The test that guards the built-in answer; its third operand, the
    non-empty string literal, is true. *)
Definition provided_answer_applies (first_chapter_title : string)
    (anchor_printed_page : Z) : bool :=
  (String.eqb first_chapter_title "1 Error Handling"
   && Z.eqb anchor_printed_page 3 && true)%bool.

(** The block under [if FALLBACK_TO_MANUAL], up to the offset: the lines
    printed, and the offset with the input left. *)
Definition manual_fallback (first_chapter_title : string)
    (first_chapter_printed_page : Z) (stdin : list string)
    : list line * option (Z * list string) :=
  let '(anchor_chapter, anchor_printed_page) :=
    manual_anchor first_chapter_title first_chapter_printed_page in
  let required := MainManualRequired anchor_chapter anchor_printed_page in
  if provided_answer_applies first_chapter_title anchor_printed_page
  then
    let page_offset := (27 - anchor_printed_page)%Z in
    ([required; MainUsingProvided first_chapter_title;
      MainManualOffset page_offset], Some (page_offset, stdin))
  else
    match prompt_file_page stdin with
    | (out, Some (manual_fallback_file_page, rest)) =>
        let page_offset :=
          (manual_fallback_file_page - anchor_printed_page)%Z in
        (required :: out ++ [MainManualOffset page_offset],
         Some (page_offset, rest))
    | (out, None) => (required :: out, None)
    end.

(** Step 5: the offset applied to every printed range. *)
Definition project_ranges (page_offset : Z) (ranges : dict (Z * Z))
    : dict (Z * Z) :=
  fold_left
    (fun file_chapter_map '(title, (printed_start, printed_end)) =>
       let file_start := (printed_start + page_offset)%Z in
       let file_end := (printed_end + page_offset)%Z in
       dict_set title (file_start, file_end) file_chapter_map)
    ranges [].

(** Steps 4 to 7, once the offset is known and pypdf has read the file
    (the guard against a reader that is [None] is then never taken). *)
Definition split_with_offset (fs : filesystem) (total_pages : nat)
    (chapter_starts : dict Z) (page_offset : Z) : effects :=
  let last_printed_page := (Z.of_nat total_pages - page_offset)%Z in
  let printed_ranges := map_starts_to_ranges chapter_starts last_printed_page in
  let file_chapter_map := project_ranges page_offset printed_ranges in
  let e := split_pdf_by_chapters fs (Reader total_pages) file_chapter_map
             printed_ranges in
  mk_effects
    (MainChapterList printed_ranges :: MainFinalOffset page_offset
     :: printed e)
    (written e).

(** How a run ends: it reaches the end of the script, leaves through
    [sys.exit] or [exit], or dies of an exception nothing catches. *)
Inductive ending : Type :=
| Finished
| Exited
| Uncaught (e : string).

Record run : Type := mk_run {
  run_effects : effects;
  run_ending : ending
}.

Definition stop (out : list line) (how : ending) : run :=
  mk_run (mk_effects out []) how.

Definition eof_error : string := "EOF when reading a line".

Section Main.
Context `{SizeNum}.

(** The script from the first prompt on. [fs] answers for the chapter
    files; [pdf] and [input_pdf] are what pdfplumber and pypdf make of
    the file at the path typed in; [stdin] holds the lines typed, the path
    first. The three side files
    ([TOC_contents.txt], [PDF_metadata.txt], [Title_OCR_TOC_Results.txt])
    are diagnostics that no later step reads; they are left out. *)
Definition main (fs : filesystem) (pdfplumber : bool) (pdf : opened)
    (input_pdf : reader) (stdin : list string) : run :=
  match stdin with
  | [] => stop [] (Uncaught eof_error)
  | _ :: stdin =>
      match extract_chapters_from_toc pdfplumber pdf 15 with
      | (out, None) | (out, Some []) => stop (out ++ [ExitTocFailed]) Exited
      | (out, Some (((first_chapter_title, first_chapter_printed_page) :: _)
                    as chapter_starts)) =>
          let finish (out' : list line) (total_pages : nat) (off : Z) :=
            let e := split_with_offset fs total_pages chapter_starts off in
            mk_run (mk_effects (out ++ out' ++ printed e) (written e))
                   Finished in
          match input_pdf with
          | ReaderNotFound => stop (out ++ [MainFatalNotFound]) Exited
          | ReaderFailed e =>
              match manual_fallback EmptyString FIRST_PRINTED_PAGE_NUMBER
                      stdin with
              | (out', Some _) =>
                  stop (out ++ MainFatalSetup e :: out'
                        ++ [MainFatalUnreadable]) Exited
              | (out', None) =>
                  stop (out ++ MainFatalSetup e :: out') (Uncaught eof_error)
              end
          | Reader total_pages =>
              match find_offset_by_title_scan pdfplumber pdf
                      first_chapter_title first_chapter_printed_page
                      TOC_END_FILE_PAGE with
              | (out1, Some (page_offset, _)) =>
                  finish out1 total_pages page_offset
              | (out1, None) =>
                  match manual_fallback first_chapter_title
                          first_chapter_printed_page stdin with
                  | (out2, Some (page_offset, _)) =>
                      finish (out1 ++ MainScanFailed :: out2
                              ++ [MainMethodManual])
                             total_pages page_offset
                  | (out2, None) =>
                      stop (out ++ out1 ++ MainScanFailed :: out2)
                           (Uncaught eof_error)
                  end
              end
          end
      end
  end.
End Main.

(* --------------------------------------------------------------------- *)
(** ** Sizes as Python floats *)
(* --------------------------------------------------------------------- *)

(** pdfplumber gives the size of a word as a [float], an IEEE 754 binary64
    number. [spec_float] is the Standard Library's specification of the
    format, here with a precision of 53 bits and infinities at exponent
    1024: the zeros and the infinities with their sign, NaN, and the
    finite numbers [(-1)^s * m * 2^e]. *)
Definition float : Type := spec_float.
Definition float_prec : Z := 53.
Definition float_emax : Z := 1024.

(** The float nearest to the fraction [a / b], a tie going to the even
    mantissa: what Python makes of a decimal literal ([9.4] is
    [nearest_float false 94 10]) and of the digits that [round] hands
    back. *)
Definition nearest_float (sign : bool) (a b : positive) : float :=
  SFdiv float_prec float_emax (S754_finite sign a 0) (S754_finite false b 0).

(** The exact value of a finite float, without its sign and with it. *)
Definition magnitude (m : positive) (e : Z) : Q :=
  match e with
  | Zneg k => Zpos m # (2 ^ k)
  | _ => inject_Z (Zpos m * 2 ^ e)
  end.

Definition float_value (x : float) : Q :=
  match x with
  | S754_finite s m e => if s then (- magnitude m e)%Q else magnitude m e
  | _ => 0%Q
  end.

(** Rounding to the nearest integer, a tie going to the even one. *)
Definition round_half_even (q : Q) : Z :=
  let n := Qfloor q in
  match Qcompare (q - inject_Z n) (1 # 2) with
  | Lt => n
  | Gt => (n + 1)%Z
  | Eq => if Z.even n then n else (n + 1)%Z
  end.

(** [round(x, 1)]: CPython writes the exact value of [x] in decimal with
    one digit after the point, a tie going to the even digit, and reads
    the digits back as a float. NaN and the infinities round to
    themselves, and a zero result keeps the sign of [x]. *)
Definition py_round1 (x : float) : float :=
  match x with
  | S754_finite s m e =>
      match round_half_even (magnitude m e * 10) with
      | Zpos n => nearest_float s n 10
      | _ => S754_zero s
      end
  | _ => x
  end.

(** The literal [1.5], which is a float exactly. *)
Definition one_and_a_half : float :=
  S754_finite false 6755399441055744 (-52).

(** The four operations on floats: [baseline_size * 1.5] is the product
    rounded to the nearest float; [>=] and [==] are false as soon as one
    side is NaN, and the two zeros are equal. *)
#[export] Instance PyFloat : SizeNum := {|
  num := float;
  round1 := py_round1;
  times_1_5 := fun b => SFmul float_prec float_emax b one_and_a_half;
  num_geb := fun x y => SFleb y x;
  num_eqb := SFeqb
|}.

(* --------------------------------------------------------------------- *)
(** ** Vocabulary of the properties *)
(* --------------------------------------------------------------------- *)

Section ScannerProperties.
Context `{SizeNum}.

(** The blocks of large text of a page; none when no word has a size. *)
Definition page_large_blocks (p : page) : list string :=
  let sized := sized_words (page_words p) in
  match most_common1 (Counter (map (fun w => round1 (snd w)) sized)) with
  | Ok baseline_size => large_text_blocks (times_1_5 baseline_size) sized
  | Raise _ => []
  end.

(** The two checks of the scanner on a page. *)
Definition title_check (search_key : string) (p : page) : bool :=
  title_in_blocks search_key (page_large_blocks p).

Definition number_check (page_number_key : string) (p : page) : bool :=
  contains page_number_key (page_text p).

Definition qualifies (search_key page_number_key : string) (p : page)
    : bool :=
  (title_check search_key p && number_check page_number_key p)%bool.

(** The same on the page of index [i], when there is one. *)
Definition qualifies_at (pages : list page)
    (search_key page_number_key : string) (i : nat) : bool :=
  match nth_error pages i with
  | Some p => qualifies search_key page_number_key p
  | None => false
  end.

(** The indices at which the body of the page loop runs: the loop leaves
    at the first page that passes both checks (or raises). *)
Fixpoint pages_inspected (pages : list page)
    (search_key page_number_key : string) (indices : list nat) : list nat :=
  match indices with
  | [] => []
  | i :: rest =>
      i ::
      match nth_error pages i with
      | Some p =>
          match inspect search_key page_number_key p with
          | Ok (Checked true true) | Raise _ => []
          | Ok _ => pages_inspected pages search_key page_number_key rest
          end
      | None => []
      end
  end.

(** The number of elements of [xs] that [Counter] counts under the key [x]. *)
Definition occurrences (x : num) (xs : list num) : nat :=
  List.length (filter (num_eqb x) xs).

(** The equality of the keys of a [Counter] is symmetric and transitive.
    It need not be reflexive: a NaN is not equal to itself. *)
Definition key_partial_equivalence : Prop :=
  (forall x y, num_eqb x y = true -> num_eqb y x = true)
  /\ (forall x y z, num_eqb x y = true -> num_eqb y z = true ->
                    num_eqb x z = true).

(** A key that is equal to itself. *)
Definition self_equal (x : num) : Prop := num_eqb x x = true.

(** What a [Counter] fed with the elements [seen] holds: its keys are
    elements seen, each paired with the number of its occurrences; every
    element seen is equal to a key; no two keys are equal. *)
Definition counter_of (c : list (num * nat)) (seen : list num) : Prop :=
  (forall k n, In (k, n) c -> In k seen /\ n = occurrences k seen)
  /\ (forall x, In x seen -> exists k n, In (k, n) c /\ num_eqb k x = true)
  /\ ForallOrdPairs (fun k k' => num_eqb k k' = false) (map fst c).

(** The text of a block made of the words of [run]. *)
Definition block_text (run : list (string * num)) : string :=
  strip (fold_right (fun w acc => (fst w ++ " " ++ acc)%string)
                    EmptyString run).
End ScannerProperties.

(** [maximal_runs large ws runs]: [runs] are the maximal runs of consecutive
    large elements of [ws], in order. A run is not empty, all its elements
    are large, and it ends where [ws] ends or before an element that is not
    large. *)
Inductive maximal_runs {A : Type} (large : A -> bool)
    : list A -> list (list A) -> Prop :=
| runs_end : maximal_runs large [] []
| runs_small (w : A) (ws : list A) (runs : list (list A)) :
    large w = false ->
    maximal_runs large ws runs ->
    maximal_runs large (w :: ws) runs
| runs_block (run ws : list A) (runs : list (list A)) :
    run <> [] ->
    forallb large run = true ->
    match ws with [] => True | w :: _ => large w = false end ->
    maximal_runs large ws runs ->
    maximal_runs large (run ++ ws) (run :: runs).

(** A line of the table of contents as the pattern reads it. *)
Record toc_entry : Type := mk_entry {
  entry_number : string;
  entry_title : string;
  entry_page : Z
}.

Definition parse_entry (groups : list string) : option toc_entry :=
  match groups with
  | [g1; g2; g3] =>
      match int_of_str g3 with
      | Some printed_page => Some (mk_entry (strip g1) (strip g2) printed_page)
      | None => None
      end
  | _ => None
  end.

Definition entry_label (e : toc_entry) : string :=
  (entry_number e ++ " " ++ entry_title e)%string.

(** The filter on title length and printed page. *)
Definition acceptable (e : toc_entry) : bool :=
  (Nat.ltb 5 (String.length (entry_title e)) && Z.ltb 1 (entry_page e))%bool.

Section ExtractorProperties.
Context `{SizeNum}.

Definition page_matches (p : page) : list (list string) :=
  if is_empty (page_text p) then []
  else finditer true toc_pattern_numbered (page_text p).

(** The entries matched on the pages, in the order of the scan. *)
Definition scanned_entries (pages : list page) : list toc_entry :=
  flat_map (fun groups => match parse_entry groups with
                          | Some e => [e]
                          | None => []
                          end)
           (flat_map page_matches pages).
End ExtractorProperties.

(** What the loop does with one entry: an acceptable entry whose label is
    new is recorded. *)
Definition keep_entry (extracted_chapters : dict Z) (e : toc_entry)
    : dict Z :=
  if (acceptable e
      && negb (dict_mem (entry_label e) extracted_chapters))%bool
  then dict_set (entry_label e) (entry_page e) extracted_chapters
  else extracted_chapters.

(** The page number a line typed at the prompt is accepted as, if any. *)
Definition accepted_page (user_input : string) : option Z :=
  match int_of_str (strip user_input) with
  | Some file_page => if Z.ltb file_page 1 then None else Some file_page
  | None => None
  end.

(** The first acceptable entry that carries [label]. *)
Definition first_accepted (label : string) (entries : list toc_entry)
    : option toc_entry :=
  find (fun e => (acceptable e && String.eqb (entry_label e) label)%bool)
       entries.

(** The ranges the loop of the mapper keeps, in the order of the entries:
    an entry whose start lies after its end leaves none. *)
Fixpoint kept_ranges (sorted_items : list (string * Z))
    (last_printed_page : Z) : dict (Z * Z) :=
  match sorted_items with
  | [] => []
  | (title, start_page) :: rest =>
      let end_page :=
        match rest with
        | (_, next_start_page) :: _ => (next_start_page - 1)%Z
        | [] => last_printed_page
        end in
      if Z.leb start_page end_page
      then (title, (start_page, end_page)) :: kept_ranges rest last_printed_page
      else kept_ranges rest last_printed_page
  end.

(** The order [sorted] puts the entries in: by printed start page. *)
Definition start_le (a b : string * Z) : Prop := (snd a <= snd b)%Z.

(** A range ends before another one starts. *)
Definition before (a b : string * (Z * Z)) : Prop :=
  (snd (snd a) < fst (snd b))%Z.

(** The printed page [p] lies in one of the ranges. *)
Definition covered (p : Z) (ranges : dict (Z * Z)) : Prop :=
  exists title s e, In (title, (s, e)) ranges /\ (s <= p <= e)%Z.

(** A range ends right before the next one starts. *)
Definition adjacent (a b : string * (Z * Z)) : Prop :=
  (snd (snd a) + 1 = fst (snd b))%Z.

(* --------------------------------------------------------------------- *)
(** ** [get_toc_text] *)
(* --------------------------------------------------------------------- *)

Section TocText.
Context `{SizeNum}.

(** The line that introduces the text of the page of index [i]. *)
Definition file_page_header (i : nat) : string :=
  String newline
    ("--- File Page " ++ str_of_Z (Z.of_nat i + 1) ++ " ---"
     ++ String newline EmptyString)%string.

(** The loop over [range(start_index, end_index)]: the text of a page that
    has some is added under its header. *)
Fixpoint toc_text_loop (pages : list page) (indices : list nat)
    (full_toc_text : string) : res string :=
  match indices with
  | [] => Ok full_toc_text
  | i :: rest =>
      match nth_error pages i with
      | None => Raise index_error
      | Some p =>
          let text := page_text p in
          toc_text_loop pages rest
            (if is_empty text then full_toc_text
             else (full_toc_text ++ file_page_header i ++ text)%string)
      end
  end.

Definition toc_text_unavailable : string :=
  "Skipping raw TOC text output: pdfplumber library not available.".

Definition toc_text_out_of_bounds (start_file_page end_file_page : Z)
    (total_pages : nat) : string :=
  ("Warning: Specified TOC file page range (" ++ str_of_Z start_file_page
   ++ "-" ++ str_of_Z end_file_page ++ ") is outside the document bounds ("
   ++ str_of_Z (Z.of_nat total_pages) ++ " pages total).")%string.

Definition toc_text_not_found (pdf_path : string) : string :=
  ("ERROR: Input file not found for TOC text extraction: " ++ pdf_path)%string.

Definition toc_text_error (e : string) : string :=
  ("ERROR during raw TOC text extraction: " ++ e
   ++ " | Please ensure your PDF file is not corrupted or password-protected.")%string.

(** The indices are not negative once the range has passed the check on the
    bounds, so that they are read as natural numbers. *)
Definition get_toc_text (pdfplumber : bool) (pdf_path : string)
    (pdf : opened) (start_file_page end_file_page : Z) : string :=
  if negb pdfplumber then toc_text_unavailable
  else
    let start_index := (start_file_page - 1)%Z in
    let end_index := end_file_page in
    match pdf with
    | Opened pages =>
        if (Z.ltb start_index 0
            || Z.ltb (Z.of_nat (List.length pages)) end_index)%bool
        then toc_text_out_of_bounds start_file_page end_file_page
               (List.length pages)
        else
          match toc_text_loop pages
                  (map Z.to_nat (range start_index end_index))
                  EmptyString with
          | Ok full_toc_text => strip full_toc_text
          | Raise e => toc_text_error e
          end
    | NotFound => toc_text_not_found pdf_path
    | Failed e => toc_text_error e
    end.

(** The part of the dump that the page of index [i] gives. *)
Definition toc_section (pages : list page) (i : nat) : string :=
  match nth_error pages i with
  | Some p =>
      if is_empty (page_text p) then EmptyString
      else (file_page_header i ++ page_text p)%string
  | None => EmptyString
  end.
End TocText.

(* --------------------------------------------------------------------- *)
(** ** More vocabulary *)
(* --------------------------------------------------------------------- *)

(** The character before the position reached after [run]. *)
Fixpoint prev_after (prev : option ascii) (run : string) : option ascii :=
  match run with
  | EmptyString => prev
  | String c r => prev_after (Some c) r
  end.

Definition not_slash (c : ascii) : bool := negb (Ascii.eqb c "/").

(** A blank or a dot: what separates a title from its page number on a
    line of a table of contents. *)
Definition leader (c : ascii) : bool :=
  (Ascii.eqb c " " || Ascii.eqb c ".")%bool.

(** Every page of the file [a] comes before every page of the file [b]. *)
Definition pages_before (a b : string * list Z) : Prop :=
  forall x y, In x (snd a) -> In y (snd b) -> (x < y)%Z.

(* --------------------------------------------------------------------- *)
(** ** Lines of a table of contents *)
(* --------------------------------------------------------------------- *)

(** A line as tables of contents are usually set: a numeral, a blank, the
    title, leaders, the page number. *)
Record toc_line : Type := mk_toc_line {
  line_number : string;
  line_title : string;
  line_leaders : string;
  line_page : string
}.

Definition line_text (l : toc_line) : string :=
  (line_number l ++ String " " (line_title l ++ line_leaders l
                                ++ line_page l))%string.

Definition line_groups (l : toc_line) : list string :=
  [line_number l; line_title l; line_page l].

Fixpoint last_char (s : string) : option ascii :=
  match s with
  | EmptyString => None
  | String c EmptyString => Some c
  | String _ r => last_char r
  end.

(** The numeral is made of digits and dots; the title is on one line, has
    no whitespace at either end, and ends with a character that is neither
    whitespace nor a dot; the leaders are blanks and dots; the page is made
    of digits; none of the four is empty. *)
Definition standard_line (l : toc_line) : Prop :=
  all_str digit_or_dot (line_number l) = true
  /\ (1 <= String.length (line_number l))%nat
  /\ all_str dot (line_title l) = true
  /\ strip (line_title l) = line_title l
  /\ (exists c, last_char (line_title l) = Some c
                /\ space_or_dot c = false)
  /\ all_str leader (line_leaders l) = true
  /\ (1 <= String.length (line_leaders l))%nat
  /\ all_str isdecimal (line_page l) = true
  /\ (1 <= String.length (line_page l))%nat.

(** A line of a page: an entry of the table of contents, or something
    else -- a heading, a line of prose, an empty line. *)
Inductive page_line : Type :=
| Entry (l : toc_line)
| Other (s : string).

Definition page_line_text (pl : page_line) : string :=
  match pl with
  | Entry l => line_text l
  | Other s => s
  end.

(** A line that the pattern of the extractor cannot start on: it holds no
    line break and does not start with a digit or a dot. *)
Definition plain_line (s : string) : Prop :=
  all_str dot s = true
  /\ match s with
     | EmptyString => True
     | String c _ => digit_or_dot c = false
     end.

Definition well_formed_line (pl : page_line) : Prop :=
  match pl with
  | Entry l => standard_line l
  | Other s => plain_line s
  end.

(** The lines, each ended by a line break but the last. *)
Fixpoint lines_text (pls : list page_line) : string :=
  match pls with
  | [] => EmptyString
  | [pl] => page_line_text pl
  | pl :: rest =>
      (page_line_text pl ++ String newline (lines_text rest))%string
  end.

(** The entries among the lines. *)
Definition entries_of (pls : list page_line) : list toc_line :=
  flat_map (fun pl => match pl with
                      | Entry l => [l]
                      | Other _ => []
                      end) pls.

(** The entry the extractor reads from such a line. *)
Definition line_page_number (l : toc_line) : Z :=
  match int_of_str (line_page l) with
  | Some printed_page => printed_page
  | None => 0%Z
  end.

Definition line_entry (l : toc_line) : toc_entry :=
  mk_entry (line_number l) (line_title l) (line_page_number l).

(** The text of the page [p] is made of the lines [pls]: entries of the
    standard form and lines that are no entries. *)
Definition page_of_lines `{SizeNum} (p : page) (pls : list page_line)
    : Prop :=
  page_text p = lines_text pls /\ Forall well_formed_line pls.

(* --------------------------------------------------------------------- *)
(** ** Chapter files *)
(* --------------------------------------------------------------------- *)

(** What a chapter adds to the output and to the files once its turn is
    over: the two warning lines and no file for a range that is not
    valid, else the line of success and the file. *)
Definition chapter_lines (total_pages : nat)
    (printed_chapter_pages : dict (Z * Z)) (item : string * (Z * Z))
    : list line :=
  let '(title, (file_start, file_end)) := item in
  if invalid_range total_pages file_start file_end
  then [SplitWarningSkipping title file_start file_end;
        SplitWarningTotal total_pages]
  else [SplitCreated (output_path title) file_start file_end
          (dict_get title printed_chapter_pages)].

Definition chapter_files (total_pages : nat) (item : string * (Z * Z))
    : list (string * list Z) :=
  let '(title, (file_start, file_end)) := item in
  if invalid_range total_pages file_start file_end then []
  else [(output_path title, range (file_start - 1) file_end)].

(** No call fails, whatever the file. *)
Definition every_write_succeeds (fs : filesystem) : Prop :=
  forall files path pages, fs files path pages = None.

Definition writable : filesystem := fun _ _ _ => None.

(** A file system that takes names of 255 characters at most, the limit
    of ext4, NTFS and APFS: [open] raises [OSError] for a longer one. *)
Definition short_names_only : filesystem :=
  fun _ path _ =>
    if Nat.ltb (String.length output_dir + 1 + 255) (String.length path)
    then Some ("[Errno 36] File name too long: '" ++ path ++ "'")%string
    else None.

(** [c * n] for a character [c]. *)
Fixpoint repeat_char (c : ascii) (n : nat) : string :=
  match n with
  | O => EmptyString
  | S k => String c (repeat_char c k)
  end.

(** The anchors that the lines of a run ask the user for. *)
Definition anchors (out : list line) : list (option string * Z) :=
  flat_map (fun l => match l with
                     | MainManualRequired anchor_chapter anchor_printed_page =>
                         [(anchor_chapter, anchor_printed_page)]
                     | _ => []
                     end) out.

(* --------------------------------------------------------------------- *)
(** ** A small book *)
(* --------------------------------------------------------------------- *)

Module Example.

Definition nl : string := String newline EmptyString.

(** A word set in a font of [points] points. *)
Definition sized (text : string) (points : positive) : word :=
  mk_word text (Some (nearest_float false points 1)).

Definition blank : page := mk_page [] EmptyString.

(** The table of contents, on file page 6. *)
Definition contents : page :=
  mk_page
    [sized "Contents" 14; sized "1" 10; sized "Introduction" 10;
     sized "3" 10; sized "2" 10; sized "Basics" 10; sized "of" 10;
     sized "it" 10; sized "20" 10]
    ("Contents" ++ nl ++ "1 Introduction ..... 3" ++ nl
     ++ "2 Basics of it ..... 20" ++ nl).

(** The same page, line by line. *)
Definition contents_lines : list page_line :=
  [Other "Contents";
   Entry (mk_toc_line "1" "Introduction" " ..... " "3");
   Entry (mk_toc_line "2" "Basics of it" " ..... " "20");
   Other EmptyString].

(** A part title on file page 10: the chapter title in large type, without
    the printed page number of the chapter. *)
Definition part_title : page :=
  mk_page
    [sized "Introduction" 24; sized "to" 10; sized "the" 10;
     sized "book" 10]
    "Introduction to the book".

(** The opening of the first chapter, on file page 27, printed page 3. *)
Definition opening : page :=
  mk_page
    [sized "1" 18; sized "Introduction" 18; sized "This" 10;
     sized "book" 10; sized "is" 10; sized "short" 10;
     mk_word "3" None]
    ("1 Introduction" ++ nl ++ "This book is short" ++ nl ++ "3").

Definition body : page :=
  mk_page [sized "More" 10; sized "text" 10] "More text".

(** A page with one word in a font of [title] tenths of a point above
    two words in a font of [text] tenths of a point. *)
Definition titled (title text : positive) : page :=
  mk_page
    [mk_word "Title" (Some (nearest_float false title 10));
     mk_word "body" (Some (nearest_float false text 10));
     mk_word "text" (Some (nearest_float false text 10))]
    "Title body text".

(** 45 pages: front matter, the part title, the opening on page 27. *)
Definition book : list page :=
  repeat blank 5 ++ [contents] ++ repeat blank 3 ++ [part_title]
  ++ repeat body 16 ++ [opening] ++ repeat body 18.

End Example.

End Splitter.

Import PyStr Re Splitter.

(* ===================================================================== *)
(** * Properties *)
(* ===================================================================== *)

(** ** Filenames *)

Lemma safe_char_kept (c : ascii) :
  (isalnum c || Ascii.eqb c " " || Ascii.eqb c "_" || Ascii.eqb c "-")%bool
  = true ->
  safe_char c = c.
Proof. unfold safe_char. intros ->. reflexivity. Qed.

Lemma safe_char_replaced (c : ascii) :
  (isalnum c || Ascii.eqb c " " || Ascii.eqb c "_" || Ascii.eqb c "-")%bool
  = false ->
  safe_char c = "_"%char.
Proof. unfold safe_char. intros ->. reflexivity. Qed.

Lemma map_str_length (f : ascii -> ascii) (s : string) :
  String.length (map_str f s) = String.length s.
Proof. induction s as [|c r IH]; simpl; congruence. Qed.

Lemma map_str_get (f : ascii -> ascii) (s : string) (n : nat) :
  String.get n (map_str f s) = option_map f (String.get n s).
Proof.
  revert n. induction s as [|c r IH]; intros [|n]; simpl; auto.
Qed.

(** C9, as the claim states it: the example title would become
    [Error_Handling__Part_1]. It does not: the spaces are kept. *)
Lemma sanitize_example_refuted :
  safe_title_part "Error Handling: Part 1" <> "Error_Handling__Part_1".
Proof. vm_compute. discriminate. Qed.

(** C9, amended: the sanitization keeps alphanumerics, spaces, underscores
    and hyphens and replaces every other character by an underscore, one
    for one, before the result is stripped; the title
    [Error Handling: Part 1] becomes [Error Handling_ Part 1], and the
    label [1 Error Handling: Part 1] the file name
    [1_Error Handling_ Part 1.pdf]. *)
Theorem sanitize_keeps_or_replaces :
  (forall c : ascii,
      safe_char c =
      if (isalnum c || Ascii.eqb c " " || Ascii.eqb c "_"
          || Ascii.eqb c "-")%bool then c else "_"%char)
  /\ (forall (s : string) (n : nat),
        String.get n (map_str safe_char s)
        = option_map safe_char (String.get n s))
  /\ (forall s : string, safe_title_part s = strip (map_str safe_char s))
  /\ safe_title_part "Error Handling: Part 1" = "Error Handling_ Part 1"
  /\ output_filename "1 Error Handling: Part 1"
     = "1_Error Handling_ Part 1.pdf".
Proof.
  repeat split.
  - intros s n. apply map_str_get.
Qed.
(** ** The splitter *)

Lemma invalid_range_spec (total_pages : nat) (s e : Z) :
  invalid_range total_pages s e = true
  <-> (s < 1 \/ Z.of_nat total_pages < e \/ e < s)%Z.
Proof.
  unfold invalid_range. rewrite !orb_true_iff, !Z.ltb_lt. tauto.
Qed.

Lemma valid_range_spec (total_pages : nat) (s e : Z) :
  invalid_range total_pages s e = false
  <-> (1 <= s /\ s <= e /\ e <= Z.of_nat total_pages)%Z.
Proof.
  unfold invalid_range. rewrite !orb_false_iff, !Z.ltb_ge. tauto.
Qed.

Lemma range_length (lo hi : Z) :
  List.length (range lo hi) = Z.to_nat (hi - lo).
Proof. unfold range. now rewrite length_map, length_seq. Qed.

Lemma in_range_iff (lo hi i : Z) :
  In i (range lo hi) <-> (lo <= i < hi)%Z.
Proof.
  unfold range. rewrite in_map_iff. split.
  - intros (k & <- & Hk). apply in_seq in Hk. lia.
  - intros Hi. exists (Z.to_nat (i - lo)). split; [lia|].
    apply in_seq. lia.
Qed.

(** The lines one chapter adds to the output, and the file it adds, unless
    putting the file together raises. *)
Lemma split_chapter_effects (fs : filesystem) (total_pages : nat)
    (pm : dict (Z * Z)) (e0 : effects) (item : string * (Z * Z)) :
  split_chapter fs total_pages pm e0 item =
  let '(title, (s, e)) := item in
  if invalid_range total_pages s e
  then Ok (mk_effects (printed e0 ++ chapter_lines total_pages pm item)
                      (written e0 ++ chapter_files total_pages item))
  else match fs (written e0) (output_path title) (range (s - 1) e) with
       | Some err => Raise err
       | None =>
           Ok (mk_effects (printed e0 ++ chapter_lines total_pages pm item)
                          (written e0 ++ chapter_files total_pages item))
       end.
Proof.
  destruct item as [title [s e]].
  unfold split_chapter, write_file, chapter_lines, chapter_files, say.
  destruct (invalid_range total_pages s e); cbn [printed written bind].
  - now rewrite <- app_assoc, app_nil_r.
  - destruct (fs (written e0) (output_path title) (range (s - 1) e));
      reflexivity.
Qed.

(** The loop goes through the chapters up to the first one whose file
    cannot be written, or to the end. *)
Lemma split_chapters_spec (fs : filesystem) (total_pages : nat)
    (pm : dict (Z * Z)) (chapters : dict (Z * Z)) :
  forall e0 : effects,
  exists done rest,
    chapters = done ++ rest
    /\ written (split_chapters fs total_pages pm chapters e0)
       = written e0 ++ flat_map (chapter_files total_pages) done
    /\ match rest with
       | [] =>
           printed (split_chapters fs total_pages pm chapters e0)
           = printed e0 ++ flat_map (chapter_lines total_pages pm) done
             ++ [SplitComplete]
       | (title, (s, e)) :: _ =>
           invalid_range total_pages s e = false
           /\ exists err,
                fs (written e0 ++ flat_map (chapter_files total_pages) done)
                   (output_path title) (range (s - 1) e) = Some err
                /\ printed (split_chapters fs total_pages pm chapters e0)
                   = printed e0
                     ++ flat_map (chapter_lines total_pages pm) done
                     ++ [SplitError err; SplitErrorHint]
       end.
Proof.
  induction chapters as [|item chapters IH]; intros e0.
  - exists [], []. cbn. rewrite app_nil_r. auto.
  - cbn [split_chapters]. rewrite split_chapter_effects.
    destruct item as [title [s e]].
    assert (Hgo : forall e1,
               e1 = mk_effects
                      (printed e0
                       ++ chapter_lines total_pages pm (title, (s, e)))
                      (written e0
                       ++ chapter_files total_pages (title, (s, e))) ->
               exists done rest,
                 (title, (s, e)) :: chapters = done ++ rest
                 /\ written (split_chapters fs total_pages pm chapters e1)
                    = written e0
                      ++ flat_map (chapter_files total_pages) done
                 /\ match rest with
                    | [] =>
                        printed (split_chapters fs total_pages pm
                                   chapters e1)
                        = printed e0
                          ++ flat_map (chapter_lines total_pages pm) done
                          ++ [SplitComplete]
                    | (title', (s', e')) :: _ =>
                        invalid_range total_pages s' e' = false
                        /\ exists err,
                             fs (written e0
                                 ++ flat_map (chapter_files total_pages)
                                      done)
                                (output_path title') (range (s' - 1) e')
                             = Some err
                             /\ printed (split_chapters fs total_pages pm
                                           chapters e1)
                                = printed e0
                                  ++ flat_map
                                       (chapter_lines total_pages pm) done
                                  ++ [SplitError err; SplitErrorHint]
                    end).
    { intros e1 ->.
      destruct (IH (mk_effects
                      (printed e0
                       ++ chapter_lines total_pages pm (title, (s, e)))
                      (written e0
                       ++ chapter_files total_pages (title, (s, e)))))
        as (done & rest & -> & Hw & Hrest).
      cbn [printed written] in Hw, Hrest.
      exists ((title, (s, e)) :: done), rest.
      split; [reflexivity|]. cbn [flat_map].
      split; [now rewrite Hw, <- app_assoc|].
      destruct rest as [|[title' [s' e']] rest'].
      - now rewrite Hrest, <- !app_assoc.
      - destruct Hrest as (Hvalid & err & Hfs & Hp).
        split; [exact Hvalid|]. exists err.
        split; [now rewrite app_assoc|].
        now rewrite Hp, <- !app_assoc. }
    destruct (invalid_range total_pages s e) eqn:Ei; [now apply Hgo|].
    destruct (fs (written e0) (output_path title) (range (s - 1) e))
      as [err|] eqn:Efs; [|now apply Hgo].
    exists [], ((title, (s, e)) :: chapters).
    split; [reflexivity|]. cbn [flat_map]. rewrite app_nil_r.
    split; [reflexivity|]. split; [exact Ei|].
    exists err. split; [exact Efs|].
    unfold say. cbn [printed]. now rewrite <- app_assoc.
Qed.

(** When no write fails the loop goes through all the chapters. *)
Lemma split_chapters_all (fs : filesystem) (total_pages : nat)
    (pm : dict (Z * Z)) (chapters : dict (Z * Z)) (e0 : effects) :
  every_write_succeeds fs ->
  split_chapters fs total_pages pm chapters e0
  = mk_effects
      (printed e0 ++ flat_map (chapter_lines total_pages pm) chapters
       ++ [SplitComplete])
      (written e0 ++ flat_map (chapter_files total_pages) chapters).
Proof.
  intros Hfs. revert e0.
  induction chapters as [|item chapters IH]; intros e0.
  - cbn. unfold say. now rewrite app_nil_r.
  - cbn [split_chapters flat_map]. rewrite split_chapter_effects.
    destruct item as [title [s e]]. rewrite Hfs.
    destruct (invalid_range total_pages s e) eqn:Ei;
      rewrite IH; cbn [printed written]; now rewrite <- !app_assoc.
Qed.

(** C3, as the claim states it: every range that passes the validation is
    written as one output file. On a file system that takes names of 255
    characters at most, a first chapter with a title of 300 characters has
    a valid range and no file: [open] raises, the handler of the one [try]
    around the loop prints the error, and the loop is over. The second
    chapter, with a valid range, is not written either, and the third,
    with a range beyond the document, is not warned about. *)
Lemma split_stops_at_a_failed_write :
  invalid_range 45 27 43 = false
  /\ invalid_range 45 44 45 = false
  /\ invalid_range 45 44 64 = true
  /\ written (split_pdf_by_chapters short_names_only (Reader 45)
                [(("1 " ++ repeat_char "x" 300)%string, (27, 43)%Z);
                 ("2 Basics", (44, 45)%Z); ("3 More", (44, 64)%Z)] [])
     = []
  /\ exists err,
       printed (split_pdf_by_chapters short_names_only (Reader 45)
                  [(("1 " ++ repeat_char "x" 300)%string, (27, 43)%Z);
                   ("2 Basics", (44, 45)%Z); ("3 More", (44, 64)%Z)] [])
       = [SplitStarting; SplitTotalPages 45; SplitError err;
          SplitErrorHint].
Proof.
  repeat (split; [vm_compute; reflexivity|]).
  eexists. vm_compute. reflexivity.
Qed.

(** C3, amended: a chapter whose range has [file_start < 1], [file_end]
    beyond the number of pages, or [file_start > file_end] is passed over
    with the two warning lines and writes nothing, and the loop goes on
    with the next chapter; every other chapter that the loop reaches
    writes one file, made of the pages [file_start .. file_end], all of
    which exist. The loop reaches the chapters in order, up to the end or
    up to the first chapter with a valid range whose file cannot be
    written: the error is printed, and the chapters after it are neither
    written nor warned about. When no write fails every chapter is
    reached. *)
Theorem split_skips_invalid_and_continues (fs : filesystem)
    (total_pages : nat) (chapters printed_ranges : dict (Z * Z)) :
  let e := split_pdf_by_chapters fs (Reader total_pages) chapters
             printed_ranges in
  let lines := fun '(title, (file_start, file_end)) =>
    if invalid_range total_pages file_start file_end
    then [SplitWarningSkipping title file_start file_end;
          SplitWarningTotal total_pages]
    else [SplitCreated (output_path title) file_start file_end
            (dict_get title printed_ranges)] in
  let files := fun '(title, (file_start, file_end)) =>
    if invalid_range total_pages file_start file_end then []
    else [(output_path title, range (file_start - 1) file_end)] in
  (exists reached rest,
      chapters = reached ++ rest
      /\ written e = flat_map files reached
      /\ match rest with
         | [] =>
             printed e = [SplitStarting; SplitTotalPages total_pages]
                         ++ flat_map lines reached ++ [SplitComplete]
         | (title, (file_start, file_end)) :: _ =>
             invalid_range total_pages file_start file_end = false
             /\ exists err,
                  fs (flat_map files reached) (output_path title)
                     (range (file_start - 1) file_end) = Some err
                  /\ printed e
                     = [SplitStarting; SplitTotalPages total_pages]
                       ++ flat_map lines reached
                       ++ [SplitError err; SplitErrorHint]
         end)
  /\ (every_write_succeeds fs ->
      printed e = [SplitStarting; SplitTotalPages total_pages]
                  ++ flat_map lines chapters ++ [SplitComplete]
      /\ written e = flat_map files chapters)
  /\ (forall file_start file_end,
        invalid_range total_pages file_start file_end = true
        <-> (file_start < 1 \/ Z.of_nat total_pages < file_end
             \/ file_end < file_start)%Z)
  /\ (forall file_start file_end,
        invalid_range total_pages file_start file_end = false ->
        List.length (range (file_start - 1) file_end)
        = Z.to_nat (file_end - file_start + 1)
        /\ forall i, In i (range (file_start - 1) file_end) ->
                     (0 <= i < Z.of_nat total_pages)%Z).
Proof.
  cbv zeta. unfold split_pdf_by_chapters.
  split; [|split; [|split]].
  - destruct (split_chapters_spec fs total_pages printed_ranges chapters
                (say (SplitTotalPages total_pages)
                     (say SplitStarting no_effects)))
      as (reached & rest & Hsplit & Hw & Hrest).
    exists reached, rest. split; [exact Hsplit|].
    split; [exact Hw|].
    destruct rest as [|[title [s e]] rest']; [exact Hrest|].
    exact Hrest.
  - intros Hfs. rewrite (split_chapters_all _ _ _ _ _ Hfs).
    split; reflexivity.
  - apply invalid_range_spec.
  - intros file_start file_end Hvalid. split.
    + rewrite range_length. f_equal. lia.
    + intros i Hi. apply in_range_iff in Hi.
      apply valid_range_spec in Hvalid. lia.
Qed.

(** A run over three chapters, the second out of bounds, on a file system
    that writes every file. *)
Lemma split_skips_invalid_and_continues_witness :
  written (split_pdf_by_chapters writable (Reader 45)
             [("1 Introduction", (27, 43)%Z); ("2 Basics", (44, 64)%Z);
              ("3 More", (44, 45)%Z)] [])
  = [("chapters_output/1_Introduction.pdf", range 26 43);
     ("chapters_output/3_More.pdf", range 43 45)].
Proof.
  assert (Hfs : every_write_succeeds writable) by (intros ? ? ?; reflexivity).
  rewrite (proj2 (proj1 (proj2 (split_skips_invalid_and_continues writable
     45 [("1 Introduction", (27, 43)%Z); ("2 Basics", (44, 64)%Z);
         ("3 More", (44, 45)%Z)] [])) Hfs)).
  reflexivity.
Defined.
(** ** The scanner *)

Section ScannerFacts.
Context `{SizeNum}.

Lemma counter_incr_not_nil (x : num) (c : list (num * nat)) :
  counter_incr x c <> [].
Proof. destruct c as [|[k n] r]; simpl; [|destruct (num_eqb k x)]; discriminate. Qed.

Lemma counter_fold_not_nil (xs : list num) (c : list (num * nat)) :
  c <> [] -> fold_left (fun c x => counter_incr x c) xs c <> [].
Proof.
  revert c. induction xs as [|x xs IH]; intros c Hc; simpl; auto.
  apply IH, counter_incr_not_nil.
Qed.

Lemma Counter_nil_iff (xs : list num) : Counter xs = [] <-> xs = [].
Proof.
  split; [|intros ->; reflexivity].
  destruct xs as [|x xs]; auto. unfold Counter. cbn [fold_left]. intros E.
  now apply counter_fold_not_nil in E; [|apply counter_incr_not_nil].
Qed.

(** With a sized word on the page there is a baseline size. *)
Lemma most_common1_ok (xs : list num) :
  xs <> [] -> exists b, most_common1 (Counter xs) = Ok b.
Proof.
  intros Hx. destruct (Counter xs) as [|it r] eqn:E.
  - now apply Counter_nil_iff in E.
  - simpl. eauto.
Qed.

Lemma page_large_blocks_unsized (p : page) :
  sized_words (page_words p) = [] -> page_large_blocks p = [].
Proof. unfold page_large_blocks. intros ->. reflexivity. Qed.

(** The body of the loop never raises; it passes over the page without a
    sized word and otherwise makes the two checks. *)
Lemma inspect_spec (search_key page_number_key : string) (p : page) :
  inspect search_key page_number_key p =
  Ok (if is_nil (sized_words (page_words p)) then Skip
      else Checked (title_check search_key p)
                   (number_check page_number_key p)).
Proof.
  unfold inspect, title_check, number_check, page_large_blocks.
  destruct (page_words p) as [|w ws] eqn:Ew; [reflexivity|].
  cbn [is_nil].
  destruct (sized_words (w :: ws)) as [|sw sws] eqn:Es; [reflexivity|].
  cbn [is_nil].
  destruct (most_common1_ok (map (fun w => round1 (snd w)) (sw :: sws)))
    as [b Hb]; [discriminate|].
  rewrite Hb. reflexivity.
Qed.

Lemma title_check_unsized (search_key : string) (p : page) :
  is_nil (sized_words (page_words p)) = true ->
  title_check search_key p = false.
Proof.
  unfold title_check. intros E.
  rewrite page_large_blocks_unsized; [reflexivity|].
  now destruct (sized_words (page_words p)).
Qed.

(** The loop returns at the first index whose page passes both checks. *)
Lemma scan_pages_result (pages : list page)
    (search_key page_number_key : string) (printed_start_page : Z)
    (indices : list nat) :
  (forall i, In i indices -> (i < List.length pages)%nat) ->
  forall first_page_checked,
  snd (scan_pages pages search_key page_number_key printed_start_page
         first_page_checked indices)
  = option_map
      (fun i => ((Z.of_nat i + 1 - printed_start_page)%Z,
                 (Z.of_nat i + 1)%Z))
      (find (qualifies_at pages search_key page_number_key) indices).
Proof.
  induction indices as [|i rest IH]; intros Hin first; [reflexivity|].
  cbn [scan_pages find]. unfold qualifies_at at 1.
  destruct (nth_error pages i) as [p|] eqn:Ep.
  2:{ apply nth_error_None in Ep. specialize (Hin i (or_introl eq_refl)). lia. }
  rewrite inspect_spec. unfold qualifies.
  specialize (IH (fun j Hj => Hin j (or_intror Hj)) false).
  destruct (scan_pages pages search_key page_number_key printed_start_page
              false rest) as [out' r] eqn:Er. cbn [snd] in IH.
  destruct (is_nil (sized_words (page_words p))) eqn:En.
  - rewrite (title_check_unsized _ _ En). cbn. exact IH.
  - destruct (title_check search_key p), (number_check page_number_key p);
      cbn; auto.
Qed.

(** The loop looks at no page outside the indices it is given. *)
Lemma scan_pages_ext (pages pages' : list page)
    (search_key page_number_key : string) (printed_start_page : Z)
    (indices : list nat) :
  (forall i, In i (pages_inspected pages search_key page_number_key indices)
             -> nth_error pages' i = nth_error pages i) ->
  forall first_page_checked,
  scan_pages pages' search_key page_number_key printed_start_page
    first_page_checked indices
  = scan_pages pages search_key page_number_key printed_start_page
      first_page_checked indices.
Proof.
  induction indices as [|i rest IH]; intros Hsame first; [reflexivity|].
  cbn [scan_pages]. cbn [pages_inspected] in Hsame.
  rewrite (Hsame i (or_introl eq_refl)).
  destruct (nth_error pages i) as [p|]; [|reflexivity].
  destruct (inspect search_key page_number_key p) as [[|[|] [|]]|e];
    try reflexivity;
    rewrite IH; auto; intros j Hj; apply Hsame; right; exact Hj.
Qed.

Lemma pages_inspected_incl (pages : list page)
    (search_key page_number_key : string) (indices : list nat) :
  exists later,
    indices = pages_inspected pages search_key page_number_key indices
              ++ later.
Proof.
  induction indices as [|i rest [later IH]]; [now exists []|].
  cbn [pages_inspected].
  destruct (nth_error pages i) as [p|]; [|now exists rest].
  destruct (inspect search_key page_number_key p) as [[|[|] [|]]|e];
    try (now exists rest);
    exists later; cbn; now rewrite <- IH.
Qed.

(** When no page passes both checks the loop ends on the failure line. *)
Lemma scan_pages_failed (pages : list page)
    (search_key page_number_key : string) (printed_start_page : Z)
    (indices : list nat) :
  (forall i, In i indices -> (i < List.length pages)%nat) ->
  (forall i, In i indices ->
             qualifies_at pages search_key page_number_key i = false) ->
  forall first_page_checked,
  exists out,
    scan_pages pages search_key page_number_key printed_start_page
      first_page_checked indices = (out ++ [ScanFailed], None).
Proof.
  induction indices as [|i rest IH]; intros Hin Hq first.
  - now exists [].
  - cbn [scan_pages].
    pose proof (Hq i (or_introl eq_refl)) as Hqi. unfold qualifies_at in Hqi.
    destruct (nth_error pages i) as [p|] eqn:Ep.
    2:{ apply nth_error_None in Ep. specialize (Hin i (or_introl eq_refl)). lia. }
    destruct (IH (fun j Hj => Hin j (or_intror Hj))
                 (fun j Hj => Hq j (or_intror Hj)) false) as [out' Hout].
    rewrite Hout, inspect_spec. unfold qualifies in Hqi.
    destruct (is_nil (sized_words (page_words p))).
    + eexists. rewrite !app_assoc. reflexivity.
    + destruct (title_check search_key p), (number_check page_number_key p);
        try discriminate; eexists; rewrite !app_assoc; reflexivity.
Qed.

Lemma scan_window_spec (total_pages : nat) (toc_end_file_page : Z) (i : nat) :
  In i (scan_window total_pages toc_end_file_page)
  <-> (Z.max 0 toc_end_file_page <= Z.of_nat i
       < Z.max 0 toc_end_file_page + 50
       /\ Z.of_nat i < Z.of_nat total_pages)%Z.
Proof. unfold scan_window. rewrite in_seq. lia. Qed.

Lemma scan_window_length (total_pages : nat) (toc_end_file_page : Z) :
  (List.length (scan_window total_pages toc_end_file_page) <= 50)%nat.
Proof. unfold scan_window. rewrite length_seq. lia. Qed.

End ScannerFacts.








(** C6: the scan visits the indices of a window that starts right after the
    last page of the table of contents and holds at most 50 pages, none
    beyond the end of the document; the pages it inspects are the first
    ones of that window, at most 50, and the outcome is the same for any
    document that agrees with this one on them; when no page of the window
    passes both checks the scan returns [None] and, with a usable title,
    ends on the failure line. *)
Theorem scan_stays_in_bounded_window `{SizeNum} (pages : list page)
    (chapter_title : string) (printed_start_page toc_end_file_page : Z) :
  let search_key := make_search_key (clean_chapter_title chapter_title) in
  let page_number_key := str_of_Z printed_start_page in
  let window := scan_window (List.length pages) toc_end_file_page in
  let inspected :=
    pages_inspected pages search_key page_number_key window in
  (forall i : nat,
      In i window
      <-> (Z.max 0 toc_end_file_page <= Z.of_nat i
           < Z.max 0 toc_end_file_page + 50
           /\ Z.of_nat i < Z.of_nat (List.length pages))%Z)
  /\ (exists later, window = inspected ++ later)
  /\ (List.length inspected <= 50)%nat
  /\ (forall pages' : list page,
         List.length pages' = List.length pages ->
         (forall i, In i inspected ->
                    nth_error pages' i = nth_error pages i) ->
         find_offset_by_title_scan true (Opened pages') chapter_title
           printed_start_page toc_end_file_page
         = find_offset_by_title_scan true (Opened pages) chapter_title
             printed_start_page toc_end_file_page)
  /\ ((forall i, In i window ->
                 qualifies_at pages search_key page_number_key i = false) ->
      snd (find_offset_by_title_scan true (Opened pages) chapter_title
             printed_start_page toc_end_file_page) = None
      /\ (is_empty (clean_chapter_title chapter_title) = false ->
          exists out,
            fst (find_offset_by_title_scan true (Opened pages) chapter_title
                   printed_start_page toc_end_file_page)
            = out ++ [ScanFailed])).
Proof.
  intros search_key page_number_key window inspected.
  assert (Hprefix : exists later, window = inspected ++ later)
    by apply pages_inspected_incl.
  assert (Hbound : forall i, In i window -> (i < List.length pages)%nat).
  { intros i Hi. apply scan_window_spec in Hi. lia. }
  split; [intros i; apply scan_window_spec|].
  split; [exact Hprefix|].
  split.
  { destruct Hprefix as [later E].
    pose proof (scan_window_length (List.length pages) toc_end_file_page)
      as Hlen.
    fold window in Hlen. rewrite E, length_app in Hlen. lia. }
  split.
  { intros pages' Hlen Hsame. unfold find_offset_by_title_scan.
    cbn [negb]. destruct (is_empty (clean_chapter_title chapter_title));
      [reflexivity|].
    rewrite Hlen. fold search_key page_number_key window.
    now rewrite (scan_pages_ext pages pages'). }
  intros Hnone.
  destruct (scan_pages_failed pages search_key page_number_key
              printed_start_page window Hbound Hnone true) as [out Hout].
  unfold find_offset_by_title_scan. cbn [negb].
  destruct (is_empty (clean_chapter_title chapter_title)) eqn:Hclean.
  - split; [reflexivity|discriminate].
  - fold search_key page_number_key window. rewrite Hout. cbn [fst snd].
    split; [reflexivity|]. intros _.
    now exists (ScanStarting
                :: ScanSearching search_key page_number_key
                     (Z.of_nat (Z.to_nat (Z.max 0 toc_end_file_page)) + 1)
                :: out).
Qed.

(** The small book cut after its part title: the window runs from file
    page 9 to file page 20, no page of it passes both checks, and the scan
    returns [None]. *)
Lemma scan_stays_in_bounded_window_witness :
  snd (find_offset_by_title_scan true (Opened (firstn 20 Example.book))
         "1 Introduction" 3 8) = None
  /\ (is_empty (clean_chapter_title "1 Introduction") = false ->
      exists out,
        fst (find_offset_by_title_scan true
               (Opened (firstn 20 Example.book)) "1 Introduction" 3 8)
        = out ++ [ScanFailed]).
Proof.
  apply (proj2 (proj2 (proj2 (proj2
           (scan_stays_in_bounded_window (firstn 20 Example.book)
              "1 Introduction" 3 8))))).
  intros i Hi. apply scan_window_spec in Hi.
  assert (Hcases : (i = 8 \/ i = 9 \/ i = 10 \/ i = 11 \/ i = 12 \/ i = 13
                    \/ i = 14 \/ i = 15 \/ i = 16 \/ i = 17 \/ i = 18
                    \/ i = 19)%nat)
    by (cbn in Hi; lia).
  repeat (destruct Hcases as [->|Hcases]; [vm_compute; reflexivity|]).
  subst i. vm_compute. reflexivity.
Defined.
(** ** Baseline size and large blocks *)

Lemma ForallOrdPairs_snoc {A} (R : A -> A -> Prop) (l : list A) (x : A) :
  ForallOrdPairs R l -> Forall (fun y => R y x) l ->
  ForallOrdPairs R (l ++ [x]).
Proof.
  induction 1 as [|a l Ha Hl IH]; intros Hx; simpl.
  - constructor; constructor.
  - inversion Hx; subst. constructor.
    + apply Forall_app. split; auto.
    + apply IH. assumption.
Qed.

Section BaselineFacts.
Context `{SizeNum}.
Hypothesis Hequiv : key_partial_equivalence.

Lemma occurrences_app (x : num) (xs ys : list num) :
  occurrences x (xs ++ ys) = (occurrences x xs + occurrences x ys)%nat.
Proof. unfold occurrences. now rewrite filter_app, length_app. Qed.

Lemma occurrences_pos (x : num) (xs : list num) :
  (0 < occurrences x xs)%nat <-> exists y, In y xs /\ num_eqb x y = true.
Proof.
  unfold occurrences. split.
  - destruct (filter (num_eqb x) xs) as [|y l] eqn:E; simpl; [lia|].
    intros _. exists y. apply filter_In. rewrite E. now left.
  - intros (y & Hy & Hxy).
    assert (Hin : In y (filter (num_eqb x) xs)) by now apply filter_In.
    destruct (filter (num_eqb x) xs); [contradiction|simpl; lia].
Qed.

Lemma occurrences_equiv (x y : num) (xs : list num) :
  num_eqb x y = true -> occurrences x xs = occurrences y xs.
Proof.
  destruct Hequiv as (Hsym & Htrans).
  intros Hxy. unfold occurrences. f_equal. apply filter_ext. intros z.
  destruct (num_eqb x z) eqn:Exz, (num_eqb y z) eqn:Eyz; auto.
  - rewrite (Htrans y x z) in Eyz; auto.
  - rewrite (Htrans x y z) in Exz; auto.
Qed.

(** Where [counter_incr] puts [x]: on the first key equal to it, or at the
    end when there is none. *)
Lemma counter_incr_cases (x : num) (c : list (num * nat)) :
  (exists c1 k n c2,
      c = c1 ++ (k, n) :: c2 /\ num_eqb k x = true
      /\ Forall (fun it => num_eqb (fst it) x = false) c1
      /\ counter_incr x c = c1 ++ (k, S n) :: c2)
  \/ (Forall (fun it => num_eqb (fst it) x = false) c
      /\ counter_incr x c = c ++ [(x, 1%nat)]).
Proof.
  induction c as [|[k n] r IH]; cbn [counter_incr].
  - right. split; [constructor|reflexivity].
  - destruct (num_eqb k x) eqn:Ek.
    + left. exists [], k, n, r. repeat split; auto.
    + destruct IH as [(c1 & k' & n' & c2 & -> & Hk' & Hc1 & ->)|[Hall ->]].
      * left. exists ((k, n) :: c1), k', n', c2. repeat split; auto.
      * right. split; [constructor; auto|reflexivity].
Qed.

Lemma counter_incr_counts (x : num) (c : list (num * nat))
    (seen : list num) :
  self_equal x ->
  counter_of c seen -> counter_of (counter_incr x c) (seen ++ [x]).
Proof.
  destruct Hequiv as (Hsym & Htrans).
  intros Hrefl (Hcount & Hkey & Hdistinct). unfold self_equal in Hrefl.
  assert (Hone : occurrences x [x] = 1%nat)
    by (unfold occurrences; simpl; now rewrite Hrefl).
  assert (Hmiss : forall k, num_eqb k x = false ->
                            occurrences k (seen ++ [x]) = occurrences k seen).
  { intros k Hk. rewrite occurrences_app. unfold occurrences at 2.
    simpl. rewrite Hk. simpl. lia. }
  assert (Hhit : forall k, num_eqb k x = true ->
                   occurrences k (seen ++ [x]) = S (occurrences k seen)).
  { intros k Hk. rewrite occurrences_app. unfold occurrences at 2.
    simpl. rewrite Hk. simpl. lia. }
  destruct (counter_incr_cases x c)
    as [(c1 & k & n & c2 & -> & Hk & Hc1 & ->)|[Hall ->]].
  - (* an existing key takes [x] *)
    assert (Hc2 : Forall (fun it => num_eqb (fst it) x = false) c2).
    { rewrite map_app in Hdistinct. cbn [map] in Hdistinct.
      apply Forall_forall. intros [k' n'] Hin. cbn [fst].
      destruct (num_eqb k' x) eqn:Ek'; auto.
      assert (Hkk' : num_eqb k k' = true) by eauto.
      clear - Hdistinct Hin Hkk'.
      induction c1 as [|a c1 IH]; cbn [app map] in Hdistinct.
      - inversion Hdistinct as [|? ? Hhd _]; subst.
        rewrite Forall_forall in Hhd.
        specialize (Hhd k' (in_map fst _ _ Hin)). cbn in Hhd. congruence.
      - inversion Hdistinct; subst. auto. }
    repeat split.
    + apply in_app_iff in H0 as [Hin|[[= <- <-]|Hin]].
      * apply in_app_iff. left.
        apply (Hcount k0 n0). apply in_app_iff. now left.
      * apply in_app_iff. left.
        apply (Hcount k n). apply in_app_iff. right. now left.
      * apply in_app_iff. left.
        apply (Hcount k0 n0). apply in_app_iff. right. now right.
    + apply in_app_iff in H0 as [Hin|[[= <- <-]|Hin]].
      * rewrite Forall_forall in Hc1. rewrite (Hmiss k0 (Hc1 _ Hin)).
        apply (Hcount k0 n0). apply in_app_iff. now left.
      * rewrite (Hhit k Hk). f_equal.
        apply (Hcount k n). apply in_app_iff. right. now left.
      * rewrite Forall_forall in Hc2. rewrite (Hmiss k0 (Hc2 _ Hin)).
        apply (Hcount k0 n0). apply in_app_iff. right. now right.
    + intros y Hy. apply in_app_iff in Hy as [Hy|[<-|[]]].
      * destruct (Hkey y Hy) as (k' & n' & Hin & Hk').
        apply in_app_iff in Hin as [Hin|[[= <- <-]|Hin]].
        -- exists k', n'. split; auto. apply in_app_iff. now left.
        -- exists k, (S n). split; auto. apply in_app_iff. right. now left.
        -- exists k', n'. split; auto. apply in_app_iff. right. now right.
      * exists k, (S n). split; auto. apply in_app_iff. right. now left.
    + rewrite map_app in *. exact Hdistinct.
  - (* a new key *)
    rewrite Forall_forall in Hall.
    assert (Hnew : occurrences x seen = 0%nat).
    { destruct (occurrences x seen) eqn:E; auto.
      assert (Hpos : (0 < occurrences x seen)%nat) by lia.
      apply occurrences_pos in Hpos as (y & Hy & Hxy).
      destruct (Hkey y Hy) as (k & n' & Hin & Hk).
      specialize (Hall _ Hin). cbn in Hall.
      rewrite (Htrans k y x) in Hall; auto; discriminate. }
    repeat split.
    + apply in_app_iff in H0 as [Hin|[[= <- <-]|[]]].
      * apply in_app_iff. left. now apply (Hcount k n).
      * apply in_app_iff. right. now left.
    + apply in_app_iff in H0 as [Hin|[[= <- <-]|[]]].
      * rewrite (Hmiss k (Hall _ Hin)). now apply (Hcount k n).
      * rewrite (Hhit x Hrefl). now rewrite Hnew.
    + intros y Hy. apply in_app_iff in Hy as [Hy|[<-|[]]].
      * destruct (Hkey y Hy) as (k & n & Hin & Hk).
        exists k, n. split; auto. apply in_app_iff. now left.
      * exists x, 1%nat. split; auto. apply in_app_iff. right. now left.
    + rewrite map_app. apply ForallOrdPairs_snoc; auto.
      apply Forall_forall. intros k Hin.
      apply in_map_iff in Hin as (it & <- & Hin). now apply Hall.
Qed.

Lemma counter_fold_counts (xs seen : list num) (c : list (num * nat)) :
  Forall self_equal xs ->
  counter_of c seen ->
  counter_of (fold_left (fun c x => counter_incr x c) xs c) (seen ++ xs).
Proof.
  revert c seen. induction xs as [|x xs IH]; intros c seen Hxs Hc.
  - now rewrite app_nil_r.
  - inversion Hxs as [|? ? Hx Hrest]; subst. cbn [fold_left].
    replace (seen ++ x :: xs) with ((seen ++ [x]) ++ xs)
      by now rewrite <- app_assoc.
    apply IH; [exact Hrest|]. now apply counter_incr_counts.
Qed.

Lemma Counter_counts (xs : list num) :
  Forall self_equal xs -> counter_of (Counter xs) xs.
Proof.
  intros Hxs. apply (counter_fold_counts xs [] [] Hxs).
  repeat split; try contradiction. constructor.
Qed.

Lemma max_by_count_spec (items : list (num * nat)) (best : num * nat) :
  In (max_by_count best items) (best :: items)
  /\ forall it, In it (best :: items) ->
                (snd it <= snd (max_by_count best items))%nat.
Proof.
  revert best. induction items as [|a items IH]; intros best.
  - cbn. split; auto. intros it [<-|[]]. lia.
  - cbn [max_by_count].
    destruct (IH (if Nat.ltb (snd best) (snd a) then a else best))
      as [Hin Hmax].
    split.
    + destruct Hin as [E|Hin]; [|right; now right].
      rewrite <- E. destruct (Nat.ltb (snd best) (snd a)); cbn; auto.
    + intros it [<-|[<-|Hit]].
      * specialize (Hmax _ (or_introl eq_refl)).
        destruct (Nat.ltb (snd best) (snd a)) eqn:E; cbn in Hmax;
          [apply Nat.ltb_lt in E|]; lia.
      * specialize (Hmax _ (or_introl eq_refl)).
        destruct (Nat.ltb (snd best) (snd a)) eqn:E; cbn in Hmax;
          [|apply Nat.ltb_ge in E]; lia.
      * apply Hmax. now right.
Qed.

(** The baseline is a mode: one of the sizes, and no size occurs more
    often. *)
Lemma most_common1_mode (xs : list num) (b : num) :
  Forall self_equal xs ->
  most_common1 (Counter xs) = Ok b ->
  In b xs /\ forall x, (occurrences x xs <= occurrences b xs)%nat.
Proof.
  destruct Hequiv as (Hsym & Htrans). intros Hxs.
  destruct (Counter_counts xs Hxs) as (Hcount & Hkey & _).
  unfold most_common1. destruct (Counter xs) as [|it r]; [discriminate|].
  intros [= <-].
  destruct (max_by_count_spec r it) as [Hin Hmax].
  destruct (max_by_count it r) as [b nb]. cbn [fst snd] in *.
  destruct (Hcount b nb Hin) as [Hb ->].
  split; auto. intros x.
  destruct (occurrences x xs) eqn:E; [lia|]. rewrite <- E.
  assert (Hpos : (0 < occurrences x xs)%nat) by lia.
  apply occurrences_pos in Hpos as (y & Hy & Hxy).
  destruct (Hkey y Hy) as (k & n' & Hk & Hky).
  rewrite (occurrences_equiv x k) by eauto.
  destruct (Hcount k n' Hk) as [_ <-].
  apply (Hmax (k, n')). exact Hk.
Qed.

End BaselineFacts.
Lemma string_app_assoc (a b c : string) :
  ((a ++ b) ++ c = a ++ b ++ c)%string.
Proof. induction a as [|x a IH]; cbn; [reflexivity|now rewrite IH]. Qed.

Section BlockFacts.
Context {A : Type} (large : A -> bool).

Lemma large_prefix_unique (run run' ws ws' : list A) :
  run ++ ws = run' ++ ws' ->
  forallb large run = true -> forallb large run' = true ->
  match ws with [] => True | w :: _ => large w = false end ->
  match ws' with [] => True | w :: _ => large w = false end ->
  run = run' /\ ws = ws'.
Proof.
  revert run'. induction run as [|a run IH]; intros [|a' run'] E Hl Hl' Hw Hw';
    cbn in *.
  - auto.
  - subst ws. apply andb_true_iff in Hl' as [Ha _]. congruence.
  - subst ws'. apply andb_true_iff in Hl as [Ha _]. congruence.
  - injection E as <- E.
    apply andb_true_iff in Hl as [_ Hl]. apply andb_true_iff in Hl' as [_ Hl'].
    destruct (IH run' E Hl Hl' Hw Hw') as [-> ->]. auto.
Qed.

(** The maximal runs of a list are determined by the list. *)
Lemma maximal_runs_unique (ws : list A) (r1 r2 : list (list A)) :
  maximal_runs large ws r1 -> maximal_runs large ws r2 -> r1 = r2.
Proof.
  intros H1. revert r2.
  induction H1 as [|w ws runs Hw _ IH|run ws runs Hne Hl Hnext _ IH];
    intros r2 H2.
  - remember (@nil A) as l eqn:El.
    destruct H2 as [|w' ws' runs' Hw' H2'|run' ws' runs' Hne' Hl' Hnext' H2'];
      [reflexivity|discriminate|].
    destruct run'; [contradiction|discriminate].
  - remember (w :: ws) as l eqn:El.
    destruct H2 as [|w' ws' runs' Hw' H2'|run' ws' runs' Hne' Hl' Hnext' H2'].
    + discriminate.
    + injection El as -> ->. apply IH, H2'.
    + destruct run' as [|a run']; [contradiction|].
      cbn in El, Hl'. injection El as -> _.
      apply andb_true_iff in Hl' as [Ha _]. congruence.
  - remember (run ++ ws) as l eqn:El.
    destruct H2 as [|w' ws' runs' Hw' H2'|run' ws' runs' Hne' Hl' Hnext' H2'].
    + destruct run; [contradiction|discriminate].
    + destruct run as [|a run]; [contradiction|].
      cbn in El, Hl. injection El as -> _.
      apply andb_true_iff in Hl as [Ha _]. congruence.
    + destruct (large_prefix_unique run' run ws' ws El Hl' Hl Hnext' Hnext)
        as [-> ->].
      f_equal. apply IH, H2'.
Qed.
End BlockFacts.

Section LargeBlocks.
Context `{SizeNum}.

(** The text gathered in [current_block] from the words of [run]. *)
Lemma pending_snoc (run : list (string * num)) (w : string * num) :
  fold_right (fun w acc => (fst w ++ " " ++ acc)%string) EmptyString
             (run ++ [w])
  = (fold_right (fun w acc => (fst w ++ " " ++ acc)%string) EmptyString run
     ++ fst w ++ " ")%string.
Proof.
  induction run as [|a run IH]; cbn [app fold_right].
  - cbn. reflexivity.
  - rewrite IH.
    rewrite !string_app_assoc. reflexivity.
Qed.

Lemma pending_not_empty (a : string * num) (run : list (string * num)) :
  is_empty (fold_right (fun w acc => (fst w ++ " " ++ acc)%string)
                       EmptyString (a :: run)) = false.
Proof. cbn [fold_right]. destruct (fst a); reflexivity. Qed.

(** The loop over the sized words, started with the words of [pending]
    gathered in [current_block], closes one block per maximal run of large
    words. *)
Lemma large_blocks_loop (threshold : num) (ws pending : list (string * num))
    (blocks : list string) :
  forallb (is_large threshold) pending = true ->
  exists runs,
    maximal_runs (is_large threshold) (pending ++ ws) runs
    /\ (let '(bs, current_block) :=
          fold_left (block_step threshold) ws
            (blocks,
             fold_right (fun w acc => (fst w ++ " " ++ acc)%string)
                        EmptyString pending) in
        if negb (is_empty current_block)
        then bs ++ [strip current_block] else bs)
       = blocks ++ map block_text runs.
Proof.
  revert pending blocks.
  induction ws as [|w ws IH]; intros pending blocks Hp.
  - cbn [fold_left]. rewrite app_nil_r. destruct pending as [|a pending].
    + exists []. split; [constructor|]. cbn. now rewrite app_nil_r.
    + exists [a :: pending]. split.
      * rewrite <- (app_nil_r (a :: pending)) at 1.
        constructor; auto; [discriminate|constructor].
      * rewrite pending_not_empty. reflexivity.
  - cbn [fold_left]. unfold block_step at 2.
    destruct (is_large threshold w) eqn:Ew.
    + rewrite <- pending_snoc.
      destruct (IH (pending ++ [w]) blocks) as (runs & Hruns & Eq).
      { rewrite forallb_app, Hp. cbn. now rewrite Ew. }
      exists runs. split; [|exact Eq].
      now rewrite <- app_assoc in Hruns.
    + destruct pending as [|a pending].
      * cbn [fold_right is_empty negb].
        destruct (IH [] blocks eq_refl) as (runs & Hruns & Eq).
        exists runs. split; [|exact Eq].
        cbn [app] in *. now constructor.
      * rewrite pending_not_empty. cbn [negb].
        destruct (IH [] (blocks ++ [strip
                     (fold_right
                        (fun w acc => (fst w ++ " " ++ acc)%string)
                        EmptyString (a :: pending))]) eq_refl)
          as (runs & Hruns & Eq).
        exists ((a :: pending) :: runs). split.
        -- constructor; auto; [discriminate|].
           cbn [app] in Hruns. now constructor.
        -- cbn [fold_right] in Eq |- *. rewrite Eq.
           rewrite <- app_assoc. reflexivity.
Qed.

Lemma large_text_blocks_runs (threshold : num) (ws : list (string * num)) :
  exists runs,
    maximal_runs (is_large threshold) ws runs
    /\ large_text_blocks threshold ws = map block_text runs.
Proof.
  destruct (large_blocks_loop threshold ws [] [] eq_refl)
    as (runs & Hruns & Eq).
  exists runs. split; [exact Hruns|exact Eq].
Qed.

Lemma sized_words_spec (words : list word) (text : string) (size : num) :
  In (text, size) (sized_words words)
  <-> exists w, In w words /\ w_text w = text /\ w_size w = Some size.
Proof.
  unfold sized_words. rewrite in_flat_map. split.
  - intros (w & Hw & Hin). exists w. split; auto.
    destruct (w_size w); [|contradiction].
    destruct Hin as [[= <- <-]|[]]. auto.
  - intros (w & Hw & <- & Es). exists w. split; auto.
    rewrite Es. now left.
Qed.

End LargeBlocks.
(** ** Python floats *)

Lemma SFeqb_refl (x : float) :
  x <> S754_nan -> SFeqb x x = true.
Proof.
  unfold SFeqb, SFcompare. destruct x as [s|s| |s m e]; intros Hx.
  - reflexivity.
  - now destruct s.
  - contradiction.
  - rewrite Z.compare_refl, Pos.compare_cont_refl. now destruct s.
Qed.

(** Floats that are equal are two zeros or the same float. *)
Lemma SFeqb_true (x y : float) :
  SFeqb x y = true ->
  (exists s t, x = S754_zero s /\ y = S754_zero t)
  \/ (x = y /\ x <> S754_nan).
Proof.
  unfold SFeqb, SFcompare.
  destruct x as [s|s| |s m e], y as [t|t| |t n f]; intros Hc;
    try discriminate Hc;
    try (destruct s; discriminate Hc);
    try (destruct t; discriminate Hc).
  - left. now exists s, t.
  - right. destruct s, t; try discriminate Hc; split; congruence.
  - right.
    assert (He : e = f /\ m = n).
    { destruct s, t; try discriminate Hc;
        destruct (Z.compare e f) eqn:Ee; try discriminate Hc;
        apply Z.compare_eq in Ee;
        destruct (Pos.compare_cont Eq m n) eqn:Em; try discriminate Hc;
        apply Pos.compare_eq in Em; auto. }
    destruct He as [-> ->].
    destruct s, t; try discriminate Hc; split; congruence.
Qed.

Lemma PyFloat_key_partial_equivalence : @key_partial_equivalence PyFloat.
Proof.
  split; cbn.
  - intros x y Hxy.
    destruct (SFeqb_true x y Hxy) as [(s & t & -> & ->)|[<- Hx]];
      [reflexivity|now apply SFeqb_refl].
  - intros x y z Hxy Hyz.
    destruct (SFeqb_true x y Hxy) as [(s & t & -> & ->)|[<- Hx]];
      [|exact Hyz].
    destruct (SFeqb_true _ z Hyz) as [(s' & t' & _ & ->)|[<- _]];
      reflexivity.
Qed.

(** Rounding a mantissa that is not negative never gives NaN. *)
Lemma shr_1_nonneg (mrs : shr_record) :
  (0 <= shr_m mrs)%Z -> (0 <= shr_m (shr_1 mrs))%Z.
Proof.
  destruct mrs as [m r s]. cbn [shr_m shr_1].
  destruct m as [|q|q]; [cbn; lia|destruct q; cbn; lia|lia].
Qed.

Lemma iter_pos_invariant {A} (P : A -> Prop) (f : A -> A) :
  (forall x, P x -> P (f x)) ->
  forall n x, P x -> P (iter_pos f n x).
Proof.
  intros Hf. induction n as [n IH|n IH|]; intros x Hx; cbn [iter_pos]; auto.
Qed.

Lemma shr_fexp_nonneg (m e : Z) (l : location) :
  (0 <= m)%Z ->
  (0 <= shr_m (fst (shr_fexp float_prec float_emax m e l)))%Z.
Proof.
  intros Hm. unfold shr_fexp, shr.
  assert (H0 : (0 <= shr_m (shr_record_of_loc m l))%Z)
    by (destruct l as [|[]]; exact Hm).
  destruct (fexp float_prec float_emax (Zdigits2 m + e) - e)%Z as [|n|n];
    cbn [fst]; auto.
  now apply (iter_pos_invariant _ _ shr_1_nonneg).
Qed.

Lemma binary_round_aux_not_nan (s : bool) (mx ex : Z) (lx : location) :
  (0 <= mx)%Z ->
  binary_round_aux float_prec float_emax s mx ex lx <> S754_nan.
Proof.
  intros Hm. unfold binary_round_aux.
  pose proof (shr_fexp_nonneg mx ex lx Hm) as H1.
  destruct (shr_fexp float_prec float_emax mx ex lx) as [mrs' e'].
  cbn [fst] in H1.
  assert (H2 : (0 <= round_nearest_even (shr_m mrs')
                       (loc_of_shr_record mrs'))%Z).
  { unfold round_nearest_even.
    destruct (loc_of_shr_record mrs') as [|[]];
      try destruct (Z.even (shr_m mrs')); lia. }
  pose proof (shr_fexp_nonneg _ e' loc_Exact H2) as H3.
  destruct (shr_fexp float_prec float_emax
              (round_nearest_even (shr_m mrs') (loc_of_shr_record mrs'))
              e' loc_Exact) as [mrs'' e''].
  cbn [fst] in H3.
  destruct (shr_m mrs'') as [|q|q]; [discriminate| |lia].
  destruct (Z.leb e'' (float_emax - float_prec)); discriminate.
Qed.

Lemma nearest_float_not_nan (s : bool) (a b : positive) :
  nearest_float s a b <> S754_nan.
Proof.
  unfold nearest_float, SFdiv, SFdiv_core_binary.
  match goal with
  | |- context [Z.div_eucl ?n ?d] =>
      pose proof (Z.div_pos n d) as Hq;
      unfold Z.div in Hq; destruct (Z.div_eucl n d) as [q r];
      assert (Hn : (0 <= n)%Z)
  end.
  { match goal with
    | |- (0 <= match ?x with _ => _ end)%Z => destruct x
    end; try lia. apply Z.shiftl_nonneg. lia. }
  apply binary_round_aux_not_nan. apply Hq; [exact Hn|lia].
Qed.

(** [round(x, 1)] is NaN for NaN only. *)
Lemma py_round1_not_nan (x : float) :
  x <> S754_nan -> py_round1 x <> S754_nan.
Proof.
  destruct x as [s|s| |s m e]; cbn [py_round1]; auto.
  intros _. destruct (round_half_even (magnitude m e * 10));
    [discriminate|apply nearest_float_not_nan|discriminate].
Qed.

(** ** The baseline and the large words of a page *)

(** On a page whose sizes are numbers, whatever the arithmetic: the
    baseline is a mode of the rounded sizes and the blocks are the
    maximal runs of large words. *)
Lemma page_blocks_are_large_runs `{SizeNum}
    (search_key page_number_key : string) (p : page) :
  key_partial_equivalence ->
  Forall self_equal
         (map (fun w => round1 (snd w)) (sized_words (page_words p))) ->
  sized_words (page_words p) <> [] ->
  exists (baseline : num) (runs : list (list (string * num))),
    most_common1
      (Counter (map (fun w => round1 (snd w)) (sized_words (page_words p))))
    = Ok baseline
    /\ In baseline
          (map (fun w => round1 (snd w)) (sized_words (page_words p)))
    /\ (forall x,
           (occurrences x (map (fun w => round1 (snd w))
                               (sized_words (page_words p)))
            <= occurrences baseline
                 (map (fun w => round1 (snd w))
                      (sized_words (page_words p))))%nat)
    /\ maximal_runs (is_large (times_1_5 baseline))
                    (sized_words (page_words p)) runs
    /\ (forall runs',
           maximal_runs (is_large (times_1_5 baseline))
                        (sized_words (page_words p)) runs' ->
           runs' = runs)
    /\ page_large_blocks p = map block_text runs
    /\ inspect search_key page_number_key p
       = Ok (Checked (title_in_blocks search_key (map block_text runs))
                     (contains page_number_key (page_text p))).
Proof.
  intros Hequiv Hself Hs.
  set (sized := sized_words (page_words p)) in *.
  set (sizes := map (fun w => round1 (snd w)) sized) in *.
  destruct (most_common1_ok sizes) as [baseline Hb].
  { unfold sizes. destruct sized; [contradiction|discriminate]. }
  destruct (most_common1_mode Hequiv sizes baseline Hself Hb)
    as [Hin Hmode].
  destruct (large_text_blocks_runs (times_1_5 baseline) sized)
    as (runs & Hruns & Hblocks).
  assert (Hpage : page_large_blocks p = map block_text runs).
  { unfold page_large_blocks. fold sized sizes. now rewrite Hb. }
  exists baseline, runs.
  split; [exact Hb|]. split; [exact Hin|]. split; [exact Hmode|].
  split; [exact Hruns|]. split.
  - intros runs' Hruns'.
    exact (maximal_runs_unique _ _ _ _ Hruns' Hruns).
  - split; [exact Hpage|].
    rewrite inspect_spec. fold sized.
    destruct sized; [contradiction|]. cbn [is_nil].
    unfold title_check, number_check. now rewrite Hpage.
Qed.

(** A page without a sized word is passed over. *)
Lemma page_without_sizes_is_skipped `{SizeNum}
    (search_key page_number_key : string) (p : page) :
  sized_words (page_words p) = [] ->
  inspect search_key page_number_key p = Ok Skip
  /\ forall pages i rest printed_start_page first_page_checked,
       nth_error pages i = Some p ->
       snd (scan_pages pages search_key page_number_key
              printed_start_page first_page_checked (i :: rest))
       = snd (scan_pages pages search_key page_number_key
                printed_start_page false rest).
Proof.
  intros Hs. split.
  - rewrite inspect_spec. now rewrite Hs.
  - intros pages i rest printed_start_page first Ep.
    cbn [scan_pages]. rewrite Ep, inspect_spec, Hs. cbn [is_nil].
    destruct (scan_pages pages search_key page_number_key
                printed_start_page false rest). reflexivity.
Qed.

(** C7, as the claim states it: a word would be large exactly when its
    rounded size is at least 1.5 times the baseline. It is not so. On a
    page set in 9.4 points a word of 14.1 points is not large, though 14.1
    is 1.5 times 9.4: the float product [9.4 * 1.5] is 14.100000000000001.
    On a page set in 3.4 points a word of 5.1 points is large, though the
    float 5.1 is less than 1.5 times the float 3.4: the product is rounded
    down to 5.1. *)
Lemma large_is_not_one_and_a_half_times_the_baseline :
  (page_large_blocks (Example.titled 141 94) = []
   /\ py_round1 (nearest_float false 141 10) = nearest_float false 141 10
   /\ most_common1
        (Counter (map (fun w => py_round1 (snd w))
                      (sized_words (page_words (Example.titled 141 94)))))
      = Ok (nearest_float false 94 10)
   /\ (141 # 10 == (3 # 2) * (94 # 10))%Q)
  /\ (page_large_blocks (Example.titled 51 34) = ["Title"]
      /\ py_round1 (nearest_float false 51 10) = nearest_float false 51 10
      /\ most_common1
           (Counter (map (fun w => py_round1 (snd w))
                         (sized_words (page_words (Example.titled 51 34)))))
         = Ok (nearest_float false 34 10)
      /\ (float_value (nearest_float false 51 10)
          < (3 # 2) * float_value (nearest_float false 34 10))%Q).
Proof. vm_compute. repeat split; reflexivity. Qed.

(** C7, amended: on a page whose sized words have numbers for sizes, the
    baseline is the mode of the sizes rounded to one decimal (one of them,
    and none occurs more often); a word is large exactly when its rounded
    size is greater than or equal to the float product of the baseline
    and 1.5, which is the product rounded to the nearest float; the
    blocks are the texts of the maximal runs of consecutive large words
    among the words that carry a size, a run ending before the first word
    that is not large or with the page. A page without a sized word is
    passed over: the loop body does not raise, and the scan goes on with
    the next page. Rounding to one decimal takes the exact value of the
    float to the nearest multiple of one tenth, a tie going to the even
    one, and then the float nearest to it: 10.35 gives 10.3, 0.25 gives
    0.2, 0.75 gives 0.8. *)
Theorem baseline_is_mode_and_large_is_a_float_comparison
    (search_key page_number_key : string) (p : @page PyFloat) :
  let sized := sized_words (page_words p) in
  let sizes := map (fun w => py_round1 (snd w)) sized in
  let large (baseline : float) (w : string * float) :=
    SFleb (SFmul float_prec float_emax baseline one_and_a_half)
          (py_round1 (snd w)) in
  (forall text size, In (text, size) sized -> size <> S754_nan) ->
  (sized = [] ->
   inspect search_key page_number_key p = Ok Skip
   /\ forall pages i rest printed_start_page first_page_checked,
        nth_error pages i = Some p ->
        snd (scan_pages pages search_key page_number_key
               printed_start_page first_page_checked (i :: rest))
        = snd (scan_pages pages search_key page_number_key
                 printed_start_page false rest))
  /\ (sized <> [] ->
      exists (baseline : float) (runs : list (list (string * float))),
        most_common1 (Counter sizes) = Ok baseline
        /\ In baseline sizes
        /\ (forall x, (occurrences x sizes <= occurrences baseline sizes)%nat)
        /\ maximal_runs (large baseline) sized runs
        /\ (forall runs',
               maximal_runs (large baseline) sized runs' -> runs' = runs)
        /\ page_large_blocks p = map block_text runs
        /\ inspect search_key page_number_key p
           = Ok (Checked (title_in_blocks search_key (map block_text runs))
                         (contains page_number_key (page_text p))))
  /\ (forall s m e,
         py_round1 (S754_finite s m e)
         = match round_half_even (magnitude m e * 10) with
           | Zpos tenths => nearest_float s tenths 10
           | _ => S754_zero s
           end)
  /\ py_round1 (nearest_float false 1035 100)
     = S754_finite false 5798384520239514 (-49)
  /\ py_round1 (nearest_float false 25 100) = nearest_float false 2 10
  /\ py_round1 (nearest_float false 75 100) = nearest_float false 8 10
  /\ SFmul float_prec float_emax (nearest_float false 94 10) one_and_a_half
     = S754_finite false 7937594343240500 (-49)
  /\ nearest_float false 141 10 = S754_finite false 7937594343240499 (-49)
  /\ large (nearest_float false 94 10) ("Title", nearest_float false 141 10)
     = false
  /\ large (nearest_float false 10 1) ("Title", nearest_float false 1496 100)
     = true
  /\ large (nearest_float false 10 1) ("Title", nearest_float false 1494 100)
     = false.
Proof.
  intros sized sizes large Hnan.
  split; [|split; [|split]].
  - intros Hs. exact (page_without_sizes_is_skipped _ _ p Hs).
  - intros Hs.
    apply (page_blocks_are_large_runs search_key page_number_key p
             PyFloat_key_partial_equivalence); [|exact Hs].
    apply Forall_forall. intros x Hx.
    apply in_map_iff in Hx as ([text size] & <- & Hin).
    apply SFeqb_refl, py_round1_not_nan. exact (Hnan text size Hin).
  - reflexivity.
  - vm_compute. repeat split; reflexivity.
Qed.

(** The opening page of the small book: the baseline is 10 points, and
    the one block of large text is the chapter label, set in 18 points. *)
Lemma baseline_is_mode_and_large_is_a_float_comparison_witness :
  exists (baseline : float) (runs : list (list (string * float))),
    most_common1
      (Counter (map (fun w => py_round1 (snd w))
                    (sized_words (page_words Example.opening))))
    = Ok baseline
    /\ baseline = nearest_float false 10 1
    /\ map block_text runs = ["1 Introduction"]
    /\ page_large_blocks Example.opening = map block_text runs.
Proof.
  assert (Hnan : forall text size,
             In (text, size) (sized_words (page_words Example.opening)) ->
             size <> S754_nan).
  { intros text size Hin. vm_compute in Hin.
    repeat (destruct Hin as [Hin|Hin];
            [injection Hin as _ <-; discriminate|]).
    contradiction. }
  assert (Hne : sized_words (page_words Example.opening) <> [])
    by (vm_compute; discriminate).
  destruct (proj1 (proj2 (baseline_is_mode_and_large_is_a_float_comparison
                            "introduction" "3" Example.opening Hnan)) Hne)
    as (baseline & runs & Hb & _ & _ & _ & _ & Hblocks & _).
  exists baseline, runs.
  split; [exact Hb|].
  assert (Hten : baseline = nearest_float false 10 1).
  { vm_compute in Hb. injection Hb as <-. vm_compute. reflexivity. }
  split; [exact Hten|]. split; [|exact Hblocks].
  rewrite <- Hblocks. vm_compute. reflexivity.
Defined.

(** ** Dictionaries and [sorted] *)

Section DictFacts.
Context {V : Type}.

Lemma dict_get_set (k k' : string) (v : V) (d : dict V) :
  dict_get k' (dict_set k v d)
  = if String.eqb k k' then Some v else dict_get k' d.
Proof.
  induction d as [|[k0 v0] r IH]; cbn [dict_set dict_get].
  - reflexivity.
  - destruct (String.eqb k0 k) eqn:E0.
    + apply String.eqb_eq in E0 as ->. cbn [dict_get].
      destruct (String.eqb k k'); reflexivity.
    + cbn [dict_get]. rewrite IH.
      destruct (String.eqb k0 k') eqn:E1; auto.
      apply String.eqb_eq in E1 as ->.
      now rewrite String.eqb_sym, E0.
Qed.

Lemma dict_get_None (k : string) (d : dict V) :
  dict_get k d = None <-> ~ In k (map fst d).
Proof.
  induction d as [|[k0 v0] r IH]; cbn [dict_get map fst In].
  - tauto.
  - destruct (String.eqb k0 k) eqn:E.
    + apply String.eqb_eq in E as ->. split; [discriminate|tauto].
    + apply String.eqb_neq in E. rewrite IH. tauto.
Qed.

(** A new key goes to the end. *)
Lemma dict_set_fresh (k : string) (v : V) (d : dict V) :
  dict_get k d = None -> dict_set k v d = d ++ [(k, v)].
Proof.
  induction d as [|[k0 v0] r IH]; cbn [dict_set dict_get app]; auto.
  destruct (String.eqb k0 k); [discriminate|]. intros E. now rewrite IH.
Qed.

Lemma dict_get_In (k : string) (v : V) (d : dict V) :
  dict_get k d = Some v -> In (k, v) d.
Proof.
  induction d as [|[k0 v0] r IH]; cbn [dict_get]; [discriminate|].
  destruct (String.eqb k0 k) eqn:E.
  - apply String.eqb_eq in E as ->. intros [= ->]. now left.
  - intros Hg. right. auto.
Qed.

(** With distinct keys, a dictionary holds the pairs it returns. *)
Lemma dict_get_NoDup (k : string) (v : V) (d : dict V) :
  NoDup (map fst d) -> (dict_get k d = Some v <-> In (k, v) d).
Proof.
  intros Hd. split; [apply dict_get_In|].
  induction d as [|[k0 v0] r IH]; cbn [dict_get]; [contradiction|].
  cbn [map fst] in Hd. inversion Hd as [|? ? Hnotin Hr]; subst.
  intros [[= -> ->]|Hin].
  - now rewrite String.eqb_refl.
  - destruct (String.eqb k0 k) eqn:E; auto.
    apply String.eqb_eq in E as ->.
    exfalso. apply Hnotin. now apply (in_map fst) in Hin.
Qed.
End DictFacts.

Section SortedFacts.
Context {A : Type} (key : A -> Z).

Lemma insert_sorted_perm (x : A) (l : list A) :
  Permutation (insert_sorted key x l) (x :: l).
Proof.
  induction l as [|y r IH]; cbn [insert_sorted]; auto.
  destruct (Z.leb (key x) (key y)); auto.
  rewrite IH. apply perm_swap.
Qed.

Lemma sorted_perm (l : list A) : Permutation (sorted key l) l.
Proof.
  induction l as [|x r IH]; cbn [sorted]; auto.
  rewrite insert_sorted_perm. now constructor.
Qed.

Lemma insert_sorted_ordered (x : A) (l : list A) :
  StronglySorted (fun a b => (key a <= key b)%Z) l ->
  StronglySorted (fun a b => (key a <= key b)%Z) (insert_sorted key x l).
Proof.
  induction 1 as [|y r Hr IH Hy]; cbn [insert_sorted].
  - repeat constructor.
  - destruct (Z.leb (key x) (key y)) eqn:E.
    + apply Z.leb_le in E. constructor; [constructor; auto|].
      constructor; auto.
      eapply Forall_impl; [|exact Hy]. cbn. intros; lia.
    + apply Z.leb_gt in E. constructor; auto.
      eapply Permutation_Forall;
        [symmetry; apply insert_sorted_perm|].
      constructor; auto. lia.
Qed.

Lemma sorted_ordered (l : list A) :
  StronglySorted (fun a b => (key a <= key b)%Z) (sorted key l).
Proof.
  induction l as [|x r IH]; cbn [sorted]; [constructor|].
  now apply insert_sorted_ordered.
Qed.

Lemma sorted_In (l : list A) (x : A) : In x (sorted key l) <-> In x l.
Proof.
  split; apply Permutation_in; [|symmetry]; apply sorted_perm.
Qed.

Lemma sorted_length (l : list A) :
  List.length (sorted key l) = List.length l.
Proof. apply Permutation_length, sorted_perm. Qed.
End SortedFacts.
(** ** The range mapper *)

(** With distinct titles every assignment of the loop adds a new key. *)
Lemma ranges_loop_kept (items : list (string * Z)) (last_printed_page : Z)
    (final_map : dict (Z * Z)) :
  NoDup (map fst items) ->
  (forall k, In k (map fst items) -> dict_get k final_map = None) ->
  ranges_loop items last_printed_page final_map
  = final_map ++ kept_ranges items last_printed_page.
Proof.
  revert final_map.
  induction items as [|[title s] rest IH]; intros final_map Hnd Hfresh.
  - cbn. now rewrite app_nil_r.
  - cbn [ranges_loop kept_ranges]. cbn [map fst] in Hnd, Hfresh.
    inversion Hnd as [|? ? Hnotin Hrest]; subst.
    set (e := match rest with
              | [] => last_printed_page
              | (_, next_start_page) :: _ => (next_start_page - 1)%Z
              end).
    destruct (Z.leb s e).
    + rewrite IH; auto.
      * rewrite dict_set_fresh by (apply Hfresh; now left).
        now rewrite <- app_assoc.
      * intros k Hk. rewrite dict_get_set.
        destruct (String.eqb title k) eqn:E.
        -- apply String.eqb_eq in E as ->. contradiction.
        -- apply Hfresh. now right.
    + apply IH; auto. intros k Hk. apply Hfresh. now right.
Qed.

Lemma map_starts_to_ranges_kept (chapter_starts : dict Z)
    (last_printed_page : Z) :
  NoDup (map fst chapter_starts) ->
  map_starts_to_ranges chapter_starts last_printed_page
  = kept_ranges (sorted snd chapter_starts) last_printed_page.
Proof.
  intros Hnd. unfold map_starts_to_ranges.
  rewrite ranges_loop_kept; auto.
  eapply Permutation_NoDup; [|exact Hnd].
  apply Permutation_map. symmetry. apply sorted_perm.
Qed.

Section KeptRanges.
Variable last_printed_page : Z.

Lemma kept_ranges_length (items : list (string * Z)) :
  (List.length (kept_ranges items last_printed_page) <= List.length items)%nat.
Proof.
  induction items as [|[t s] rest IH]; cbn [kept_ranges]; auto.
  destruct (Z.leb s _); cbn [List.length]; lia.
Qed.

(** A kept range belongs to an entry and is not empty. *)
Lemma kept_ranges_In (items : list (string * Z)) (t : string) (s e : Z) :
  In (t, (s, e)) (kept_ranges items last_printed_page) ->
  In (t, s) items /\ (s <= e)%Z.
Proof.
  induction items as [|[t0 s0] rest IH]; cbn [kept_ranges]; [contradiction|].
  destruct (Z.leb s0 _) eqn:E.
  - intros [[= -> -> <-]|Hin].
    + apply Z.leb_le in E. split; [now left|exact E].
    + destruct (IH Hin). split; [now right|assumption].
  - intros Hin. destruct (IH Hin). split; [now right|assumption].
Qed.

(** The first kept range starts where the first entry starts. *)
Lemma kept_ranges_head (t : string) (s : Z) (rest : list (string * Z))
    (r : string * (Z * Z)) (rs : dict (Z * Z)) :
  StronglySorted start_le ((t, s) :: rest) ->
  kept_ranges ((t, s) :: rest) last_printed_page = r :: rs ->
  fst (snd r) = s.
Proof.
  revert t s. induction rest as [|[t' s'] rest IH]; intros t s Hord.
  - cbn. destruct (Z.leb s last_printed_page); [|discriminate].
    now intros [= <- _].
  - cbn [kept_ranges]. destruct (Z.leb s (s' - 1)) eqn:E.
    + now intros [= <- _].
    + apply Z.leb_gt in E. inversion Hord as [|? ? Hrest Hhd]; subst.
      inversion Hhd as [|? ? Hle _]; subst. unfold start_le in Hle.
      cbn in Hle. intros Hk. rewrite (IH t' s' Hrest Hk). lia.
Qed.

(** Each kept range ends right before the next kept one starts. *)
Lemma kept_ranges_adjacent (items : list (string * Z)) :
  StronglySorted start_le items -> Sorted adjacent (kept_ranges items last_printed_page).
Proof.
  induction items as [|[t s] rest IH]; intros Hord; [constructor|].
  inversion Hord as [|? ? Hrest Hhd]; subst.
  cbn [kept_ranges].
  destruct rest as [|[t' s'] rest'].
  - cbn. destruct (Z.leb s last_printed_page); repeat constructor.
  - destruct (Z.leb s (s' - 1)); [|now apply IH].
    constructor; [now apply IH|].
    destruct (kept_ranges ((t', s') :: rest') last_printed_page)
      as [|r rs] eqn:Ek; constructor.
    unfold adjacent. cbn [snd fst].
    rewrite (kept_ranges_head t' s' rest' r rs Hrest Ek). lia.
Qed.

(** A kept range ends before every later kept range starts. *)
Lemma kept_ranges_disjoint (items : list (string * Z)) :
  StronglySorted start_le items ->
  StronglySorted before (kept_ranges items last_printed_page).
Proof.
  induction items as [|[t s] rest IH]; intros Hord; [constructor|].
  inversion Hord as [|? ? Hrest Hhd]; subst.
  cbn [kept_ranges].
  destruct rest as [|[t' s'] rest'].
  - cbn. destruct (Z.leb s last_printed_page); repeat constructor.
  - destruct (Z.leb s (s' - 1)); [|now apply IH].
    constructor; [now apply IH|].
    apply Forall_forall. intros [t2 [s2 e2]] Hin. unfold before.
    cbn [snd fst].
    apply kept_ranges_In in Hin as [Hin _].
    destruct Hin as [[= _ <-]|Hin]; [lia|].
    inversion Hrest as [|? ? _ Hhd']; subst.
    rewrite Forall_forall in Hhd'. specialize (Hhd' _ Hin).
    unfold start_le in Hhd'. cbn in Hhd'. lia.
Qed.

(** With no start after the last printed page, the kept ranges cover the
    pages from the first start to the last printed page. *)
Lemma kept_ranges_cover (t : string) (s : Z) (rest : list (string * Z))
    (p : Z) :
  StronglySorted start_le ((t, s) :: rest) ->
  (forall t' s', In (t', s') ((t, s) :: rest) -> (s' <= last_printed_page)%Z) ->
  covered p (kept_ranges ((t, s) :: rest) last_printed_page)
  <-> (s <= p <= last_printed_page)%Z.
Proof.
  revert t s. induction rest as [|[t' s'] rest IH]; intros t s Hord Hle.
  - cbn [kept_ranges].
    assert (Hs : (s <= last_printed_page)%Z) by (apply (Hle t); now left).
    apply Z.leb_le in Hs. rewrite Hs. unfold covered. split.
    + intros (t0 & s0 & e0 & [[= _ <- <-]|[]] & Hp). exact Hp.
    + intros Hp. exists t, s, last_printed_page. split; [now left|exact Hp].
  - inversion Hord as [|? ? Hrest Hhd]; subst.
    inversion Hhd as [|? ? Hss' _]; subst. unfold start_le in Hss'.
    cbn in Hss'.
    assert (Hs' : (s' <= last_printed_page)%Z)
      by (apply (Hle t'); right; now left).
    specialize (IH t' s' Hrest (fun a b H => Hle a b (or_intror H))).
    cbn [kept_ranges] in IH |- *.
    destruct (Z.leb s (s' - 1)) eqn:E.
    + apply Z.leb_le in E. unfold covered in IH |- *. split.
      * intros (t0 & s0 & e0 & [[= _ <- <-]|Hin] & Hp); [lia|].
        assert (s' <= p <= last_printed_page)%Z; [|lia].
        apply IH. now exists t0, s0, e0.
      * intros Hp. destruct (Z_lt_le_dec p s') as [Hlt|Hge].
        -- exists t, s, (s' - 1)%Z. split; [now left|lia].
        -- destruct (proj2 IH (conj Hge (proj2 Hp)))
             as (t0 & s0 & e0 & Hin & Hp0).
           exists t0, s0, e0. split; [now right|exact Hp0].
    + apply Z.leb_gt in E. rewrite IH. lia.
Qed.

(** With distinct starts, none after the last printed page, every entry
    keeps its range. *)
Lemma kept_ranges_all (items : list (string * Z)) :
  StronglySorted start_le items -> NoDup (map snd items) ->
  (forall t s, In (t, s) items -> (s <= last_printed_page)%Z) ->
  List.length (kept_ranges items last_printed_page) = List.length items.
Proof.
  induction items as [|[t s] rest IH]; intros Hord Hnd Hle; [reflexivity|].
  inversion Hord as [|? ? Hrest Hhd]; subst.
  cbn [map snd] in Hnd. inversion Hnd as [|? ? Hnotin Hnd']; subst.
  pose proof (IH Hrest Hnd' (fun a b H => Hle a b (or_intror H))) as IH'.
  assert (Hkeep : Z.leb s match rest with
                          | [] => last_printed_page
                          | (_, n) :: _ => (n - 1)%Z
                          end = true).
  { apply Z.leb_le. destruct rest as [|[t' s'] rest'].
    - apply (Hle t). now left.
    - inversion Hhd as [|? ? Hss' _]; subst. unfold start_le in Hss'.
      cbn in Hss'.
      assert (s <> s') by (intros ->; apply Hnotin; now left). lia. }
  cbn [kept_ranges]. rewrite Hkeep. cbn [List.length]. now rewrite IH'.
Qed.
End KeptRanges.
(** C2, as the claim states it: two start pages would give two ranges.
    Two chapters that start on the same page give one. *)
Lemma mapper_gives_fewer_ranges :
  List.length (map_starts_to_ranges [("1 Alpha", 3%Z); ("2 Beta", 3%Z)] 10)
  <> List.length [("1 Alpha", 3%Z); ("2 Beta", 3%Z)].
Proof. vm_compute. discriminate. Qed.

(** C2, amended: from N chapter starts with distinct titles the mapper
    makes at most N ranges, and exactly N when the start pages are distinct
    and none lies after the last printed page; every range belongs to a
    chapter and has its start at or before its end; each range ends right
    before the next one starts, so no two overlap; and when no start page
    lies after the last printed page the ranges cover exactly the pages
    from the first start to the last printed page. *)
Theorem mapper_ranges_are_adjacent_and_cover (chapter_starts : dict Z)
    (last_printed_page : Z) :
  NoDup (map fst chapter_starts) ->
  let ranges := map_starts_to_ranges chapter_starts last_printed_page in
  (List.length ranges <= List.length chapter_starts)%nat
  /\ (NoDup (map snd chapter_starts) ->
      (forall title start, In (title, start) chapter_starts ->
                           (start <= last_printed_page)%Z) ->
      List.length ranges = List.length chapter_starts)
  /\ (forall title start_page end_page,
         In (title, (start_page, end_page)) ranges ->
         In (title, start_page) chapter_starts
         /\ (start_page <= end_page)%Z)
  /\ Sorted adjacent ranges
  /\ StronglySorted before ranges
  /\ ((forall title start, In (title, start) chapter_starts ->
                           (start <= last_printed_page)%Z) ->
      forall p : Z,
        covered p ranges
        <-> (exists title start,
               In (title, start) chapter_starts /\ (start <= p)%Z)
            /\ (p <= last_printed_page)%Z).
Proof.
  intros Hnd ranges. unfold ranges.
  rewrite (map_starts_to_ranges_kept _ _ Hnd).
  pose proof (sorted_ordered snd chapter_starts) as Hord.
  change (StronglySorted start_le (sorted snd chapter_starts)) in Hord.
  split.
  { rewrite <- (sorted_length snd chapter_starts).
    apply kept_ranges_length. }
  split.
  { intros Hstarts Hle. rewrite <- (sorted_length snd chapter_starts).
    apply kept_ranges_all; auto.
    - eapply Permutation_NoDup; [|exact Hstarts].
      apply Permutation_map. symmetry. apply sorted_perm.
    - intros t s Hin. apply (Hle t). now apply sorted_In in Hin. }
  split.
  { intros t s e Hin. apply kept_ranges_In in Hin as [Hin Hse].
    split; [now apply sorted_In in Hin|exact Hse]. }
  split; [now apply kept_ranges_adjacent|].
  split; [now apply kept_ranges_disjoint|].
  intros Hle p.
  destruct (sorted snd chapter_starts) as [|[t s] rest] eqn:Es.
  - assert (Hnil : chapter_starts = []).
    { apply Permutation_nil. rewrite <- Es. apply sorted_perm. }
    subst chapter_starts. cbn. unfold covered. split.
    + intros (? & ? & ? & [] & _).
    + intros [(? & ? & [] & _) _].
  - assert (Hin : forall t' s', In (t', s') ((t, s) :: rest)
                                <-> In (t', s') chapter_starts).
    { intros t' s'. rewrite <- Es. apply sorted_In. }
    rewrite kept_ranges_cover; auto.
    2:{ intros t' s' H'. apply (Hle t'). now apply Hin. }
    split.
    + intros [Hs Hp]. split; [|exact Hp].
      exists t, s. split; [apply Hin; now left|exact Hs].
    + intros [(t' & s' & Hin' & Hs') Hp]. split; [|exact Hp].
      apply Hin in Hin' as [[= <- <-]|Hin']; [exact Hs'|].
      inversion Hord as [|? ? _ Hhd]; subst.
      rewrite Forall_forall in Hhd. specialize (Hhd _ Hin').
      unfold start_le in Hhd. cbn in Hhd. lia.
Qed.

(** The two chapters of the small book, 21 printed pages: page 20 is
    covered. *)
Lemma mapper_ranges_are_adjacent_and_cover_witness :
  covered 20 (map_starts_to_ranges
                [("1 Introduction", 3%Z); ("2 Basics of it", 20%Z)] 21)
  <-> (exists title start,
         In (title, start)
            [("1 Introduction", 3%Z); ("2 Basics of it", 20%Z)]
         /\ (start <= 20)%Z)
      /\ (20 <= 21)%Z.
Proof.
  assert (Hnd : NoDup (map fst [("1 Introduction", 3%Z);
                                ("2 Basics of it", 20%Z)]))
    by (repeat constructor; cbn; intuition discriminate).
  assert (Hle : forall title start,
             In (title, start)
                [("1 Introduction", 3%Z); ("2 Basics of it", 20%Z)] ->
             (start <= 21)%Z)
    by (intros title start [[= <- <-]|[[= <- <-]|[]]]; lia).
  exact (proj2 (proj2 (proj2 (proj2 (proj2
           (mapper_ranges_are_adjacent_and_cover
              [("1 Introduction", 3%Z); ("2 Basics of it", 20%Z)] 21
              Hnd))))) Hle 20%Z).
Defined.

(** ** The last chapter *)

Lemma kept_ranges_keys (items : list (string * Z)) (last_printed_page : Z) :
  NoDup (map fst items) ->
  NoDup (map fst (kept_ranges items last_printed_page)).
Proof.
  induction items as [|[t s] rest IH]; intros Hnd; [constructor|].
  cbn [map fst] in Hnd. inversion Hnd as [|? ? Hnotin Hrest]; subst.
  cbn [kept_ranges]. destruct (Z.leb s _); auto.
  cbn [map fst]. constructor; auto.
  intros Hin. apply in_map_iff in Hin as ([t' [s' e']] & <- & Hin).
  apply kept_ranges_In in Hin as [Hin _].
  apply Hnotin. now apply (in_map fst) in Hin.
Qed.

(** The range of the last entry ends on the last printed page; it is
    dropped when the entry starts after that page. *)
Lemma kept_ranges_last (earlier : list (string * Z)) (title : string)
    (start last_printed_page : Z) :
  exists front,
    kept_ranges (earlier ++ [(title, start)]) last_printed_page
    = front ++ (if Z.leb start last_printed_page
                then [(title, (start, last_printed_page))] else [])
    /\ forall x, In x front -> In (fst x) (map fst earlier).
Proof.
  induction earlier as [|[t s] rest (front & IH & Hfront)].
  - exists []. split; [reflexivity|contradiction].
  - cbn [app kept_ranges]. rewrite IH.
    destruct (Z.leb s _).
    + eexists (_ :: front). split; [reflexivity|].
      intros x [<-|Hx]; cbn [map fst]; [now left|right; auto].
    + exists front. split; [reflexivity|].
      intros x Hx. cbn [map fst]. right. auto.
Qed.

Lemma dict_get_app_fresh {V} (k : string) (d d' : dict V) :
  ~ In k (map fst d) -> dict_get k (d ++ d') = dict_get k d'.
Proof.
  induction d as [|[k0 v0] r IH]; cbn [app dict_get map fst In]; auto.
  intros Hnotin. destruct (String.eqb k0 k) eqn:E.
  - apply String.eqb_eq in E. tauto.
  - apply IH. tauto.
Qed.

Lemma dict_get_map {V W} (f : V -> W) (k : string) (d : dict V) :
  dict_get k (map (fun it => (fst it, f (snd it))) d)
  = option_map f (dict_get k d).
Proof.
  induction d as [|[k0 v0] r IH]; cbn [map dict_get fst snd]; auto.
  destruct (String.eqb k0 k); auto.
Qed.

(** With distinct titles, step 5 shifts every range by the offset. *)
Lemma project_ranges_loop (page_offset : Z) (ranges acc : dict (Z * Z)) :
  NoDup (map fst ranges) ->
  (forall k, In k (map fst ranges) -> dict_get k acc = None) ->
  fold_left
    (fun file_chapter_map '(title, (printed_start, printed_end)) =>
       dict_set title
         ((printed_start + page_offset)%Z, (printed_end + page_offset)%Z)
         file_chapter_map)
    ranges acc
  = acc ++ map (fun it => (fst it, ((fst (snd it) + page_offset)%Z,
                                    (snd (snd it) + page_offset)%Z)))
               ranges.
Proof.
  revert acc. induction ranges as [|[t [s e]] rest IH]; intros acc Hnd Hfresh.
  - cbn. now rewrite app_nil_r.
  - cbn [map fst] in Hnd, Hfresh. inversion Hnd as [|? ? Hnotin Hrest]; subst.
    cbn [fold_left map fst snd]. rewrite IH; auto.
    + rewrite dict_set_fresh by (apply Hfresh; now left).
      now rewrite <- app_assoc.
    + intros k Hk. rewrite dict_get_set.
      destruct (String.eqb t k) eqn:E.
      * apply String.eqb_eq in E as ->. contradiction.
      * apply Hfresh. now right.
Qed.

Lemma project_ranges_map (page_offset : Z) (ranges : dict (Z * Z)) :
  NoDup (map fst ranges) ->
  project_ranges page_offset ranges
  = map (fun it => (fst it, ((fst (snd it) + page_offset)%Z,
                             (snd (snd it) + page_offset)%Z)))
        ranges.
Proof.
  intros Hnd. unfold project_ranges.
  now rewrite project_ranges_loop.
Qed.

Lemma project_ranges_keys (page_offset : Z) (ranges : dict (Z * Z)) :
  NoDup (map fst ranges) ->
  map fst (project_ranges page_offset ranges) = map fst ranges.
Proof.
  intros Hnd. rewrite project_ranges_map by assumption.
  rewrite map_map. reflexivity.
Qed.

(** The projected range of the last entry. *)
Lemma last_chapter_file_range (chapter_starts : dict Z)
    (earlier : list (string * Z)) (title : string) (start : Z)
    (last_printed_page page_offset : Z) :
  NoDup (map fst chapter_starts) ->
  sorted snd chapter_starts = earlier ++ [(title, start)] ->
  dict_get title
    (project_ranges page_offset
       (map_starts_to_ranges chapter_starts last_printed_page))
  = if Z.leb start last_printed_page
    then Some ((start + page_offset)%Z, (last_printed_page + page_offset)%Z)
    else None.
Proof.
  intros Hnd Es.
  assert (Hnd' : NoDup (map fst (earlier ++ [(title, start)]))).
  { rewrite <- Es. eapply Permutation_NoDup; [|exact Hnd].
    apply Permutation_map. symmetry. apply sorted_perm. }
  rewrite map_starts_to_ranges_kept by assumption. rewrite Es.
  rewrite project_ranges_map by now apply kept_ranges_keys.
  rewrite (dict_get_map (fun r => ((fst r + page_offset)%Z,
                                   (snd r + page_offset)%Z))).
  destruct (kept_ranges_last earlier title start last_printed_page)
    as (front & -> & Hfront).
  rewrite dict_get_app_fresh.
  - destruct (Z.leb start last_printed_page); cbn; [|reflexivity].
    now rewrite String.eqb_refl.
  - intros Hin. apply in_map_iff in Hin as (x & Hx & Hin).
    apply Hfront in Hin. rewrite Hx in Hin.
    rewrite map_app in Hnd'. cbn [map fst] in Hnd'.
    apply NoDup_remove_2 in Hnd'. rewrite app_nil_r in Hnd'. contradiction.
Qed.
(** ** What the patterns capture *)

Lemma string_app_nil_r (s : string) : (s ++ "")%string = s.
Proof. induction s as [|c s IH]; cbn; [reflexivity|now rewrite IH]. Qed.

Lemma or_else_Some {A} (x y : option A) (r : A) :
  or_else x y = Some r -> x = Some r \/ y = Some r.
Proof. destruct x; cbn; auto. Qed.

(** A repetition hands over to its continuation a run of characters of its
    class, at least [lo] of them. *)
Lemma rep_loop_spec {A} (cls : ascii -> bool) (lo : nat) (hi : option nat)
    (greedy : bool) (k : string -> option ascii -> string -> option A)
    (rest : string) :
  forall (n : nat) (taken : string) (prev : option ascii) (r : A),
    rep_loop cls lo hi greedy k n taken prev rest = Some r ->
    exists t prev' rest',
      k (taken ++ t)%string prev' rest' = Some r
      /\ all_str cls t = true
      /\ (lo <= n + String.length t)%nat.
Proof.
  induction rest as [|c rest IH]; intros n taken prev r Hr;
    cbn [rep_loop] in Hr.
  - assert (Hstop : (if Nat.leb lo n then k taken prev EmptyString else None)
                    = Some r).
    { destruct greedy; cbn in Hr; auto.
      now apply or_else_Some in Hr as [Hr|Hr]; [|discriminate]. }
    destruct (Nat.leb lo n) eqn:E; [|discriminate].
    apply Nat.leb_le in E.
    exists EmptyString, prev, EmptyString.
    rewrite string_app_nil_r. cbn. repeat split; auto. lia.
  - assert (Hcases :
      (if Nat.leb lo n then k taken prev (String c rest) else None) = Some r
      \/ (if (cls c && below hi n)%bool
          then rep_loop cls lo hi greedy k (S n)
                 (taken ++ String c EmptyString) (Some c) rest
          else None) = Some r).
    { destruct greedy; apply or_else_Some in Hr; tauto. }
    destruct Hcases as [Hstop|Hmore].
    + destruct (Nat.leb lo n) eqn:E; [|discriminate].
      apply Nat.leb_le in E.
      exists EmptyString, prev, (String c rest).
      rewrite string_app_nil_r. cbn. repeat split; auto. lia.
    + destruct (cls c && below hi n)%bool eqn:E; [|discriminate].
      apply andb_true_iff in E as [Ec _].
      apply IH in Hmore as (t & prev' & rest' & Hk & Ht & Hlen).
      exists (String c t), prev', rest'.
      rewrite string_app_assoc in Hk. cbn in Hk |- *.
      rewrite Ec, Ht. repeat split; auto. lia.
Qed.

(** The groups of a match: one per capturing repetition, each a run of
    characters of its class of at least the least length. *)
Lemma match_here_groups (multiline : bool) (p : pattern) :
  forall (prev : option ascii) (s : string) (caps : list string)
         (after : string),
    match_here multiline p prev s = Some (caps, after) ->
    Forall2
      (fun a g => match a with
                  | Rep _ cls lo _ _ =>
                      all_str cls g = true /\ (lo <= String.length g)%nat
                  | _ => False
                  end)
      (filter (fun a => match a with
                        | Rep true _ _ _ _ => true
                        | _ => false
                        end) p)
      caps.
Proof.
  induction p as [|a p IH]; intros prev s caps after Hm; cbn [match_here] in Hm.
  - injection Hm as <- _. constructor.
  - destruct a as [| |cap cls lo hi greedy].
    + destruct (at_bol multiline prev); [|discriminate]. cbn [filter]. eauto.
    + destruct (at_eol multiline s); [|discriminate]. cbn [filter]. eauto.
    + apply rep_loop_spec in Hm as (t & prev' & rest' & Hk & Ht & Hlen).
      cbn in Hk.
      destruct (match_here multiline p prev' rest') as [[caps' after']|] eqn:E;
        [|discriminate].
      injection Hk as <- <-. apply IH in E.
      cbn [filter]. destruct cap; [constructor|]; auto.
Qed.

Lemma finditer_from_matches (multiline : bool) (p : pattern) (s : string) :
  forall (skip : nat) (prev : option ascii) (caps : list string),
    In caps (finditer_from multiline p skip prev s) ->
    exists prev' s' after,
      match_here multiline p prev' s' = Some (caps, after).
Proof.
  induction s as [|c s IH]; intros skip prev caps Hin;
    cbn [finditer_from] in Hin.
  - destruct skip; [|contradiction].
    destruct (match_here multiline p prev EmptyString) as [[caps' after]|]
      eqn:E; [|contradiction].
    destruct Hin as [<-|[]]. eauto.
  - destruct skip; [|eauto].
    destruct (match_here multiline p prev (String c s)) as [[caps' after]|]
      eqn:E; [|eauto].
    destruct Hin as [<-|Hin]; eauto.
Qed.

(** [int] reads a run of decimal digits that is not empty. *)
Lemma int_digits_decimal (s : string) :
  all_str isdecimal s = true ->
  forall (prev_digit : bool) (acc : Z),
    s <> EmptyString \/ prev_digit = true ->
    exists v, int_digits prev_digit acc s = Some v.
Proof.
  induction s as [|c s IH]; intros Hs prev_digit acc Hne; cbn [int_digits].
  - destruct Hne as [Hne| ->]; [contradiction|eauto].
  - cbn in Hs. apply andb_true_iff in Hs as [Hc Hs]. rewrite Hc.
    apply IH; auto.
Qed.

Lemma isdecimal_not_space (c : ascii) : isdecimal c = true -> isspace c = false.
Proof.
  unfold isdecimal, isspace, in_range. intros Hc.
  apply andb_true_iff in Hc as [H1 H2].
  apply N.leb_le in H1, H2.
  rewrite !orb_false_iff, !andb_false_iff, !N.leb_gt, !N.eqb_neq. lia.
Qed.

Lemma rstrip_decimal (s : string) :
  all_str isdecimal s = true -> rstrip s = s.
Proof.
  induction s as [|c s IH]; intros Hs; cbn [rstrip]; auto.
  cbn in Hs. apply andb_true_iff in Hs as [Hc Hs].
  rewrite (isdecimal_not_space c Hc), IH by assumption. reflexivity.
Qed.

Lemma strip_decimal (s : string) :
  all_str isdecimal s = true -> strip s = s.
Proof.
  intros Hs. unfold strip.
  assert (Hl : lstrip s = s).
  { destruct s as [|c s]; auto. cbn in Hs |- *.
    apply andb_true_iff in Hs as [Hc _].
    now rewrite (isdecimal_not_space c Hc). }
  rewrite Hl. now apply rstrip_decimal.
Qed.

Lemma int_of_str_decimal (s : string) :
  all_str isdecimal s = true -> (1 <= String.length s)%nat ->
  exists v, int_of_str s = Some v.
Proof.
  intros Hs Hlen. unfold int_of_str. rewrite (strip_decimal s Hs).
  destruct s as [|c s]; [cbn in Hlen; lia|].
  assert (Hd : exists v, int_digits false 0 (String c s) = Some v)
    by (apply int_digits_decimal; auto; left; discriminate).
  assert (Hc : isdecimal c = true)
    by (cbn in Hs; now apply andb_true_iff in Hs as [Hc _]).
  destruct c as [[] [] [] [] [] [] [] []]; try discriminate Hc; exact Hd.
Qed.

(** Every match of the table-of-contents pattern reads as an entry. *)
Lemma toc_match_parses (prev : option ascii) (s : string)
    (groups : list string) (after : string) :
  match_here true toc_pattern_numbered prev s = Some (groups, after) ->
  exists e, parse_entry groups = Some e.
Proof.
  intros Hm. apply match_here_groups in Hm.
  unfold toc_pattern_numbered in Hm. cbn [filter] in Hm.
  inversion Hm as [|? g1 ? l1 _ Hm1]; subst.
  inversion Hm1 as [|? g2 ? l2 _ Hm2]; subst.
  inversion Hm2 as [|? g3 ? l3 H3 Hm3]; subst.
  inversion Hm3; subst. cbn in H3. destruct H3 as [Hg3 Hlen].
  destruct (int_of_str_decimal g3 Hg3 Hlen) as [v Hv].
  unfold parse_entry. rewrite Hv. eauto.
Qed.
(** ** The extractor *)

Lemma toc_match_step_entry (d : dict Z) (groups : list string)
    (e : toc_entry) :
  parse_entry groups = Some e -> toc_match_step d groups = Ok (keep_entry d e).
Proof.
  unfold parse_entry, toc_match_step, keep_entry, acceptable, entry_label.
  destruct groups as [|g1 [|g2 [|g3 [|? ?]]]]; try discriminate.
  destruct (int_of_str g3) as [page|]; [|discriminate].
  intros [= <-]. cbn [entry_number entry_title entry_page].
  now destruct (_ && _ && _)%bool.
Qed.

Lemma toc_matches_entries (matches : list (list string)) (d : dict Z) :
  Forall (fun groups => exists e, parse_entry groups = Some e) matches ->
  toc_matches d matches
  = Ok (fold_left keep_entry
          (flat_map (fun groups => match parse_entry groups with
                                   | Some e => [e]
                                   | None => []
                                   end) matches) d).
Proof.
  intros Hall. revert d.
  induction Hall as [|groups rest [e He] _ IH]; intros d; [reflexivity|].
  cbn [toc_matches flat_map]. rewrite (toc_match_step_entry d groups e He).
  cbn [bind]. rewrite IH, He. reflexivity.
Qed.

Section ExtractorFacts.
Context `{SizeNum}.

Lemma page_matches_parse (p : page) :
  Forall (fun groups => exists e, parse_entry groups = Some e)
         (page_matches p).
Proof.
  apply Forall_forall. intros groups Hin. unfold page_matches in Hin.
  destruct (is_empty (page_text p)); [contradiction|].
  apply finditer_from_matches in Hin as (prev & s & after & Hm).
  now apply toc_match_parses in Hm.
Qed.

(** The loop over the pages never raises: it folds [keep_entry] over the
    entries matched. *)
Lemma toc_pages_entries (pages : list page) (d : dict Z) :
  toc_pages d pages = Ok (fold_left keep_entry (scanned_entries pages) d).
Proof.
  revert d. induction pages as [|p rest IH]; intros d; [reflexivity|].
  cbn [toc_pages]. unfold scanned_entries. cbn [flat_map].
  rewrite flat_map_app, fold_left_app.
  pose proof (page_matches_parse p) as Hp. unfold page_matches in Hp |- *.
  destruct (is_empty (page_text p)).
  - cbn [flat_map fold_left]. apply IH.
  - rewrite (toc_matches_entries _ d Hp). cbn [bind]. apply IH.
Qed.
End ExtractorFacts.

Lemma find_app {A} (f : A -> bool) (l1 l2 : list A) :
  find f (l1 ++ l2)
  = match find f l1 with Some x => Some x | None => find f l2 end.
Proof.
  induction l1 as [|a l1 IH]; cbn [app find]; auto.
  destruct (f a); auto.
Qed.

Lemma dict_mem_get {V} (k : string) (d : dict V) :
  dict_mem k d = false <-> dict_get k d = None.
Proof. unfold dict_mem. destruct (dict_get k d); split; congruence. Qed.

(** What the dictionary holds after the entries [seen]: under each label
    the page of the first acceptable entry with that label. *)
Lemma keep_entry_first (d : dict Z) (seen : list toc_entry) (e : toc_entry) :
  (forall label page,
      dict_get label d = Some page
      <-> exists x, first_accepted label seen = Some x /\ entry_page x = page) ->
  forall label page,
    dict_get label (keep_entry d e) = Some page
    <-> exists x, first_accepted label (seen ++ [e]) = Some x
                  /\ entry_page x = page.
Proof.
  intros Hd label page. unfold first_accepted in *. rewrite find_app.
  cbn [find]. unfold keep_entry.
  destruct (acceptable e) eqn:Ea; cbn [andb].
  - destruct (dict_mem (entry_label e) d) eqn:Em; cbn [negb].
    + (* the label is taken *)
      rewrite Hd. unfold dict_mem in Em.
      destruct (dict_get (entry_label e) d) as [pg|] eqn:Eg; [|discriminate].
      destruct (find _ seen) as [x|] eqn:Ef; [tauto|].
      destruct (String.eqb (entry_label e) label) eqn:El.
      * apply String.eqb_eq in El. subst label.
        apply Hd in Eg as (x & Hx & _). congruence.
      * split; intros (x & Hx & _); discriminate.
    + (* a new label *)
      apply dict_mem_get in Em. rewrite dict_get_set.
      destruct (String.eqb (entry_label e) label) eqn:El.
      * apply String.eqb_eq in El. subst label.
        destruct (find _ seen) as [x|] eqn:Ef.
        -- assert (Hsome : dict_get (entry_label e) d = Some (entry_page x))
             by (apply Hd; eauto).
           congruence.
        -- split.
           ++ intros [= <-]. eauto.
           ++ intros (x & [= <-] & <-). reflexivity.
      * rewrite Hd. destruct (find _ seen); [tauto|].
        split; intros (x & Hx & _); discriminate.
  - rewrite Hd. destruct (find _ seen); [tauto|].
    split; intros (x & Hx & _); discriminate.
Qed.

Lemma keep_entry_keys (d : dict Z) (e : toc_entry) :
  NoDup (map fst d) -> NoDup (map fst (keep_entry d e)).
Proof.
  intros Hd. unfold keep_entry.
  destruct (acceptable e && negb (dict_mem (entry_label e) d))%bool eqn:E;
    auto.
  apply andb_true_iff in E as [_ Em]. apply negb_true_iff in Em.
  apply dict_mem_get in Em. rewrite dict_set_fresh by assumption.
  rewrite map_app. cbn [map fst].
  apply NoDup_app; auto.
  - repeat constructor. intros [].
  - intros k Hk [<-|[]]. now apply dict_get_None in Em.
Qed.

Lemma keep_entries_first (entries seen : list toc_entry) (d : dict Z) :
  NoDup (map fst d) ->
  (forall label page,
      dict_get label d = Some page
      <-> exists x, first_accepted label seen = Some x /\ entry_page x = page) ->
  NoDup (map fst (fold_left keep_entry entries d))
  /\ forall label page,
       dict_get label (fold_left keep_entry entries d) = Some page
       <-> exists x, first_accepted label (seen ++ entries) = Some x
                     /\ entry_page x = page.
Proof.
  revert seen d. induction entries as [|e rest IH]; intros seen d Hnd Hd.
  - cbn [fold_left]. rewrite app_nil_r. auto.
  - cbn [fold_left].
    replace (seen ++ e :: rest) with ((seen ++ [e]) ++ rest)
      by now rewrite <- app_assoc.
    apply IH; [now apply keep_entry_keys|now apply keep_entry_first].
Qed.

Lemma first_accepted_some (label : string) (entries : list toc_entry)
    (e : toc_entry) :
  first_accepted label entries = Some e ->
  In e entries /\ acceptable e = true /\ entry_label e = label.
Proof.
  unfold first_accepted. intros Hf. apply find_some in Hf as [Hin Hp].
  apply andb_true_iff in Hp as [Ha Hl]. apply String.eqb_eq in Hl. auto.
Qed.
(** C4: every entry the extractor returns comes from a line whose title is
    longer than 5 characters and whose printed page is greater than 1;
    under each label it returns the page of the first such line with that
    label, and no label twice; and the entries are in ascending order of
    printed page. *)
Theorem toc_entries_are_filtered_first_and_sorted `{SizeNum}
    (pdfplumber : bool) (pdf : opened) (pages_to_scan : Z)
    (chapters : dict Z) :
  snd (extract_chapters_from_toc pdfplumber pdf pages_to_scan)
  = Some chapters ->
  exists pages,
    pdf = Opened pages
    /\ (forall label page,
           In (label, page) chapters
           <-> exists e,
                 first_accepted label
                   (scanned_entries (pages_scanned pages pages_to_scan))
                 = Some e
                 /\ entry_page e = page)
    /\ (forall label page,
           In (label, page) chapters ->
           exists e,
             In e (scanned_entries (pages_scanned pages pages_to_scan))
             /\ label = (entry_number e ++ " " ++ entry_title e)%string
             /\ page = entry_page e
             /\ (5 < String.length (entry_title e))%nat
             /\ (1 < page)%Z)
    /\ NoDup (map fst chapters)
    /\ StronglySorted start_le chapters.
Proof.
  unfold extract_chapters_from_toc.
  destruct pdfplumber; cbn [negb]; [|discriminate].
  destruct pdf as [pages| |e]; try discriminate.
  rewrite toc_pages_entries.
  set (entries := scanned_entries (pages_scanned pages pages_to_scan)).
  set (d := fold_left keep_entry entries []).
  destruct (keep_entries_first entries [] [] (NoDup_nil _)) as [Hnd Hget].
  { intros label page. cbn. split; [discriminate|].
    intros (x & Hx & _). discriminate. }
  fold d in Hnd, Hget. cbn [app] in Hget.
  destruct (is_nil d); cbn [negb snd]; [discriminate|].
  intros [= <-]. exists pages.
  assert (Hin : forall label page,
             In (label, page) (sorted snd d)
             <-> exists e, first_accepted label entries = Some e
                           /\ entry_page e = page).
  { intros label page. rewrite sorted_In, <- Hget.
    symmetry. now apply dict_get_NoDup. }
  repeat split.
  - apply Hin.
  - apply Hin.
  - intros label page Hl. apply Hin in Hl as (e & He & <-).
    apply first_accepted_some in He as (Hine & Hacc & <-).
    unfold acceptable in Hacc. apply andb_true_iff in Hacc as [Ht Hp].
    apply Nat.ltb_lt in Ht. apply Z.ltb_lt in Hp.
    exists e. repeat split; auto.
  - eapply Permutation_NoDup; [|exact Hnd].
    apply Permutation_map. symmetry. apply sorted_perm.
  - apply (sorted_ordered snd d).
Qed.

(** The table of contents of the small book. *)
Lemma toc_entries_are_filtered_first_and_sorted_witness :
  exists pages,
    Opened Example.book = Opened pages
    /\ (forall label page,
           In (label, page)
              [("1 Introduction", 3%Z); ("2 Basics of it", 20%Z)]
           <-> exists e,
                 first_accepted label
                   (scanned_entries (pages_scanned pages 15)) = Some e
                 /\ entry_page e = page)
    /\ (forall label page,
           In (label, page)
              [("1 Introduction", 3%Z); ("2 Basics of it", 20%Z)] ->
           exists e,
             In e (scanned_entries (pages_scanned pages 15))
             /\ label = (entry_number e ++ " " ++ entry_title e)%string
             /\ page = entry_page e
             /\ (5 < String.length (entry_title e))%nat
             /\ (1 < page)%Z)
    /\ NoDup (map fst [("1 Introduction", 3%Z); ("2 Basics of it", 20%Z)])
    /\ StronglySorted start_le
         [("1 Introduction", 3%Z); ("2 Basics of it", 20%Z)].
Proof.
  apply (toc_entries_are_filtered_first_and_sorted true
           (Opened Example.book) 15).
  vm_compute. reflexivity.
Defined.

Lemma keep_entries_none (entries : list toc_entry) (d : dict Z) :
  (forall e, In e entries -> acceptable e = false) ->
  fold_left keep_entry entries d = d.
Proof.
  revert d. induction entries as [|e rest IH]; intros d Hall; [reflexivity|].
  cbn [fold_left]. unfold keep_entry at 2.
  rewrite (Hall e (or_introl eq_refl)). cbn [andb].
  apply IH. intros x Hx. apply Hall. now right.
Qed.

(** C8, as the claim states it: what the extractor returns when it finds
    no entry could be told from what it returns on an error. Both are
    [None]. *)
Lemma toc_no_entries_returns_what_an_error_returns :
  snd (extract_chapters_from_toc true (Opened [Example.body]) 15) = None
  /\ snd (extract_chapters_from_toc true (Opened [Example.body]) 15)
     = snd (extract_chapters_from_toc true (Failed "file is encrypted") 15).
Proof. vm_compute. split; reflexivity. Qed.

(** C8, amended: when no line of the pages scanned gives an acceptable
    entry -- and only then -- the extractor prints its failure line and
    returns [None]; it returns the same [None] for a missing or unreadable
    file, after a line of its own for each, so the cases differ in the
    output alone; the loop over the pages never raises; and the script then
    leaves through [sys.exit], with its message, not through an
    exception. *)
Theorem toc_no_entries_is_none_with_its_own_line `{SizeNum}
    (pages : list page) (pages_to_scan : Z) :
  ((forall e,
       In e (scanned_entries (pages_scanned pages pages_to_scan)) ->
       acceptable e = false)
   <-> extract_chapters_from_toc true (Opened pages) pages_to_scan
       = ([TocAttempting pages_to_scan; TocFailed], None))
  /\ (exists d, toc_pages [] (pages_scanned pages pages_to_scan) = Ok d)
  /\ extract_chapters_from_toc true NotFound pages_to_scan
     = ([TocAttempting pages_to_scan; TocNotFound], None)
  /\ (forall e,
         extract_chapters_from_toc true (Failed e) pages_to_scan
         = ([TocAttempting pages_to_scan; TocError e], None))
  /\ ((forall e,
          In e (scanned_entries (pages_scanned pages 15)) ->
          acceptable e = false) ->
      forall (fs : filesystem) (input_pdf : reader) (path : string)
             (typed : list string),
        main fs true (Opened pages) input_pdf (path :: typed)
        = stop [TocAttempting 15; TocFailed; ExitTocFailed] Exited).
Proof.
  split; [|split; [|split; [|split]]].
  - unfold extract_chapters_from_toc. cbn [negb].
    rewrite toc_pages_entries.
    set (entries := scanned_entries (pages_scanned pages pages_to_scan)).
    split.
    + intros Hall. now rewrite keep_entries_none.
    + destruct (keep_entries_first entries [] [] (NoDup_nil _)) as [_ Hget].
      { intros label page. cbn. split; [discriminate|].
        intros (x & Hx & _). discriminate. }
      cbn [app] in Hget.
      destruct (fold_left keep_entry entries []) as [|it d] eqn:Ed;
        cbn [is_nil negb]; [|discriminate].
      intros _ e Hin. destruct (acceptable e) eqn:Ea; auto.
      destruct (first_accepted (entry_label e) entries) as [x|] eqn:Ef.
      * assert (Hsome : dict_get (entry_label e) (@nil (string * Z))
                        = Some (entry_page x)) by (apply Hget; eauto).
        discriminate.
      * unfold first_accepted in Ef.
        apply (find_none _ _ Ef) in Hin.
        now rewrite Ea, String.eqb_refl in Hin.
  - rewrite toc_pages_entries. eauto.
  - reflexivity.
  - reflexivity.
  - intros Hall fs input_pdf path typed. unfold main.
    unfold extract_chapters_from_toc. cbn [negb].
    rewrite toc_pages_entries, keep_entries_none by assumption.
    reflexivity.
Qed.

(** A document of one page of plain text. *)
Lemma toc_no_entries_is_none_with_its_own_line_witness :
  main writable true (Opened [Example.body]) (Reader 1) ["book.pdf"]
  = stop [TocAttempting 15; TocFailed; ExitTocFailed] Exited.
Proof.
  assert (Hnone : forall e,
             In e (scanned_entries (pages_scanned [Example.body] 15)) ->
             acceptable e = false)
    by (intros e Hin; vm_compute in Hin; contradiction).
  exact (proj2 (proj2 (proj2 (proj2
           (toc_no_entries_is_none_with_its_own_line [Example.body] 15))))
           Hnone writable (Reader 1) "book.pdf" []).
Defined.

(** ** The manual fallback *)

Lemma prompt_file_page_step (user_input : string) (rest : list string) :
  prompt_file_page (user_input :: rest)
  = match accepted_page user_input with
    | Some file_page => ([], Some (file_page, rest))
    | None =>
        let '(out, r) := prompt_file_page rest in
        (MainInvalidInput user_input :: out, r)
    end.
Proof.
  cbn [prompt_file_page]. unfold accepted_page.
  destruct (int_of_str (strip user_input)) as [file_page|]; [|reflexivity].
  destruct (Z.ltb file_page 1); reflexivity.
Qed.

(** The prompt comes back for every line that is not a whole number of 1
    or more, and takes the first line that is. *)
Lemma prompt_file_page_accepts (rejected : list string) (answer : string)
    (n : Z) (rest : list string) :
  Forall (fun l => accepted_page l = None) rejected ->
  accepted_page answer = Some n ->
  prompt_file_page (rejected ++ answer :: rest)
  = (map MainInvalidInput rejected, Some (n, rest)).
Proof.
  intros Hrej Hans. induction Hrej as [|l rejected Hl _ IH].
  - cbn [app map]. now rewrite prompt_file_page_step, Hans.
  - cbn [app map]. now rewrite prompt_file_page_step, Hl, IH.
Qed.

(** Without such a line the input runs out. *)
Lemma prompt_file_page_eof (rejected : list string) :
  Forall (fun l => accepted_page l = None) rejected ->
  prompt_file_page rejected = (map MainInvalidInput rejected, None).
Proof.
  induction 1 as [|l rejected Hl _ IH]; [reflexivity|].
  cbn [map]. now rewrite prompt_file_page_step, Hl, IH.
Qed.

Lemma accepted_page_positive (user_input : string) (n : Z) :
  accepted_page user_input = Some n ->
  int_of_str (strip user_input) = Some n /\ (1 <= n)%Z.
Proof.
  unfold accepted_page.
  destruct (int_of_str (strip user_input)) as [v|]; [|discriminate].
  destruct (Z.ltb v 1) eqn:E; [discriminate|].
  intros [= <-]. apply Z.ltb_ge in E. auto.
Qed.

(** C5, as the claim states it: the fallback would always need a page
    number from the user. For the first chapter [1 Error Handling] printed
    on page 3 it takes 27 without reading any input. *)
Lemma manual_fallback_answers_without_input :
  manual_fallback "1 Error Handling" 3 []
  = ([MainManualRequired (Some "1 Error Handling") 3;
      MainUsingProvided "1 Error Handling"; MainManualOffset 24],
     Some (24%Z, [])).
Proof. vm_compute. reflexivity. Qed.

(** C5, amended: unless the first chapter is [1 Error Handling] with
    printed page 3 (for which the built-in answer 27 is used without a
    prompt), the fallback reads lines until one is a whole number of 1 or
    more, printing a rejection for each line before it, and returns that
    number minus the printed page of the anchor; with no such line it gets
    no offset. The anchor is the first chapter when its title is known and
    its printed page is after page 1, and printed page 1 otherwise. A run
    whose scan failed goes through the fallback and splits with that
    offset. *)
Theorem manual_fallback_offset_from_typed_page `{SizeNum}
    (first_chapter_title : string) (first_chapter_printed_page : Z)
    (rejected : list string) (answer : string) (n : Z)
    (rest : list string) :
  let anchor := manual_anchor first_chapter_title
                  first_chapter_printed_page in
  provided_answer_applies first_chapter_title (snd anchor) = false ->
  Forall (fun l => accepted_page l = None) rejected ->
  accepted_page answer = Some n ->
  manual_fallback first_chapter_title first_chapter_printed_page
    (rejected ++ answer :: rest)
  = (MainManualRequired (fst anchor) (snd anchor)
     :: map MainInvalidInput rejected
     ++ [MainManualOffset (n - snd anchor)],
     Some ((n - snd anchor)%Z, rest))
  /\ int_of_str (strip answer) = Some n
  /\ (1 <= n)%Z
  /\ snd (manual_fallback first_chapter_title first_chapter_printed_page
            rejected) = None
  /\ snd anchor
     = (if (negb (is_empty first_chapter_title)
            && Z.ltb 1 first_chapter_printed_page)%bool
        then first_chapter_printed_page else 1%Z)
  /\ (forall (fs : filesystem) (pdfplumber : bool) (pdf : opened)
             (total_pages : nat) (out : list line) (more : dict Z)
             (path : string),
         extract_chapters_from_toc pdfplumber pdf 15
         = (out, Some ((first_chapter_title, first_chapter_printed_page)
                       :: more)) ->
         snd (find_offset_by_title_scan pdfplumber pdf first_chapter_title
                first_chapter_printed_page TOC_END_FILE_PAGE) = None ->
         let r := main fs pdfplumber pdf (Reader total_pages)
                    (path :: rejected ++ answer :: rest) in
         run_ending r = Finished
         /\ In (MainManualOffset (n - snd anchor))
               (printed (run_effects r))
         /\ written (run_effects r)
            = written (split_with_offset fs total_pages
                         ((first_chapter_title, first_chapter_printed_page)
                          :: more)
                         (n - snd anchor))).
Proof.
  intros anchor Hnot Hrej Hans.
  assert (Hfall : manual_fallback first_chapter_title
                    first_chapter_printed_page (rejected ++ answer :: rest)
                  = (MainManualRequired (fst anchor) (snd anchor)
                     :: map MainInvalidInput rejected
                     ++ [MainManualOffset (n - snd anchor)],
                     Some ((n - snd anchor)%Z, rest))).
  { unfold manual_fallback. fold anchor.
    destruct anchor as [anchor_chapter anchor_printed_page].
    cbn [fst snd] in *. rewrite Hnot.
    now rewrite (prompt_file_page_accepts rejected answer n rest). }
  destruct (accepted_page_positive answer n Hans) as [Hint Hpos].
  split; [exact Hfall|]. split; [exact Hint|]. split; [exact Hpos|].
  split.
  { unfold manual_fallback. fold anchor.
    destruct anchor as [anchor_chapter anchor_printed_page].
    cbn [fst snd] in *. rewrite Hnot.
    now rewrite (prompt_file_page_eof rejected). }
  split.
  { unfold anchor, manual_anchor, FIRST_PRINTED_PAGE_NUMBER.
    now destruct (negb (is_empty first_chapter_title)
                  && Z.ltb 1 first_chapter_printed_page)%bool. }
  intros fs pdfplumber pdf total_pages out more path Hext Hscan.
  cbv zeta. unfold main. rewrite Hext.
  destruct (find_offset_by_title_scan pdfplumber pdf first_chapter_title
              first_chapter_printed_page TOC_END_FILE_PAGE) as [out1 r1].
  cbn [snd] in Hscan. subst r1. rewrite Hfall.
  cbn [run_ending run_effects printed written].
  repeat split.
  apply in_app_iff. right. apply in_app_iff. left.
  apply in_app_iff. right. right. right.
  apply in_app_iff. left. apply in_app_iff. right. now left.
Qed.

(** The small book cut after its part title, so that the scan fails: two
    rejected lines, then the page number 27 for the chapter printed on
    page 3. *)
Lemma manual_fallback_offset_from_typed_page_witness :
  manual_fallback "1 Introduction" 3 (["x"; "0"] ++ " 27 " :: [])
  = (MainManualRequired (Some "1 Introduction") 3
     :: map MainInvalidInput ["x"; "0"]
     ++ [MainManualOffset (27 - 3)],
     Some ((27 - 3)%Z, []))
  /\ run_ending
       (main writable true (Opened (firstn 20 Example.book)) (Reader 45)
          ("book.pdf" :: ["x"; "0"] ++ " 27 " :: []))
     = Finished.
Proof.
  destruct (@manual_fallback_offset_from_typed_page PyFloat "1 Introduction" 3
              ["x"; "0"] " 27 " 27 [] eq_refl
              ltac:(repeat constructor) eq_refl)
    as (Hfall & _ & _ & _ & _ & Hmain).
  split; [exact Hfall|].
  assert (Hextract :
            extract_chapters_from_toc true (Opened (firstn 20 Example.book))
              15
            = ([TocAttempting 15; TocSuccess 2],
               Some [("1 Introduction", 3%Z); ("2 Basics of it", 20%Z)]))
    by (vm_compute; reflexivity).
  assert (Hscan :
            snd (find_offset_by_title_scan true
                   (Opened (firstn 20 Example.book)) "1 Introduction" 3
                   TOC_END_FILE_PAGE) = None)
    by (vm_compute; reflexivity).
  exact (proj1 (Hmain writable true (Opened (firstn 20 Example.book))
                  45%nat
                  [TocAttempting 15; TocSuccess 2]
                  [("2 Basics of it", 20%Z)] "book.pdf" Hextract Hscan)).
Defined.

(** ** The last chapter of a run *)

(** What the extractor returns has distinct labels and is in the order of
    the printed pages, so that sorting it again changes nothing. *)
Lemma extract_chapters_well_formed `{SizeNum} (pdfplumber : bool)
    (pdf : opened) (pages_to_scan : Z) (chapters : dict Z) :
  snd (extract_chapters_from_toc pdfplumber pdf pages_to_scan)
  = Some chapters ->
  NoDup (map fst chapters) /\ StronglySorted start_le chapters.
Proof.
  unfold extract_chapters_from_toc.
  destruct pdfplumber; cbn [negb]; [|discriminate].
  destruct pdf as [pages| |e]; try discriminate.
  rewrite toc_pages_entries.
  set (d := fold_left keep_entry
              (scanned_entries (pages_scanned pages pages_to_scan)) []).
  destruct (keep_entries_first
              (scanned_entries (pages_scanned pages pages_to_scan)) [] []
              (NoDup_nil _)) as [Hnd _].
  { intros label page. cbn. split; [discriminate|].
    intros (x & Hx & _). discriminate. }
  fold d in Hnd.
  destruct (is_nil d); cbn [negb snd]; [discriminate|].
  intros [= <-]. split.
  - eapply Permutation_NoDup; [|exact Hnd].
    apply Permutation_map. symmetry. apply sorted_perm.
  - apply (sorted_ordered snd d).
Qed.

Lemma sorted_of_ordered (l : list (string * Z)) :
  StronglySorted start_le l -> sorted snd l = l.
Proof.
  induction 1 as [|x r Hr IH Hx]; [reflexivity|].
  cbn [sorted]. rewrite IH. destruct r as [|y r']; [reflexivity|].
  cbn [insert_sorted]. inversion Hx as [|? ? Hxy _]; subst.
  unfold start_le in Hxy. apply Z.leb_le in Hxy. now rewrite Hxy.
Qed.

(** A run that reaches the end of the script has split the document with
    the offset it printed, from the chapter starts the extractor
    returned. *)
Lemma main_finished_splits `{SizeNum} (fs : filesystem) (pdfplumber : bool)
    (pdf : opened) (total_pages : nat) (stdin : list string)
    (chapter_starts : dict Z) :
  snd (extract_chapters_from_toc pdfplumber pdf 15) = Some chapter_starts ->
  run_ending (main fs pdfplumber pdf (Reader total_pages) stdin)
  = Finished ->
  exists page_offset,
    In (MainFinalOffset page_offset)
       (printed (run_effects
                   (main fs pdfplumber pdf (Reader total_pages) stdin)))
    /\ written (run_effects
                  (main fs pdfplumber pdf (Reader total_pages) stdin))
       = written (split_with_offset fs total_pages chapter_starts
                    page_offset).
Proof.
  unfold main. destruct stdin as [|path typed]; [discriminate|].
  destruct (extract_chapters_from_toc pdfplumber pdf 15) as [out starts].
  cbn [snd]. intros ->.
  destruct chapter_starts as [|[title page] more]; [discriminate|].
  destruct (find_offset_by_title_scan pdfplumber pdf title page
              TOC_END_FILE_PAGE) as [out1 [[page_offset file_page]|]].
  - intros _. exists page_offset. split; [|reflexivity].
    cbn [run_effects printed split_with_offset].
    apply in_app_iff. right. apply in_app_iff. right. right. now left.
  - destruct (manual_fallback title page typed)
      as [out2 [[page_offset rest]|]]; [|discriminate].
    intros _. exists page_offset. split; [|reflexivity].
    cbn [run_effects printed split_with_offset].
    apply in_app_iff. right. apply in_app_iff. right. right. now left.
Qed.

(** C10: the last printed page is the number of physical pages minus the
    offset, so the range of the last chapter, whenever the mapper keeps
    one, is projected onto a file range that ends exactly on the last
    physical page. The bounds check can then reject it only for a
    [file_start] below 1; the chapter has no range at all only when its
    [file_start] lies beyond the last physical page; and with [file_start]
    within the document the chapter is written, up to the last page, when
    no write fails. Every run that reaches the splitter does so through
    these steps, with the offset it printed. *)
Theorem last_chapter_ends_on_last_physical_page (fs : filesystem)
    (chapter_starts : dict Z)
    (earlier : list (string * Z)) (title : string) (start : Z)
    (total_pages : nat) (page_offset : Z) :
  NoDup (map fst chapter_starts) ->
  sorted snd chapter_starts = earlier ++ [(title, start)] ->
  let last_printed_page := (Z.of_nat total_pages - page_offset)%Z in
  let file_chapter_map :=
    project_ranges page_offset
      (map_starts_to_ranges chapter_starts last_printed_page) in
  let e := split_with_offset fs total_pages chapter_starts page_offset in
  (forall file_start file_end,
      dict_get title file_chapter_map = Some (file_start, file_end) ->
      file_start = (start + page_offset)%Z
      /\ file_end = Z.of_nat total_pages
      /\ Z.ltb (Z.of_nat total_pages) file_end = false
      /\ (invalid_range total_pages file_start file_end = true
          <-> (file_start < 1)%Z))
  /\ (dict_get title file_chapter_map = None
      <-> (Z.of_nat total_pages < start + page_offset)%Z)
  /\ (every_write_succeeds fs ->
      (1 <= start + page_offset <= Z.of_nat total_pages)%Z ->
      In (output_path title,
          range (start + page_offset - 1) (Z.of_nat total_pages))
         (written e))
  /\ (every_write_succeeds fs ->
      (start + page_offset < 1)%Z ->
      In (SplitWarningSkipping title (start + page_offset)%Z
            (Z.of_nat total_pages))
         (printed e))
  /\ (forall (sizes : SizeNum) (pdfplumber : bool) (pdf : opened)
             (stdin : list string),
         snd (extract_chapters_from_toc pdfplumber pdf 15)
         = Some chapter_starts ->
         run_ending (main fs pdfplumber pdf (Reader total_pages) stdin)
         = Finished ->
         NoDup (map fst chapter_starts)
         /\ sorted snd chapter_starts = chapter_starts
         /\ exists offset_used,
           In (MainFinalOffset offset_used)
              (printed (run_effects
                          (main fs pdfplumber pdf (Reader total_pages)
                             stdin)))
           /\ written (run_effects
                         (main fs pdfplumber pdf (Reader total_pages)
                            stdin))
              = written (split_with_offset fs total_pages chapter_starts
                           offset_used)).
Proof.
  intros Hnd Es last_printed_page file_chapter_map e.
  pose proof (last_chapter_file_range chapter_starts earlier title start
                last_printed_page page_offset Hnd Es) as Hget.
  fold file_chapter_map in Hget.
  assert (Hend : (last_printed_page + page_offset = Z.of_nat total_pages)%Z)
    by (unfold last_printed_page; lia).
  rewrite Hend in Hget.
  assert (Heff : every_write_succeeds fs ->
                 printed e =
                 MainChapterList
                   (map_starts_to_ranges chapter_starts last_printed_page)
                 :: MainFinalOffset page_offset
                 :: SplitStarting :: SplitTotalPages total_pages
                 :: flat_map
                      (chapter_lines total_pages
                         (map_starts_to_ranges chapter_starts
                            last_printed_page)) file_chapter_map
                    ++ [SplitComplete]
                 /\ written e =
                    flat_map (chapter_files total_pages) file_chapter_map).
  { intros Hfs. unfold e, split_with_offset, split_pdf_by_chapters.
    fold last_printed_page. fold file_chapter_map.
    rewrite (split_chapters_all _ _ _ _ _ Hfs). split; reflexivity. }
  repeat split.
  - rewrite Hget in H. destruct (Z.leb start last_printed_page);
      [now injection H as <- <-|discriminate].
  - rewrite Hget in H. destruct (Z.leb start last_printed_page);
      [now injection H as <- <-|discriminate].
  - rewrite Hget in H. destruct (Z.leb start last_printed_page);
      [injection H as <- <-; apply Z.ltb_irrefl|discriminate].
  - rewrite Hget in H. destruct (Z.leb start last_printed_page) eqn:E;
      [injection H as <- <-|discriminate].
    apply Z.leb_le in E. intros Hinv.
    apply invalid_range_spec in Hinv. unfold last_printed_page in E. lia.
  - intros Hlt. apply invalid_range_spec. now left.
  - rewrite Hget. destruct (Z.leb start last_printed_page) eqn:E;
      [discriminate|]. intros _. apply Z.leb_gt in E.
    unfold last_printed_page in E. lia.
  - intros Hlt. rewrite Hget.
    destruct (Z.leb start last_printed_page) eqn:E; auto.
    apply Z.leb_le in E. unfold last_printed_page in E. lia.
  - intros Hfs Hin. destruct (Heff Hfs) as [_ Hwritten].
    rewrite Hwritten. apply in_flat_map.
    exists (title, ((start + page_offset)%Z, Z.of_nat total_pages)). split.
    + apply dict_get_In. rewrite Hget.
      assert (E : Z.leb start last_printed_page = true)
        by (apply Z.leb_le; unfold last_printed_page; lia).
      now rewrite E.
    + assert (Ev : invalid_range total_pages (start + page_offset)
                     (Z.of_nat total_pages) = false)
        by (apply valid_range_spec; lia).
      unfold chapter_files. rewrite Ev. now left.
  - intros Hfs Hlt. destruct (Heff Hfs) as [Hprinted _].
    rewrite Hprinted.
    right. right. right. right. apply in_app_iff. left. apply in_flat_map.
    exists (title, ((start + page_offset)%Z, Z.of_nat total_pages)). split.
    + apply dict_get_In. rewrite Hget.
      assert (E : Z.leb start last_printed_page = true)
        by (apply Z.leb_le; unfold last_printed_page; lia).
      now rewrite E.
    + assert (Ev : invalid_range total_pages (start + page_offset)
                     (Z.of_nat total_pages) = true)
        by (apply invalid_range_spec; lia).
      unfold chapter_lines. rewrite Ev. now left.
  - destruct (extract_chapters_well_formed _ _ _ _ H). assumption.
  - destruct (extract_chapters_well_formed _ _ _ _ H).
    now apply sorted_of_ordered.
  - now apply main_finished_splits.
Qed.

(** The small book: 45 pages, offset 24, the last chapter starts on printed
    page 20 and is written from file page 44 to file page 45. *)
Lemma last_chapter_ends_on_last_physical_page_witness :
  In (output_path "2 Basics of it", range (20 + 24 - 1) (Z.of_nat 45))
     (written (split_with_offset writable 45
                 [("1 Introduction", 3%Z); ("2 Basics of it", 20%Z)] 24)).
Proof.
  apply (last_chapter_ends_on_last_physical_page writable
           [("1 Introduction", 3%Z); ("2 Basics of it", 20%Z)]
           [("1 Introduction", 3%Z)] "2 Basics of it" 20 45 24).
  - repeat constructor; cbn; intuition discriminate.
  - reflexivity.
  - intros files path pages. reflexivity.
  - lia.
Defined.
(* ===================================================================== *)
(** * Further properties *)
(* ===================================================================== *)

(** ** Stripping *)

Lemma lstrip_idempotent (s : string) : lstrip (lstrip s) = lstrip s.
Proof.
  induction s as [|c s IH]; cbn [lstrip]; auto.
  destruct (isspace c) eqn:E; auto. cbn [lstrip]. now rewrite E.
Qed.

Lemma rstrip_idempotent (s : string) : rstrip (rstrip s) = rstrip s.
Proof.
  induction s as [|c s IH]; cbn [rstrip]; auto.
  destruct (isspace c && is_empty (rstrip s))%bool eqn:E; auto.
  cbn [rstrip]. now rewrite IH, E.
Qed.

(** [rstrip] keeps a first character that is not whitespace. *)
Lemma lstrip_rstrip (s : string) :
  lstrip s = s -> lstrip (rstrip s) = rstrip s.
Proof.
  destruct s as [|c s]; auto. cbn [lstrip rstrip].
  destruct (isspace c) eqn:E.
  - intros Hl. exfalso.
    assert (Hlen : (String.length (lstrip s) <= String.length s)%nat).
    { clear. induction s as [|d s IH]; cbn [lstrip]; auto.
      destruct (isspace d); cbn [String.length]; lia. }
    rewrite Hl in Hlen. cbn in Hlen. lia.
  - intros _. cbn [andb lstrip]. now rewrite E.
Qed.

(** A stripped string has no whitespace left to strip. *)
Lemma strip_idempotent (s : string) : strip (strip s) = strip s.
Proof.
  unfold strip.
  rewrite (lstrip_rstrip (lstrip s) (lstrip_idempotent s)).
  apply rstrip_idempotent.
Qed.

Lemma all_str_app (p : ascii -> bool) (a b : string) :
  all_str p (a ++ b) = (all_str p a && all_str p b)%bool.
Proof.
  induction a as [|c a IH]; cbn [all_str append]; auto.
  now rewrite IH, andb_assoc.
Qed.

Lemma all_str_lstrip (p : ascii -> bool) (s : string) :
  all_str p s = true -> all_str p (lstrip s) = true.
Proof.
  induction s as [|c s IH]; cbn [lstrip]; auto.
  destruct (isspace c); auto. cbn [all_str].
  intros Hs. apply andb_true_iff in Hs as [_ Hs]. auto.
Qed.

Lemma all_str_rstrip (p : ascii -> bool) (s : string) :
  all_str p s = true -> all_str p (rstrip s) = true.
Proof.
  induction s as [|c s IH]; cbn [rstrip]; auto.
  cbn [all_str]. intros Hs. apply andb_true_iff in Hs as [Hc Hs].
  destruct (isspace c && is_empty (rstrip s))%bool; auto.
  cbn [all_str]. now rewrite Hc, IH.
Qed.

(** Stripping keeps what holds of every character. *)
Lemma all_str_strip (p : ascii -> bool) (s : string) :
  all_str p s = true -> all_str p (strip s) = true.
Proof. intros Hs. now apply all_str_rstrip, all_str_lstrip. Qed.

(** A string without whitespace is left as it is. *)
Lemma strip_no_space (s : string) :
  all_str (fun c => negb (isspace c)) s = true -> strip s = s.
Proof.
  intros Hs. unfold strip.
  assert (Hl : lstrip s = s).
  { destruct s as [|c s]; auto. cbn in Hs |- *.
    apply andb_true_iff in Hs as [Hc _].
    apply negb_true_iff in Hc. now rewrite Hc. }
  rewrite Hl. clear Hl.
  induction s as [|c s IH]; auto. cbn in Hs. cbn [rstrip].
  apply andb_true_iff in Hs as [Hc Hs]. apply negb_true_iff in Hc.
  now rewrite Hc, IH.
Qed.

(** ** The dump of the table of contents *)

Section TocTextFacts.
Context `{SizeNum}.

Lemma toc_text_loop_sections (pages : list page) (indices : list nat) :
  (forall i, In i indices -> (i < List.length pages)%nat) ->
  forall full_toc_text,
    toc_text_loop pages indices full_toc_text
    = Ok (full_toc_text
          ++ fold_right (fun i t => (toc_section pages i ++ t)%string)
               EmptyString indices)%string.
Proof.
  induction indices as [|i rest IH]; intros Hin acc.
  - cbn. now rewrite string_app_nil_r.
  - cbn [toc_text_loop fold_right]. unfold toc_section at 1.
    destruct (nth_error pages i) as [p|] eqn:Ep.
    2:{ apply nth_error_None in Ep. specialize (Hin i (or_introl eq_refl)).
        lia. }
    rewrite IH by (intros j Hj; apply Hin; now right).
    destruct (is_empty (page_text p)); [reflexivity|].
    now rewrite !string_app_assoc.
Qed.

Lemma toc_indices_in_bounds (pages : list page) (s e : Z) (i : nat) :
  (1 <= s)%Z -> (e <= Z.of_nat (List.length pages))%Z ->
  In i (map Z.to_nat (range (s - 1) e)) ->
  (Z.to_nat (s - 1) <= i < Z.to_nat e)%nat /\ (i < List.length pages)%nat.
Proof.
  intros Hs He Hin. apply in_map_iff in Hin as (z & <- & Hz).
  apply in_range_iff in Hz. lia.
Qed.

(** X1: a range that starts before file page 1 or ends after the last page
    gives the warning and nothing else; any other range gives the sections
    of its pages that have text, in order, stripped as a whole; the loop
    raises for no range. *)
Theorem get_toc_text_bounds (pdf_path : string) (pages : list page)
    (start_file_page end_file_page : Z) :
  get_toc_text true pdf_path (Opened pages) start_file_page end_file_page
  = if (Z.ltb start_file_page 1
        || Z.ltb (Z.of_nat (List.length pages)) end_file_page)%bool
    then toc_text_out_of_bounds start_file_page end_file_page
           (List.length pages)
    else strip (fold_right
                  (fun i t => (toc_section pages i ++ t)%string)
                  EmptyString
                  (map Z.to_nat (range (start_file_page - 1) end_file_page))).
Proof.
  unfold get_toc_text. cbn [negb].
  replace (Z.ltb (start_file_page - 1) 0) with (Z.ltb start_file_page 1)
    by (destruct (Z.ltb_spec start_file_page 1),
                 (Z.ltb_spec (start_file_page - 1) 0); auto; lia).
  destruct (Z.ltb start_file_page 1) eqn:Es; [reflexivity|].
  destruct (Z.ltb (Z.of_nat (List.length pages)) end_file_page) eqn:Ee;
    [reflexivity|].
  cbn [orb]. apply Z.ltb_ge in Es, Ee.
  rewrite toc_text_loop_sections; [reflexivity|].
  intros i Hi.
  now apply (toc_indices_in_bounds pages _ _ i Es Ee) in Hi.
Qed.

Lemma toc_sections_ext (pages pages' : list page) (indices : list nat) :
  (forall i, In i indices -> nth_error pages' i = nth_error pages i) ->
  fold_right (fun i t => (toc_section pages' i ++ t)%string) EmptyString
    indices
  = fold_right (fun i t => (toc_section pages i ++ t)%string) EmptyString
      indices.
Proof.
  induction indices as [|i rest IH]; intros Hsame; [reflexivity|].
  cbn [fold_right]. unfold toc_section at 1 3.
  rewrite (Hsame i (or_introl eq_refl)), IH; auto.
  intros j Hj. apply Hsame. now right.
Qed.

(** X2: the dump depends on no page outside the range asked for, and when
    the range lies within the document it has no whitespace at either
    end. *)
Theorem get_toc_text_reads_only_its_range (pdfplumber : bool)
    (pdf_path : string) (pages pages' : list page)
    (start_file_page end_file_page : Z) :
  List.length pages' = List.length pages ->
  (forall i : nat,
      (start_file_page - 1 <= Z.of_nat i < end_file_page)%Z ->
      nth_error pages' i = nth_error pages i) ->
  get_toc_text pdfplumber pdf_path (Opened pages') start_file_page
    end_file_page
  = get_toc_text pdfplumber pdf_path (Opened pages) start_file_page
      end_file_page
  /\ ((1 <= start_file_page)%Z ->
      (end_file_page <= Z.of_nat (List.length pages))%Z ->
      strip (get_toc_text true pdf_path (Opened pages) start_file_page
               end_file_page)
      = get_toc_text true pdf_path (Opened pages) start_file_page
          end_file_page).
Proof.
  intros Hlen Hsame. split.
  - destruct pdfplumber; [|reflexivity].
    rewrite !get_toc_text_bounds, Hlen.
    destruct (Z.ltb start_file_page 1) eqn:Es; [reflexivity|].
    destruct (Z.ltb (Z.of_nat (List.length pages)) end_file_page) eqn:Ee;
      [reflexivity|].
    cbn [orb]. apply Z.ltb_ge in Es, Ee. f_equal.
    apply toc_sections_ext. intros i Hi.
    apply (toc_indices_in_bounds pages _ _ i Es Ee) in Hi.
    apply Hsame. lia.
  - intros Hs He. rewrite get_toc_text_bounds.
    apply Z.ltb_ge in Hs, He. rewrite Hs, He. cbn [orb].
    apply strip_idempotent.
Qed.

End TocTextFacts.

(** The small book with its last page changed: the dump of the file pages
    5 to 8 is the same. *)
Lemma get_toc_text_reads_only_its_range_witness :
  get_toc_text true "book.pdf"
    (Opened (firstn 44 Example.book ++ [Example.blank])) 5 8
  = get_toc_text true "book.pdf" (Opened Example.book) 5 8
  /\ ((1 <= 5)%Z -> (8 <= Z.of_nat (List.length Example.book))%Z ->
      strip (get_toc_text true "book.pdf" (Opened Example.book) 5 8)
      = get_toc_text true "book.pdf" (Opened Example.book) 5 8).
Proof.
  apply (get_toc_text_reads_only_its_range true "book.pdf" Example.book
           (firstn 44 Example.book ++ [Example.blank]) 5 8).
  - reflexivity.
  - intros i Hi.
    assert (Hcases : (i = 4 \/ i = 5 \/ i = 6 \/ i = 7)%nat) by lia.
    destruct Hcases as [Hi'|[Hi'|[Hi'|Hi']]]; subst i; reflexivity.
Defined.
(** ** More on the extractor *)

Lemma firstn_min_length {A} (n : nat) (l : list A) :
  firstn (Nat.min n (List.length l)) l = firstn n l.
Proof.
  destruct (Nat.le_ge_cases n (List.length l)) as [Hle|Hge].
  - now rewrite Nat.min_l.
  - rewrite Nat.min_r by assumption.
    now rewrite !firstn_all2 by lia.
Qed.

Section ExtractorMore.
Context `{SizeNum}.

Lemma pages_scanned_firstn (pages : list page) (pages_to_scan : Z) :
  pages_scanned pages pages_to_scan = firstn (Z.to_nat pages_to_scan) pages.
Proof.
  unfold pages_scanned.
  replace (Z.to_nat (Z.min pages_to_scan (Z.of_nat (List.length pages))))
    with (Nat.min (Z.to_nat pages_to_scan) (List.length pages)) by lia.
  apply firstn_min_length.
Qed.

(** X3: the extractor reads the first [pages_to_scan] pages and no other:
    two documents with the same first pages give the same lines and the
    same chapters, however they go on. *)
Theorem extract_reads_only_first_pages (pdfplumber : bool)
    (pages pages' : list page) (pages_to_scan : Z) :
  firstn (Z.to_nat pages_to_scan) pages'
  = firstn (Z.to_nat pages_to_scan) pages ->
  extract_chapters_from_toc pdfplumber (Opened pages') pages_to_scan
  = extract_chapters_from_toc pdfplumber (Opened pages) pages_to_scan.
Proof.
  intros Hsame. unfold extract_chapters_from_toc.
  now rewrite !pages_scanned_firstn, Hsame.
Qed.

(** The entries of a returned mapping, as in the proof of the order of the
    mapping: each comes from an acceptable entry matched on the pages. *)
Lemma extract_chapters_entries (pdfplumber : bool) (pdf : opened)
    (pages_to_scan : Z) (chapters : dict Z) :
  snd (extract_chapters_from_toc pdfplumber pdf pages_to_scan)
  = Some chapters ->
  chapters <> []
  /\ exists pages,
       pdf = Opened pages
       /\ forall label page,
            In (label, page) chapters ->
            exists e,
              In e (scanned_entries (pages_scanned pages pages_to_scan))
              /\ acceptable e = true
              /\ label = entry_label e /\ page = entry_page e.
Proof.
  unfold extract_chapters_from_toc.
  destruct pdfplumber; cbn [negb]; [|discriminate].
  destruct pdf as [pages| |e]; try discriminate.
  rewrite toc_pages_entries.
  set (entries := scanned_entries (pages_scanned pages pages_to_scan)).
  destruct (keep_entries_first entries [] [] (NoDup_nil _)) as [Hnd Hget].
  { intros label page. cbn. split; [discriminate|].
    intros (x & Hx & _). discriminate. }
  cbn [app] in Hget.
  set (d := fold_left keep_entry entries []) in *.
  destruct (is_nil d) eqn:En; cbn [negb snd]; [discriminate|].
  intros [= <-]. split.
  - intros Hnil.
    assert (Hlen : List.length (sorted snd d) = 0%nat) by now rewrite Hnil.
    rewrite sorted_length in Hlen.
    destruct d; [discriminate En|discriminate Hlen].
  - exists pages. split; [reflexivity|]. intros label page Hin.
    apply sorted_In in Hin. apply dict_get_NoDup in Hin; [|exact Hnd].
    apply Hget in Hin as (e & He & <-).
    apply first_accepted_some in He as (Hine & Hacc & <-).
    exists e. auto.
Qed.

(** What the pattern makes of a line: a numeral of digits and dots, and a
    title on one line, both stripped. *)
Lemma toc_match_entry_format (prev : option ascii) (s : string)
    (groups : list string) (after : string) (e : toc_entry) :
  match_here true toc_pattern_numbered prev s = Some (groups, after) ->
  parse_entry groups = Some e ->
  all_str digit_or_dot (entry_number e) = true
  /\ (1 <= String.length (entry_number e))%nat
  /\ all_str dot (entry_title e) = true
  /\ strip (entry_title e) = entry_title e.
Proof.
  intros Hm Hp. apply match_here_groups in Hm.
  unfold toc_pattern_numbered in Hm. cbn [filter] in Hm.
  inversion Hm as [|? g1 ? l1 H1 Hm1]; subst.
  inversion Hm1 as [|? g2 ? l2 H2 Hm2]; subst.
  inversion Hm2 as [|? g3 ? l3 H3 Hm3]; subst.
  inversion Hm3; subst. cbn in H1, H2.
  destruct H1 as [Hg1 Hlen1]. destruct H2 as [Hg2 _].
  unfold parse_entry in Hp.
  destruct (int_of_str g3) as [page|]; [|discriminate].
  injection Hp as <-. cbn [entry_number entry_title].
  assert (Hns : strip g1 = g1).
  { apply strip_no_space. clear - Hg1.
    induction g1 as [|c g1 IH]; auto. cbn in Hg1 |- *.
    apply andb_true_iff in Hg1 as [Hc Hg1]. rewrite IH by assumption.
    rewrite andb_true_r. apply negb_true_iff.
    unfold digit_or_dot in Hc. apply orb_true_iff in Hc as [Hc|Hc].
    - now apply isdecimal_not_space.
    - apply Ascii.eqb_eq in Hc. now subst c. }
  rewrite Hns. repeat split; auto.
  - now apply all_str_strip.
  - apply strip_idempotent.
Qed.

Lemma scanned_entries_format (pages : list page) (e : toc_entry) :
  In e (scanned_entries pages) ->
  all_str digit_or_dot (entry_number e) = true
  /\ (1 <= String.length (entry_number e))%nat
  /\ all_str dot (entry_title e) = true
  /\ strip (entry_title e) = entry_title e.
Proof.
  unfold scanned_entries. intros Hin.
  apply in_flat_map in Hin as (groups & Hg & He).
  apply in_flat_map in Hg as (p & _ & Hg).
  unfold page_matches in Hg.
  destruct (is_empty (page_text p)); [contradiction|].
  apply finditer_from_matches in Hg as (prev & s & after & Hm).
  destruct (parse_entry groups) as [e'|] eqn:Ep; [|contradiction].
  destruct He as [<-|[]].
  exact (toc_match_entry_format prev s groups after e' Hm Ep).
Qed.

(** X4: a mapping returned by the extractor is never empty, and each of its
    labels is a numeral of digits and dots, one blank, and a title of more
    than 5 characters that holds no line break and has no whitespace at
    either end; its page is greater than 1. *)
Theorem extracted_labels_are_numbered_titles (pdfplumber : bool)
    (pdf : opened) (pages_to_scan : Z) (chapters : dict Z) :
  snd (extract_chapters_from_toc pdfplumber pdf pages_to_scan)
  = Some chapters ->
  chapters <> []
  /\ forall label page,
       In (label, page) chapters ->
       (1 < page)%Z
       /\ exists number title,
            label = (number ++ " " ++ title)%string
            /\ all_str digit_or_dot number = true
            /\ (1 <= String.length number)%nat
            /\ all_str dot title = true
            /\ strip title = title
            /\ (5 < String.length title)%nat.
Proof.
  intros Hsome.
  destruct (extract_chapters_entries _ _ _ _ Hsome)
    as (Hne & pages & _ & Hin).
  split; [exact Hne|]. intros label page Hl.
  destruct (Hin label page Hl) as (e & He & Hacc & -> & ->).
  destruct (scanned_entries_format _ e He) as (Hn & Hlen & Ht & Hs).
  unfold acceptable in Hacc. apply andb_true_iff in Hacc as [Hlt Hp].
  apply Nat.ltb_lt in Hlt. apply Z.ltb_lt in Hp.
  split; [exact Hp|].
  exists (entry_number e), (entry_title e). repeat split; auto.
Qed.

Lemma append_not_empty_r (a b : string) :
  is_empty b = false -> is_empty (a ++ b) = false.
Proof. destruct a; auto. Qed.

(** With the first chapter of the extractor the anchor is that chapter,
    which is the one with the least printed page. *)
Lemma first_chapter_anchor (pdfplumber : bool) (pdf : opened)
    (pages_to_scan : Z) (first_chapter_title : string)
    (first_chapter_printed_page : Z) (more : dict Z) :
  snd (extract_chapters_from_toc pdfplumber pdf pages_to_scan)
  = Some ((first_chapter_title, first_chapter_printed_page) :: more) ->
  manual_anchor first_chapter_title first_chapter_printed_page
  = (Some first_chapter_title, first_chapter_printed_page)
  /\ forall title page,
       In (title, page) more -> (first_chapter_printed_page <= page)%Z.
Proof.
  intros Hsome.
  destruct (extract_chapters_entries _ _ _ _ Hsome)
    as (_ & pages & _ & Hin).
  destruct (Hin _ _ (or_introl eq_refl)) as (e & _ & Hacc & Hl & Hp).
  destruct (extract_chapters_well_formed _ _ _ _ Hsome) as [_ Hord].
  split.
  - unfold manual_anchor, FIRST_PRINTED_PAGE_NUMBER.
    unfold acceptable in Hacc. apply andb_true_iff in Hacc as [_ Hacc].
    rewrite <- Hp in Hacc. rewrite Hacc, Hl.
    unfold entry_label. now rewrite append_not_empty_r.
  - intros title page Hmore.
    inversion Hord as [|? ? _ Hhd]; subst.
    rewrite Forall_forall in Hhd. exact (Hhd _ Hmore).
Qed.
End ExtractorMore.

(** The chapters of the small book. *)
Lemma extracted_labels_are_numbered_titles_witness :
  [("1 Introduction", 3%Z); ("2 Basics of it", 20%Z)] <> []
  /\ forall label page,
       In (label, page) [("1 Introduction", 3%Z); ("2 Basics of it", 20%Z)] ->
       (1 < page)%Z
       /\ exists number title,
            label = (number ++ " " ++ title)%string
            /\ all_str digit_or_dot number = true
            /\ (1 <= String.length number)%nat
            /\ all_str dot title = true
            /\ strip title = title
            /\ (5 < String.length title)%nat.
Proof.
  apply (extracted_labels_are_numbered_titles true (Opened Example.book) 15).
  vm_compute. reflexivity.
Defined.

(** The small book and its first fifteen pages alone. *)
Lemma extract_reads_only_first_pages_witness :
  extract_chapters_from_toc true (Opened (firstn 15 Example.book)) 15
  = extract_chapters_from_toc true (Opened Example.book) 15.
Proof.
  apply (extract_reads_only_first_pages true Example.book
           (firstn 15 Example.book) 15).
  reflexivity.
Defined.
(** ** The search key *)

Lemma split_from_word (w s cur : string) :
  all_str (fun c => negb (isspace c)) w = true ->
  split_from cur (w ++ s) = split_from (cur ++ w) s.
Proof.
  revert cur. induction w as [|c w IH]; intros cur Hw.
  - cbn. now rewrite string_app_nil_r.
  - cbn in Hw. apply andb_true_iff in Hw as [Hc Hw].
    apply negb_true_iff in Hc. cbn [append split_from]. rewrite Hc.
    rewrite IH by assumption. now rewrite string_app_assoc.
Qed.

Lemma split_from_not_nil (s cur : string) :
  is_empty cur = false -> split_from cur s <> [].
Proof.
  revert cur. induction s as [|c s IH]; intros cur Hcur; cbn [split_from].
  - rewrite Hcur. discriminate.
  - destruct (isspace c).
    + rewrite Hcur. discriminate.
    + apply IH. now destruct cur.
Qed.

(** The words [split] returns are not empty and hold no whitespace. *)
Lemma split_from_words (s cur : string) :
  all_str (fun c => negb (isspace c)) cur = true ->
  Forall (fun w => is_empty w = false
                   /\ all_str (fun c => negb (isspace c)) w = true)
         (split_from cur s).
Proof.
  revert cur. induction s as [|c s IH]; intros cur Hcur; cbn [split_from].
  - destruct (is_empty cur) eqn:E; repeat constructor; auto.
  - destruct (isspace c) eqn:Ec.
    + destruct (is_empty cur) eqn:E; [now apply IH|].
      constructor; [auto|now apply IH].
    + apply IH. rewrite all_str_app, Hcur. cbn. now rewrite Ec.
Qed.

(** Joining words with single blanks and splitting again gives the words
    back. *)
Lemma split_join (ws : list string) :
  Forall (fun w => is_empty w = false
                   /\ all_str (fun c => negb (isspace c)) w = true) ws ->
  split (join " " ws) = ws.
Proof.
  unfold split.
  induction 1 as [|w ws [Hne Hw] Hws IH]; [reflexivity|].
  destruct ws as [|w' ws'].
  - cbn [join].
    assert (Hone : split_from EmptyString (w ++ EmptyString) = [w]).
    { rewrite split_from_word by assumption. cbn. now rewrite Hne. }
    now rewrite string_app_nil_r in Hone.
  - change (join " " (w :: w' :: ws'))
      with (w ++ String " " (join " " (w' :: ws')))%string.
    rewrite split_from_word by assumption.
    cbn [append split_from]. change (isspace " ") with true. cbn iota.
    now rewrite Hne, IH.
Qed.

Lemma join_not_empty (sep w : string) (ws : list string) :
  is_empty w = false -> is_empty (join sep (w :: ws)) = false.
Proof. destruct ws, w; cbn; auto; discriminate. Qed.

Lemma isspace_lower_char (c : ascii) : isspace (lower_char c) = isspace c.
Proof.
  destruct c as [[] [] [] [] [] [] [] []]; vm_compute; reflexivity.
Qed.

Lemma lstrip_length (s : string) :
  (String.length (lstrip s) <= String.length s)%nat.
Proof.
  induction s as [|d s IH]; cbn [lstrip]; auto.
  destruct (isspace d); cbn [String.length]; lia.
Qed.

Lemma rstrip_length (s : string) :
  (String.length (rstrip s) <= String.length s)%nat.
Proof.
  induction s as [|a s IH]; cbn [rstrip]; auto.
  destruct (isspace a && is_empty (rstrip s))%bool; cbn [String.length]; lia.
Qed.

(** A stripped string that is not empty starts with a character that is
    not whitespace. *)
Lemma strip_head_not_space (c : ascii) (s : string) :
  strip (String c s) = String c s -> isspace c = false.
Proof.
  unfold strip. cbn [lstrip]. destruct (isspace c) eqn:E; auto.
  intros Hs. exfalso.
  pose proof (rstrip_length (lstrip s)) as H1.
  pose proof (lstrip_length s) as H2.
  rewrite Hs in H1. cbn in H1. lia.
Qed.

(** The cleaned title starts with a character that is not whitespace. *)
Lemma clean_chapter_title_head (chapter_title : string) (c : ascii)
    (r : string) :
  clean_chapter_title chapter_title = String c r -> isspace c = false.
Proof.
  unfold clean_chapter_title.
  set (t := match re_search false title_pattern chapter_title with
            | Some groups => strip (nth 0 groups EmptyString)
            | None => strip chapter_title
            end).
  assert (Ht : strip t = t).
  { unfold t. destruct (re_search false title_pattern chapter_title);
      apply strip_idempotent. }
  destruct t as [|d t']; [discriminate|].
  cbn [lower map_str]. intros [= <- _].
  rewrite isspace_lower_char.
  exact (strip_head_not_space d t' Ht).
Qed.

Lemma in_firstn {A} (n : nat) (l : list A) (x : A) :
  In x (firstn n l) -> In x l.
Proof.
  revert l. induction n as [|n IH]; intros [|a l]; cbn; try tauto.
  intros [->|Hin]; auto.
Qed.

(** X6: the search key is made of the first five words of the cleaned title
    with single blanks between them; and whenever the scan goes past the
    test on the cleaned title the key is not empty, so that the test
    [search_key in block] never holds for want of a key. *)
Theorem search_key_is_first_five_words (chapter_title : string) :
  let clean_title := clean_chapter_title chapter_title in
  split (make_search_key clean_title) = firstn 5 (split clean_title)
  /\ make_search_key clean_title
     = join " " (firstn 5 (split clean_title))
  /\ (is_empty clean_title = false ->
      is_empty (make_search_key clean_title) = false).
Proof.
  intros clean_title.
  assert (Hkey : make_search_key clean_title
                 = join " " (firstn 5 (split clean_title))).
  { unfold make_search_key. now rewrite firstn_min_length. }
  assert (Hwords := split_from_words clean_title EmptyString eq_refl).
  fold (split clean_title) in Hwords.
  split; [|split; [exact Hkey|]].
  - rewrite Hkey. apply split_join.
    apply Forall_forall. intros w Hw. rewrite Forall_forall in Hwords.
    apply Hwords. eapply in_firstn. exact Hw.
  - intros Hne. rewrite Hkey.
    destruct clean_title as [|c r] eqn:Ec; [discriminate|].
    pose proof (clean_chapter_title_head chapter_title c r Ec) as Hc.
    unfold split in Hwords |- *. cbn [split_from] in Hwords |- *.
    rewrite Hc in Hwords |- *. cbn [append] in Hwords |- *.
    destruct (split_from (String c EmptyString) r) as [|w ws] eqn:Es.
    + now apply split_from_not_nil in Es.
    + cbn [firstn]. apply join_not_empty.
      now inversion Hwords as [|? ? [Hw _] _].
Qed.

Lemma search_key_is_first_five_words_witness :
  is_empty (make_search_key
              (clean_chapter_title
                 "3 A Very Long Title With Many Words In It")) = false.
Proof.
  apply (proj2 (proj2 (search_key_is_first_five_words
                         "3 A Very Long Title With Many Words In It"))).
  vm_compute. reflexivity.
Defined.
(** ** What the scan returns and prints *)

Lemma maximal_runs_large {A} (large : A -> bool) (ws : list A)
    (run : list A) (runs : list (list A)) :
  maximal_runs large ws (run :: runs) ->
  exists w, In w ws /\ large w = true.
Proof.
  intros Hruns. remember (run :: runs) as rs eqn:Ers.
  induction Hruns as [|w ws runs' Hw Hruns IH|run' ws runs' Hne Hl _ _ _].
  - discriminate.
  - destruct (IH Ers) as (x & Hin & Hx). exists x. split; [now right|auto].
  - destruct run' as [|x run']; [contradiction|].
    cbn in Hl. apply andb_true_iff in Hl as [Hx _].
    exists x. split; [now left|auto].
Qed.

Section ScanMore.
Context `{SizeNum}.

(** A block of large text holds a large word. *)
Lemma title_check_large_word (search_key : string) (p : page) :
  title_check search_key p = true ->
  exists baseline text size,
    most_common1
      (Counter (map (fun w => round1 (snd w)) (sized_words (page_words p))))
    = Ok baseline
    /\ In (text, size) (sized_words (page_words p))
    /\ num_geb (round1 size) (times_1_5 baseline) = true.
Proof.
  unfold title_check, page_large_blocks.
  destruct (most_common1 _) as [baseline|e] eqn:Eb; [|discriminate].
  destruct (large_text_blocks_runs (times_1_5 baseline)
              (sized_words (page_words p))) as (runs & Hruns & ->).
  intros Ht. exists baseline.
  destruct runs as [|run runs]; [discriminate|].
  destruct (maximal_runs_large _ _ _ _ Hruns) as ([text size] & Hin & Hl).
  exists text, size. auto.
Qed.

(** The lines of the page loop, for indices within the document: none of
    them reports an exception, and the last one tells the result. *)
Lemma scan_pages_lines (pages : list page)
    (search_key page_number_key : string) (printed_start_page : Z)
    (indices : list nat) :
  (forall i, In i indices -> (i < List.length pages)%nat) ->
  forall first_page_checked,
    let '(out, r) := scan_pages pages search_key page_number_key
                       printed_start_page first_page_checked indices in
    Forall (fun l => match l with
                     | ScanStartsAt _ | ScanTitleOnly _ _ _
                     | ScanSuccess _ _ _ | ScanFailed => True
                     | _ => False
                     end) out
    /\ match r with
       | Some (_, file_page) =>
           exists out', out = out' ++ [ScanSuccess search_key
                                         page_number_key file_page]
       | None => exists out', out = out' ++ [ScanFailed]
       end.
Proof.
  induction indices as [|i rest IH]; intros Hin first.
  - cbn. split; [repeat constructor|now exists []].
  - cbn [scan_pages].
    destruct (nth_error pages i) as [p|] eqn:Ep.
    2:{ apply nth_error_None in Ep. specialize (Hin i (or_introl eq_refl)).
        lia. }
    rewrite inspect_spec.
    specialize (IH (fun j Hj => Hin j (or_intror Hj)) false).
    destruct (scan_pages pages search_key page_number_key
                printed_start_page false rest) as [out' r'].
    destruct IH as [Hall Hlast].
    assert (Hstart : Forall (fun l => match l with
                                      | ScanStartsAt _ | ScanTitleOnly _ _ _
                                      | ScanSuccess _ _ _ | ScanFailed => True
                                      | _ => False
                                      end)
                       (if first then [ScanStartsAt (Z.of_nat i + 1)]
                        else []))
      by (destruct first; repeat constructor).
    assert (Hext : forall mid,
               match r' with
               | Some (_, file_page) =>
                   exists o, (if first then [ScanStartsAt (Z.of_nat i + 1)]
                              else []) ++ mid ++ out'
                             = o ++ [ScanSuccess search_key page_number_key
                                       file_page]
               | None =>
                   exists o, (if first then [ScanStartsAt (Z.of_nat i + 1)]
                              else []) ++ mid ++ out' = o ++ [ScanFailed]
               end).
    { intros mid. destruct r' as [[off fp]|]; destruct Hlast as [o ->];
        eexists; rewrite !app_assoc; reflexivity. }
    destruct (is_nil (sized_words (page_words p))).
    + split; [|apply (Hext [])].
      apply Forall_app. split; auto.
    + destruct (title_check search_key p),
               (number_check page_number_key p).
      * split.
        -- apply Forall_app. split; auto.
        -- eexists. reflexivity.
      * split; [|apply (Hext [_])].
        apply Forall_app. split; auto. constructor; auto.
      * split; [|apply (Hext [])]. apply Forall_app. split; auto.
      * split; [|apply (Hext [])]. apply Forall_app. split; auto.
Qed.

(** X7: on a document that opens, the scan never ends in its exception
    handler: no line reports an error, a returned page is announced by the
    success line that closes the output, and [None] by the failure line or
    by the line on the empty title. *)
Theorem scan_of_opened_document_never_raises (pages : list page)
    (chapter_title : string) (printed_start_page toc_end_file_page : Z) :
  let result := find_offset_by_title_scan true (Opened pages) chapter_title
                  printed_start_page toc_end_file_page in
  (forall e, ~ In (ScanError e) (fst result))
  /\ ~ In ScanNotFound (fst result)
  /\ match snd result with
     | Some (calculated_offset, file_page) =>
         exists out search_key page_number_key,
           fst result = out ++ [ScanSuccess search_key page_number_key
                                  file_page]
     | None =>
         (exists out, fst result = out ++ [ScanFailed])
         \/ fst result = [ScanStarting; ScanEmptyTitle]
     end.
Proof.
  cbv zeta. unfold find_offset_by_title_scan. cbn [negb].
  destruct (is_empty (clean_chapter_title chapter_title)).
  - cbn. repeat split.
    + intros e [E|[E|[]]]; discriminate.
    + intros [E|[E|[]]]; discriminate.
    + now right.
  - set (search_key := make_search_key (clean_chapter_title chapter_title)).
    set (page_number_key := str_of_Z printed_start_page).
    pose proof (scan_pages_lines pages search_key page_number_key
                  printed_start_page
                  (scan_window (List.length pages) toc_end_file_page))
      as Hlines.
    specialize (Hlines ltac:(intros i Hi; apply scan_window_spec in Hi; lia)
                       true).
    destruct (scan_pages pages search_key page_number_key printed_start_page
                true (scan_window (List.length pages) toc_end_file_page))
      as [out r].
    destruct Hlines as [Hall Hlast]. cbn [fst snd].
    rewrite Forall_forall in Hall. repeat split.
    + intros e [E|[E|Hin]]; try discriminate. exact (Hall _ Hin).
    + intros [E|[E|Hin]]; try discriminate. exact (Hall _ Hin).
    + destruct r as [[off fp]|]; destruct Hlast as [o ->].
      * exists (ScanStarting :: ScanSearching search_key page_number_key
                  (Z.of_nat (Z.to_nat (Z.max 0 toc_end_file_page)) + 1) :: o),
               search_key, page_number_key. reflexivity.
      * left.
        exists (ScanStarting :: ScanSearching search_key page_number_key
                  (Z.of_nat (Z.to_nat (Z.max 0 toc_end_file_page)) + 1) :: o).
        reflexivity.
Qed.

(** A page the scan returns lies in the window, holds the printed page
    number and has a large word, whatever the arithmetic of the sizes. *)
Lemma scan_result_large_word (pages : list page)
    (chapter_title : string) (printed_start_page toc_end_file_page : Z)
    (calculated_offset file_page : Z) :
  snd (find_offset_by_title_scan true (Opened pages) chapter_title
         printed_start_page toc_end_file_page)
  = Some (calculated_offset, file_page) ->
  (printed_start_page + calculated_offset = file_page)%Z
  /\ (Z.max 0 toc_end_file_page < file_page
      <= Z.max 0 toc_end_file_page + 50)%Z
  /\ (file_page <= Z.of_nat (List.length pages))%Z
  /\ exists p baseline text size,
       nth_error pages (Z.to_nat (file_page - 1)) = Some p
       /\ contains (str_of_Z printed_start_page) (page_text p) = true
       /\ most_common1
            (Counter (map (fun w => round1 (snd w))
                          (sized_words (page_words p))))
          = Ok baseline
       /\ In (text, size) (sized_words (page_words p))
       /\ num_geb (round1 size) (times_1_5 baseline) = true.
Proof.
  unfold find_offset_by_title_scan. cbn [negb].
  destruct (is_empty (clean_chapter_title chapter_title)); [discriminate|].
  set (search_key := make_search_key (clean_chapter_title chapter_title)).
  set (page_number_key := str_of_Z printed_start_page).
  set (window := scan_window (List.length pages) toc_end_file_page).
  destruct (scan_pages pages search_key page_number_key printed_start_page
              true window) as [out r] eqn:Escan.
  cbn [snd]. intros ->.
  assert (Hr : snd (scan_pages pages search_key page_number_key
                      printed_start_page true window)
               = Some (calculated_offset, file_page))
    by now rewrite Escan.
  rewrite scan_pages_result in Hr.
  2:{ intros i Hi. apply scan_window_spec in Hi. lia. }
  destruct (find _ window) as [i|] eqn:Ef; [|discriminate].
  injection Hr as <- <-.
  apply find_some in Ef as [Hi Hq]. apply scan_window_spec in Hi.
  unfold qualifies_at in Hq.
  destruct (nth_error pages i) as [p|] eqn:Ep; [|discriminate].
  apply andb_true_iff in Hq as [Ht Hn].
  apply title_check_large_word in Ht
    as (baseline & text & size & Hb & Hin & Hlarge).
  repeat split; try lia.
  exists p, baseline, text, size.
  replace (Z.to_nat (Z.of_nat i + 1 - 1)) with i by lia.
  repeat split; auto.
Qed.
End ScanMore.

(** A comparison of floats that holds has no NaN on either side. *)
Lemma SFleb_not_nan (x y : float) :
  SFleb x y = true -> x <> S754_nan /\ y <> S754_nan.
Proof.
  unfold SFleb, SFcompare.
  destruct x as [s|s| |s m e], y as [t|t| |t n f]; intros Hc;
    try discriminate Hc; split; discriminate.
Qed.

Lemma SFmul_not_nan (x y : float) :
  SFmul float_prec float_emax x y <> S754_nan -> x <> S754_nan.
Proof.
  destruct x; try discriminate. intros Hm _. apply Hm. reflexivity.
Qed.

Lemma py_round1_nan (x : float) :
  py_round1 x <> S754_nan -> x <> S754_nan.
Proof. destruct x; try discriminate. auto. Qed.

(** X8: a page the scan returns lies within 50 pages after the end of the
    table of contents and within the document, and holds the printed page
    number of the chapter in its text; the printed start page plus the
    offset returned is the page returned. The page has a large word: its
    size and the baseline of the page are numbers, and its size rounded to
    one decimal is greater than or equal to the float product of the
    baseline and 1.5. With a baseline of 10 points a word of 14.96 points
    is large, its size being rounded to 15.0, and a word of 14.94 points
    is not. *)
Theorem scan_result_is_a_page_with_large_text (pages : list (@page PyFloat))
    (chapter_title : string) (printed_start_page toc_end_file_page : Z)
    (calculated_offset file_page : Z) :
  snd (find_offset_by_title_scan true (Opened pages) chapter_title
         printed_start_page toc_end_file_page)
  = Some (calculated_offset, file_page) ->
  (printed_start_page + calculated_offset = file_page)%Z
  /\ (Z.max 0 toc_end_file_page < file_page
      <= Z.max 0 toc_end_file_page + 50)%Z
  /\ (file_page <= Z.of_nat (List.length pages))%Z
  /\ (exists p baseline text size,
        nth_error pages (Z.to_nat (file_page - 1)) = Some p
        /\ contains (str_of_Z printed_start_page) (page_text p) = true
        /\ most_common1
             (Counter (map (fun w => py_round1 (snd w))
                           (sized_words (page_words p))))
           = Ok baseline
        /\ In (text, size) (sized_words (page_words p))
        /\ size <> S754_nan /\ baseline <> S754_nan
        /\ SFleb (SFmul float_prec float_emax baseline one_and_a_half)
                 (py_round1 size) = true)
  /\ SFleb (SFmul float_prec float_emax (nearest_float false 10 1)
                  one_and_a_half)
           (py_round1 (nearest_float false 1496 100)) = true
  /\ SFleb (SFmul float_prec float_emax (nearest_float false 10 1)
                  one_and_a_half)
           (py_round1 (nearest_float false 1494 100)) = false.
Proof.
  intros Hscan.
  destruct (scan_result_large_word pages chapter_title printed_start_page
              toc_end_file_page calculated_offset file_page Hscan)
    as (Hoff & Hwin & Hlen & p & baseline & text & size & Hp & Hn & Hb
        & Hin & Hlarge).
  split; [exact Hoff|]. split; [exact Hwin|]. split; [exact Hlen|].
  split; [|split; vm_compute; reflexivity].
  exists p, baseline, text, size.
  change (SFleb (SFmul float_prec float_emax baseline one_and_a_half)
                (py_round1 size) = true) in Hlarge.
  destruct (SFleb_not_nan _ _ Hlarge) as [Hthreshold Hrounded].
  repeat (split; [assumption|]).
  split; [exact (py_round1_nan size Hrounded)|].
  split; [exact (SFmul_not_nan baseline _ Hthreshold)|exact Hlarge].
Qed.

(** The small book: the page returned is file page 27, where the label of
    the chapter is set in 18 points above a text in 10 points. *)
Lemma scan_result_is_a_page_with_large_text_witness :
  (3 + 24 = 27)%Z
  /\ (Z.max 0 8 < 27 <= Z.max 0 8 + 50)%Z
  /\ (27 <= Z.of_nat (List.length Example.book))%Z
  /\ exists p baseline text size,
       nth_error Example.book (Z.to_nat (27 - 1)) = Some p
       /\ contains (str_of_Z 3) (page_text p) = true
       /\ most_common1
            (Counter (map (fun w => py_round1 (snd w))
                          (sized_words (page_words p))))
          = Ok baseline
       /\ In (text, size) (sized_words (page_words p))
       /\ size <> S754_nan /\ baseline <> S754_nan
       /\ SFleb (SFmul float_prec float_emax baseline one_and_a_half)
                (py_round1 size) = true.
Proof.
  assert (Hscan : snd (find_offset_by_title_scan true
                         (Opened Example.book) "1 Introduction" 3 8)
                  = Some (24%Z, 27%Z)) by (vm_compute; reflexivity).
  destruct (scan_result_is_a_page_with_large_text Example.book
              "1 Introduction" 3 8 24 27 Hscan)
    as (Hoff & Hwin & Hlen & Hword & _).
  exact (conj Hoff (conj Hwin (conj Hlen Hword))).
Defined.
(** ** Greedy repetitions *)

Lemma prev_after_app (prev : option ascii) (a : string) (c : ascii) :
  prev_after prev (a ++ String c EmptyString) = Some c.
Proof. revert prev. induction a as [|x a IH]; intros prev; cbn; auto. Qed.

(** A greedy repetition takes the longest run of its class when what
    follows the run matches the rest of the pattern. *)
Lemma rep_loop_greedy_run {A} (cls : ascii -> bool) (lo : nat)
    (hi : option nat) (k : string -> option ascii -> string -> option A)
    (run rest : string) :
  forall (n : nat) (taken : string) (prev : option ascii) (r : A),
    all_str cls run = true ->
    (forall j, (j < String.length run)%nat -> below hi (n + j) = true) ->
    match rest with
    | EmptyString => True
    | String c _ => (cls c && below hi (n + String.length run))%bool = false
    end ->
    (lo <= n + String.length run)%nat ->
    k (taken ++ run)%string (prev_after prev run) rest = Some r ->
    rep_loop cls lo hi true k n taken prev (run ++ rest) = Some r.
Proof.
  induction run as [|c run IH]; intros n taken prev r Hrun Hbelow Hstop Hlo Hk.
  - cbn [append String.length prev_after] in *.
    rewrite string_app_nil_r in Hk. rewrite Nat.add_0_r in Hstop, Hlo.
    apply Nat.leb_le in Hlo.
    destruct rest as [|d rest]; cbn [rep_loop].
    + rewrite Hlo. exact Hk.
    + rewrite Hstop, Hlo. exact Hk.
  - cbn in Hrun. apply andb_true_iff in Hrun as [Hc Hrun].
    cbn [append rep_loop]. rewrite Hc.
    rewrite <- (Nat.add_0_r n) at 1.
    rewrite (Hbelow 0%nat) by (cbn; lia). cbn [andb].
    rewrite (IH (S n) (taken ++ String c EmptyString)%string (Some c) r);
      auto.
    + intros j Hj. replace (S n + j)%nat with (n + S j)%nat by lia.
      apply Hbelow. cbn. lia.
    + cbn [String.length] in Hstop.
      now replace (S n + String.length run)%nat
        with (n + S (String.length run))%nat by lia.
    + cbn [String.length] in Hlo. lia.
    + now rewrite string_app_assoc.
Qed.

(** The same for one atom of a pattern. *)
Lemma match_here_greedy (multiline : bool) (cap : bool)
    (cls : ascii -> bool) (lo : nat) (hi : option nat) (p : pattern)
    (run rest : string) (prev : option ascii) (caps : list string)
    (after : string) :
  all_str cls run = true ->
  (forall j, (j < String.length run)%nat -> below hi j = true) ->
  match rest with
  | EmptyString => True
  | String c _ => (cls c && below hi (String.length run))%bool = false
  end ->
  (lo <= String.length run)%nat ->
  match_here multiline p (prev_after prev run) rest = Some (caps, after) ->
  match_here multiline (Rep cap cls lo hi true :: p) prev (run ++ rest)
  = Some (if cap then run :: caps else caps, after).
Proof.
  intros Hrun Hbelow Hstop Hlo Hm. cbn [match_here].
  apply rep_loop_greedy_run; auto.
  cbn [append]. now rewrite Hm.
Qed.

Lemma match_here_bol (multiline : bool) (p : pattern) (s : string) :
  match_here multiline (Bol :: p) None s = match_here multiline p None s.
Proof. reflexivity. Qed.

Lemma match_here_eol_end (multiline : bool) (prev : option ascii) :
  match_here multiline [Eol] prev EmptyString = Some ([], EmptyString).
Proof. reflexivity. Qed.

Lemma head_not_space (title : string) :
  strip title = title ->
  match title with
  | EmptyString => True
  | String c _ => (isspace c && below None 1)%bool = false
  end.
Proof.
  destruct title as [|c t]; auto. intros Hs.
  now rewrite (strip_head_not_space c t Hs).
Qed.

(** What [isdecimal], [is_dot] and [digit_or_dot] say of a blank. *)
Lemma blank_classes :
  isdecimal " " = false /\ is_dot " " = false /\ digit_or_dot " " = false
  /\ isspace " " = true.
Proof. repeat split. Qed.

(** A blank and a stripped title on one line, up to the end: the blank is
    passed over and the title is the group. *)
Lemma match_here_blank_title (title : string) (prev : option ascii) :
  all_str dot title = true -> strip title = title ->
  match_here false
    [Rep false isspace 0 None true; Rep true dot 0 None true; Eol] prev
    (String " " title)
  = Some ([title], EmptyString).
Proof.
  intros Ht Hs.
  change (String " " title) with (String " " EmptyString ++ title)%string.
  change (Some ([title], EmptyString))
    with (Some (if false then String " " EmptyString :: [title]
                else [title], EmptyString)).
  apply (match_here_greedy false false isspace 0 None).
  - reflexivity.
  - reflexivity.
  - now apply head_not_space.
  - cbn. lia.
  - rewrite <- (string_app_nil_r title) at 1.
    change (Some ([title], EmptyString))
      with (Some (if true then title :: [] else [], EmptyString)).
    apply (match_here_greedy false true dot 0 None).
    + exact Ht.
    + reflexivity.
    + exact I.
    + lia.
    + apply match_here_eol_end.
Qed.

Lemma all_str_impl (p q : ascii -> bool) (s : string) :
  (forall c, p c = true -> q c = true) ->
  all_str p s = true -> all_str q s = true.
Proof.
  intros Hpq. induction s as [|c s IH]; auto. cbn.
  intros Hs. apply andb_true_iff in Hs as [Hc Hs].
  now rewrite (Hpq c Hc), IH.
Qed.

Lemma digit_or_dot_not_space (c : ascii) :
  digit_or_dot c = true -> negb (isspace c) = true.
Proof.
  unfold digit_or_dot. intros Hc. apply negb_true_iff.
  apply orb_true_iff in Hc as [Hc|Hc].
  - now apply isdecimal_not_space.
  - apply Ascii.eqb_eq in Hc. now subst c.
Qed.

Lemma strip_numeral (number : string) :
  all_str digit_or_dot number = true -> strip number = number.
Proof.
  intros Hn. apply strip_no_space.
  exact (all_str_impl _ _ number digit_or_dot_not_space Hn).
Qed.

(** ** Labels, cleaned titles and file names *)

(** X9: for a label made of a numeral with at most one dot (digits, or
    digits, a dot and digits), a blank and a stripped title on one line,
    the cleaned title is the title in lower case: the numeral is gone. *)
Theorem clean_title_drops_numeral (digits more_digits title : string)
    (dotted : bool) :
  all_str isdecimal digits = true -> (1 <= String.length digits)%nat ->
  all_str isdecimal more_digits = true ->
  all_str dot title = true -> strip title = title ->
  clean_chapter_title
    (digits ++ (if dotted then String "." more_digits else EmptyString)
     ++ String " " title)
  = lower title.
Proof.
  intros Hd Hlen Hm Ht Hs.
  assert (Hnumber :
    forall prev (ds : string),
      all_str isdecimal ds = true ->
      match_here false
        [Rep false isdecimal 0 None true; Rep false isspace 0 None true;
         Rep true dot 0 None true; Eol] prev (ds ++ String " " title)
      = Some ([title], EmptyString)).
  { intros prev ds Hds.
    change (Some ([title], EmptyString))
      with (Some (if false then ds :: [title] else [title], EmptyString)).
    apply (match_here_greedy false false isdecimal 0 None).
    - exact Hds.
    - reflexivity.
    - reflexivity.
    - lia.
    - now apply match_here_blank_title. }
  assert (Hmatch :
    match_here false title_pattern None
      (digits ++ (if dotted then String "." more_digits else EmptyString)
       ++ String " " title)
    = Some ([title], EmptyString)).
  { unfold title_pattern. rewrite match_here_bol.
    change (Some ([title], EmptyString))
      with (Some (if false then digits :: [title] else [title], EmptyString)).
    apply (match_here_greedy false false isdecimal 1 None).
    - exact Hd.
    - reflexivity.
    - now destruct dotted.
    - exact Hlen.
    - destruct dotted.
      + change (String "." more_digits ++ String " " title)%string
          with (String "." EmptyString
                ++ (more_digits ++ String " " title))%string.
        change (Some ([title], EmptyString))
          with (Some (if false then String "." EmptyString :: [title]
                      else [title], EmptyString)).
        apply (match_here_greedy false false is_dot 0 (Some 1%nat)).
        * reflexivity.
        * intros j Hj. cbn in Hj. now replace j with 0%nat by lia.
        * destruct (more_digits ++ String " " title)%string; auto.
          cbn. apply andb_false_r.
        * cbn. lia.
        * now apply Hnumber.
      + change (EmptyString ++ String " " title)%string
          with (EmptyString ++ (EmptyString ++ String " " title))%string.
        change (Some ([title], EmptyString))
          with (Some (if false then EmptyString :: [title]
                      else [title], EmptyString)).
        apply (match_here_greedy false false is_dot 0 (Some 1%nat)).
        * reflexivity.
        * intros j Hj. cbn in Hj. lia.
        * reflexivity.
        * lia.
        * now apply (Hnumber _ EmptyString). }
  unfold clean_chapter_title, re_search.
  assert (Hsearch : forall s, search_from false title_pattern None s
                     = match match_here false title_pattern None s with
                       | Some (caps, _) => Some caps
                       | None =>
                           match s with
                           | String c r =>
                               search_from false title_pattern (Some c) r
                           | EmptyString => None
                           end
                       end) by (intros []; reflexivity).
  rewrite Hsearch, Hmatch. cbn [nth]. now rewrite Hs.
Qed.

Lemma clean_title_drops_numeral_witness :
  clean_chapter_title
    ("12" ++ (if true then String "." "3" else EmptyString)
     ++ String " " "Error Handling")
  = lower "Error Handling".
Proof.
  apply (clean_title_drops_numeral "12" "3" "Error Handling" true);
    first [reflexivity | cbn; lia].
Defined.

Lemma safe_char_not_slash (c : ascii) : not_slash (safe_char c) = true.
Proof.
  destruct c as [[] [] [] [] [] [] [] []]; vm_compute; reflexivity.
Qed.

Lemma all_str_map_str (p : ascii -> bool) (f : ascii -> ascii) (s : string) :
  (forall c, p (f c) = true) -> all_str p (map_str f s) = true.
Proof.
  intros Hp. induction s as [|c s IH]; auto. cbn. now rewrite Hp, IH.
Qed.

Lemma digit_or_dot_not_slash (c : ascii) :
  digit_or_dot c = true -> not_slash c = true.
Proof.
  destruct c as [[] [] [] [] [] [] [] []]; vm_compute; congruence.
Qed.

(** X10: the name of an output file holds no slash, whatever the label is,
    and ends in [.pdf]: every file is written in the output directory
    itself. *)
Theorem output_filename_has_no_slash (title_with_num : string) :
  all_str not_slash (output_filename title_with_num) = true
  /\ (exists stem,
        output_filename title_with_num = (stem ++ ".pdf")%string)
  /\ output_path title_with_num
     = ("chapters_output/" ++ output_filename title_with_num)%string.
Proof.
  assert (Hsafe : forall t, all_str not_slash (safe_title_part t) = true).
  { intros t. unfold safe_title_part. apply all_str_strip.
    apply all_str_map_str, safe_char_not_slash. }
  split; [|split; [|reflexivity]];
    unfold output_filename, re_match;
    (destruct (match_here false filename_pattern None title_with_num)
       as [[groups after]|] eqn:Em; cbn [option_map fst];
     [apply match_here_groups in Em;
      unfold filename_pattern in Em; cbn [filter] in Em;
      inversion Em as [|? g1 ? l1 H1 Em1]; subst;
      inversion Em1 as [|? g2 ? l2 _ Em2]; subst;
      inversion Em2; subst; cbn in H1; destruct H1 as [Hg1 Hlen];
      cbn [nth]; rewrite (strip_numeral g1 Hg1);
      destruct g1 as [|c g1]; [cbn in Hlen; lia|]; cbn [is_empty negb]
     |cbn [is_empty negb]]).
  - rewrite !all_str_app, Hsafe.
    rewrite (all_str_impl _ _ _ digit_or_dot_not_slash Hg1). reflexivity.
  - now rewrite all_str_app, Hsafe.
  - eexists. rewrite <- !string_app_assoc. reflexivity.
  - eexists. reflexivity.
Qed.

(** X11: for a label made of a numeral of digits and dots, a blank and a
    stripped title on one line -- the labels of the extractor -- the file
    is named after the numeral, an underscore and the sanitized title. *)
Theorem output_filename_of_label (number title : string) :
  all_str digit_or_dot number = true -> (1 <= String.length number)%nat ->
  all_str dot title = true -> strip title = title ->
  output_filename (number ++ String " " title)
  = (number ++ "_" ++ safe_title_part title ++ ".pdf")%string.
Proof.
  intros Hn Hlen Ht Hs.
  assert (Hmatch :
    match_here false filename_pattern None (number ++ String " " title)
    = Some ([number; title], EmptyString)).
  { unfold filename_pattern. rewrite match_here_bol.
    change (Some ([number; title], EmptyString))
      with (Some (if true then number :: [title] else [title], EmptyString)).
    apply (match_here_greedy false true digit_or_dot 1 None).
    - exact Hn.
    - reflexivity.
    - reflexivity.
    - exact Hlen.
    - now apply match_here_blank_title. }
  unfold output_filename, re_match. rewrite Hmatch.
  cbn [option_map fst nth]. rewrite (strip_numeral number Hn), Hs.
  destruct number as [|c number]; [cbn in Hlen; lia|]. reflexivity.
Qed.

Lemma output_filename_of_label_witness :
  output_filename ("1.2" ++ String " " "Error Handling: Part 1")
  = ("1.2" ++ "_" ++ safe_title_part "Error Handling: Part 1" ++ ".pdf")%string.
Proof.
  apply (output_filename_of_label "1.2" "Error Handling: Part 1");
    first [reflexivity | cbn; lia].
Defined.
(** ** The mapper and the order of its input *)

Lemma NoDup_map_eq {A B} (f : A -> B) (l : list A) (x y : A) :
  NoDup (map f l) -> In x l -> In y l -> f x = f y -> x = y.
Proof.
  induction l as [|a l IH]; [contradiction|].
  cbn [map]. intros Hnd Hx Hy Hf. inversion Hnd as [|? ? Hnotin Hnd']; subst.
  destruct Hx as [->|Hx], Hy as [->|Hy]; auto.
  - exfalso. apply Hnotin. rewrite Hf. now apply in_map.
  - exfalso. apply Hnotin. rewrite <- Hf. now apply in_map.
Qed.

(** Two lists in the order of the start pages, with the same entries and
    no start page twice, are the same list. *)
Lemma ordered_perm_unique (l l' : list (string * Z)) :
  StronglySorted start_le l -> StronglySorted start_le l' ->
  NoDup (map snd l) -> Permutation l l' -> l = l'.
Proof.
  intros Hl. revert l'.
  induction Hl as [|a l Hl IH Ha]; intros l' Hl' Hnd Hperm.
  - symmetry. now apply Permutation_nil.
  - destruct l' as [|a' l'].
    { symmetry in Hperm. now apply Permutation_nil in Hperm. }
    inversion Hl' as [|? ? Hl'' Ha']; subst.
    rewrite Forall_forall in Ha, Ha'.
    assert (Haa' : a = a').
    { assert (Hin : In a (a' :: l'))
        by (eapply Permutation_in; [exact Hperm|now left]).
      assert (Hin' : In a' (a :: l))
        by (eapply Permutation_in; [symmetry; exact Hperm|now left]).
      destruct Hin as [->|Hin]; auto. destruct Hin' as [->|Hin']; auto.
      apply (NoDup_map_eq snd (a :: l)); auto; [now left|now right|].
      specialize (Ha _ Hin'). specialize (Ha' _ Hin).
      unfold start_le in Ha, Ha'. lia. }
    subst a'. f_equal. apply IH; auto.
    + cbn [map] in Hnd. now inversion Hnd.
    + eapply Permutation_cons_inv. exact Hperm.
Qed.

(** X12: with start pages that are all different, the ranges do not depend
    on the order in which the dictionary lists the chapters. *)
Theorem mapper_ignores_input_order (chapter_starts chapter_starts' : dict Z)
    (last_printed_page : Z) :
  Permutation chapter_starts chapter_starts' ->
  NoDup (map snd chapter_starts) ->
  map_starts_to_ranges chapter_starts last_printed_page
  = map_starts_to_ranges chapter_starts' last_printed_page.
Proof.
  intros Hperm Hnd. unfold map_starts_to_ranges. f_equal.
  apply ordered_perm_unique.
  - apply (sorted_ordered snd).
  - apply (sorted_ordered snd).
  - eapply Permutation_NoDup; [|exact Hnd].
    apply Permutation_map. symmetry. apply sorted_perm.
  - rewrite (sorted_perm snd chapter_starts), Hperm.
    symmetry. apply sorted_perm.
Qed.

Lemma mapper_ignores_input_order_witness :
  map_starts_to_ranges [("1 Introduction", 3%Z); ("2 Basics of it", 20%Z)] 21
  = map_starts_to_ranges
      [("2 Basics of it", 20%Z); ("1 Introduction", 3%Z)] 21.
Proof.
  apply mapper_ignores_input_order.
  - apply perm_swap.
  - repeat constructor; cbn; intuition discriminate.
Defined.

(** ** Projection *)

(** X13: step 5 keeps the titles and their order and moves both ends of
    every range by the offset, so that a range keeps its length; moving
    back by the opposite offset gives the printed ranges again. *)
Theorem projection_shifts_and_inverts (page_offset : Z)
    (ranges : dict (Z * Z)) :
  NoDup (map fst ranges) ->
  map fst (project_ranges page_offset ranges) = map fst ranges
  /\ (forall title printed_start printed_end,
         In (title, (printed_start, printed_end)) ranges
         <-> In (title, ((printed_start + page_offset)%Z,
                         (printed_end + page_offset)%Z))
                (project_ranges page_offset ranges))
  /\ project_ranges (- page_offset) (project_ranges page_offset ranges)
     = ranges.
Proof.
  intros Hnd.
  pose proof (project_ranges_keys page_offset ranges Hnd) as Hkeys.
  split; [exact Hkeys|]. split.
  - intros title s e. rewrite project_ranges_map by assumption.
    rewrite in_map_iff. split.
    + intros Hin. now exists (title, (s, e)).
    + intros ([t [s' e']] & Heq & Hin). cbn [fst snd] in Heq.
      injection Heq as -> Hs He.
      assert (s' = s) by lia. assert (e' = e) by lia. now subst.
  - rewrite (project_ranges_map (- page_offset)) by now rewrite Hkeys.
    rewrite project_ranges_map by assumption. rewrite map_map.
    rewrite <- (map_id ranges) at 2. apply map_ext.
    intros [t [s e]]. cbn [fst snd]. repeat f_equal; lia.
Qed.

Lemma projection_shifts_and_inverts_witness :
  project_ranges (- 24)
    (project_ranges 24
       [("1 Introduction", (3, 19)%Z); ("2 Basics of it", (20, 21)%Z)])
  = [("1 Introduction", (3, 19)%Z); ("2 Basics of it", (20, 21)%Z)].
Proof.
  apply (projection_shifts_and_inverts 24
           [("1 Introduction", (3, 19)%Z); ("2 Basics of it", (20, 21)%Z)]).
  repeat constructor; cbn; intuition discriminate.
Defined.
(** ** The files of a run *)

Lemma StronglySorted_flat_map {A B} (R : A -> A -> Prop)
    (R' : B -> B -> Prop) (f : A -> list B) (l : list A) :
  (forall a, (List.length (f a) <= 1)%nat) ->
  (forall a b x y, R a b -> In x (f a) -> In y (f b) -> R' x y) ->
  StronglySorted R l -> StronglySorted R' (flat_map f l).
Proof.
  intros Hone Hrel. induction 1 as [|a l Hl IH Ha]; [constructor|].
  cbn [flat_map]. specialize (Hone a).
  destruct (f a) as [|x [|x' fa]] eqn:Efa; cbn in Hone; try lia; auto.
  cbn [app]. constructor; auto.
  apply Forall_forall. intros y Hy.
  apply in_flat_map in Hy as (b & Hb & Hy).
  rewrite Forall_forall in Ha.
  apply (Hrel a b); auto. rewrite Efa. now left.
Qed.

Lemma StronglySorted_map {A B} (R : A -> A -> Prop) (R' : B -> B -> Prop)
    (f : A -> B) (l : list A) :
  (forall a b, R a b -> R' (f a) (f b)) ->
  StronglySorted R l -> StronglySorted R' (map f l).
Proof.
  intros Hrel. induction 1 as [|a l Hl IH Ha]; [constructor|].
  cbn [map]. constructor; auto.
  apply Forall_forall. intros y Hy. apply in_map_iff in Hy as (b & <- & Hb).
  rewrite Forall_forall in Ha. auto.
Qed.

Lemma StronglySorted_prefix {A} (R : A -> A -> Prop) (l l' : list A) :
  StronglySorted R (l ++ l') -> StronglySorted R l.
Proof.
  induction l as [|a l IH]; [constructor|].
  cbn [app]. intros Hs. apply StronglySorted_inv in Hs as [Hs Ha].
  constructor; [now apply IH|].
  apply Forall_app in Ha. tauto.
Qed.

(** The files of steps 4 to 7: in the order of the chapters, each on pages
    of the document, each before the next, whether or not every file can
    be written. *)
Lemma split_with_offset_files (fs : filesystem) (total_pages : nat)
    (chapter_starts : dict Z) (page_offset : Z) :
  NoDup (map fst chapter_starts) ->
  StronglySorted pages_before
    (written (split_with_offset fs total_pages chapter_starts page_offset))
  /\ forall path pages,
       In (path, pages)
          (written (split_with_offset fs total_pages chapter_starts
                      page_offset)) ->
       pages <> []
       /\ forall i, In i pages -> (0 <= i < Z.of_nat total_pages)%Z.
Proof.
  intros Hnd.
  set (last_printed_page := (Z.of_nat total_pages - page_offset)%Z).
  set (ranges := map_starts_to_ranges chapter_starts last_printed_page).
  destruct (split_chapters_spec fs total_pages ranges
              (project_ranges page_offset ranges)
              (say (SplitTotalPages total_pages)
                   (say SplitStarting no_effects)))
    as (reached & rest & Hsplit & Hw & _).
  assert (Hw' : written (split_with_offset fs total_pages chapter_starts
                           page_offset)
                = flat_map (chapter_files total_pages) reached)
    by exact Hw.
  rewrite Hw'. clear Hw Hw'.
  assert (Hsorted : StronglySorted before reached).
  { apply (StronglySorted_prefix before reached rest).
    rewrite <- Hsplit. unfold ranges.
    rewrite map_starts_to_ranges_kept by assumption.
    assert (Hkeys : NoDup (map fst (kept_ranges (sorted snd chapter_starts)
                                      last_printed_page))).
    { apply kept_ranges_keys. eapply Permutation_NoDup; [|exact Hnd].
      apply Permutation_map. symmetry. apply sorted_perm. }
    rewrite project_ranges_map by assumption.
    pose proof (kept_ranges_disjoint last_printed_page
                  (sorted snd chapter_starts) (sorted_ordered snd _))
      as Hdis.
    apply (StronglySorted_map before); [|exact Hdis].
    intros [t [s e]] [t' [s' e']]. unfold before. cbn [fst snd]. lia. }
  split.
  - apply (StronglySorted_flat_map before); [| |exact Hsorted].
    + intros [t [s e]]. unfold chapter_files.
      destruct (invalid_range total_pages s e); cbn; lia.
    + intros [t [s e]] [t' [s' e']] x y Hb Hx Hy. unfold before in Hb.
      cbn [fst snd] in Hb. unfold chapter_files in Hx, Hy.
      destruct (invalid_range total_pages s e); [contradiction|].
      destruct (invalid_range total_pages s' e'); [contradiction|].
      destruct Hx as [<-|[]]. destruct Hy as [<-|[]].
      intros i j Hi Hj. cbn [snd] in Hi, Hj.
      apply in_range_iff in Hi, Hj. lia.
  - intros path pages Hin. apply in_flat_map in Hin as ([t [s e]] & _ & Hin).
    unfold chapter_files in Hin.
    destruct (invalid_range total_pages s e) eqn:Ev; [contradiction|].
    destruct Hin as [[= <- <-]|[]]. apply valid_range_spec in Ev. split.
    + intros Hnil. apply (f_equal (@List.length Z)) in Hnil.
      rewrite range_length in Hnil. cbn in Hnil. lia.
    + intros i Hi. apply in_range_iff in Hi. lia.
Qed.

(** What a run writes: nothing, or what steps 4 to 7 write for the chapters
    of the extractor, the pages that pypdf counts, and some offset. *)
Lemma main_written `{SizeNum} (fs : filesystem) (pdfplumber : bool)
    (pdf : opened) (input_pdf : reader) (stdin : list string) :
  (run_ending (main fs pdfplumber pdf input_pdf stdin) <> Finished ->
   written (run_effects (main fs pdfplumber pdf input_pdf stdin)) = [])
  /\ (written (run_effects (main fs pdfplumber pdf input_pdf stdin)) = []
      \/ exists total_pages chapter_starts page_offset,
           input_pdf = Reader total_pages
           /\ snd (extract_chapters_from_toc pdfplumber pdf 15)
              = Some chapter_starts
           /\ written (run_effects (main fs pdfplumber pdf input_pdf stdin))
              = written (split_with_offset fs total_pages chapter_starts
                           page_offset)).
Proof.
  unfold main. destruct stdin as [|path typed]; [cbn; auto|].
  destruct (extract_chapters_from_toc pdfplumber pdf 15)
    as [out [[|[title page] more]|]]; [cbn; auto| |cbn; auto].
  destruct input_pdf as [total_pages| |e].
  - destruct (find_offset_by_title_scan pdfplumber pdf title page
                TOC_END_FILE_PAGE) as [out1 [[page_offset file_page]|]].
    + split; [intros Hne; now contradiction Hne|].
      right. exists total_pages, ((title, page) :: more), page_offset. auto.
    + destruct (manual_fallback title page typed)
        as [out2 [[page_offset rest]|]]; [|cbn; auto].
      split; [intros Hne; now contradiction Hne|].
      right. exists total_pages, ((title, page) :: more), page_offset. auto.
  - cbn; auto.
  - destruct (manual_fallback EmptyString FIRST_PRINTED_PAGE_NUMBER typed)
      as [out' [[page_offset rest]|]]; cbn; auto.
Qed.

(** X14: in every run, whether or not every chapter file can be written,
    the files written are in the order of the chapters, each made of pages
    of the document and none empty, and every page of a file comes before
    every page of the files written after it: no page of the document
    goes into two chapter files. A run that does not reach the end of the
    script writes no chapter file. *)
Theorem chapter_files_hold_disjoint_pages `{SizeNum} (fs : filesystem)
    (pdfplumber : bool) (pdf : opened) (input_pdf : reader)
    (stdin : list string) :
  let files :=
    written (run_effects (main fs pdfplumber pdf input_pdf stdin)) in
  StronglySorted pages_before files
  /\ (forall path pages,
         In (path, pages) files ->
         pages <> []
         /\ exists total_pages,
              input_pdf = Reader total_pages
              /\ forall i, In i pages -> (0 <= i < Z.of_nat total_pages)%Z)
  /\ (run_ending (main fs pdfplumber pdf input_pdf stdin) <> Finished ->
      files = []).
Proof.
  cbv zeta.
  destruct (main_written fs pdfplumber pdf input_pdf stdin)
    as [Hstop Hcases].
  split; [|split; [|exact Hstop]].
  - destruct Hcases as [->|(total & starts & off & _ & Hext & ->)];
      [constructor|].
    apply split_with_offset_files.
    now destruct (extract_chapters_well_formed _ _ _ _ Hext).
  - intros path pages Hin.
    destruct Hcases as [Hnil|(total & starts & off & -> & Hext & Hw)].
    + rewrite Hnil in Hin. contradiction.
    + rewrite Hw in Hin.
      destruct (extract_chapters_well_formed _ _ _ _ Hext) as [Hnd _].
      destruct (proj2 (split_with_offset_files fs total starts off Hnd)
                  path pages Hin) as [Hne Hbounds].
      split; [exact Hne|]. now exists total.
Qed.

(** The small book, every file written: the run writes the two chapters,
    file pages 27 to 43 and 44 to 45. *)
Lemma chapter_files_hold_disjoint_pages_witness :
  written (run_effects
             (main writable true (Opened Example.book) (Reader 45)
                ["book.pdf"]))
  = [("chapters_output/1_Introduction.pdf", range 26 43);
     ("chapters_output/2_Basics of it.pdf", range 43 45)]
  /\ pages_before ("chapters_output/1_Introduction.pdf", range 26 43)
                  ("chapters_output/2_Basics of it.pdf", range 43 45)
  /\ range 26 43 <> [] /\ range 43 45 <> [].
Proof.
  assert (Hw : written (run_effects
                          (main writable true (Opened Example.book)
                             (Reader 45) ["book.pdf"]))
               = [("chapters_output/1_Introduction.pdf", range 26 43);
                  ("chapters_output/2_Basics of it.pdf", range 43 45)])
    by (vm_compute; reflexivity).
  destruct (chapter_files_hold_disjoint_pages writable true
              (Opened Example.book) (Reader 45) ["book.pdf"])
    as (Hsorted & Hfiles & _).
  rewrite Hw in Hsorted, Hfiles.
  split; [exact Hw|].
  apply StronglySorted_inv in Hsorted as [_ Hfirst].
  apply Forall_inv in Hfirst. split; [exact Hfirst|].
  split.
  - exact (proj1 (Hfiles _ _ (or_introl eq_refl))).
  - exact (proj1 (Hfiles _ _ (or_intror (or_introl eq_refl)))).
Defined.
(* --------------------------------------------------------------------- *)
(** ** Reading the lines of a table of contents *)
(* --------------------------------------------------------------------- *)

Lemma string_app_split (a b c d : string) :
  (a ++ b = c ++ d)%string ->
  (exists m, c = (a ++ m)%string /\ b = (m ++ d)%string)
  \/ (exists m, a = (c ++ m)%string /\ d = (m ++ b)%string).
Proof.
  revert c. induction a as [|x a IH]; intros c Heq.
  - left. exists c. cbn in *. auto.
  - destruct c as [|y c].
    + right. exists (String x a). cbn in *. auto.
    + cbn in Heq. injection Heq as -> Heq.
      destruct (IH c Heq) as [[m [-> ->]]|[m [-> ->]]].
      * left. exists m. auto.
      * right. exists m. auto.
Qed.

Lemma string_length_app (a b : string) :
  String.length (a ++ b) = (String.length a + String.length b)%nat.
Proof. induction a as [|x a IH]; cbn; [reflexivity|now rewrite IH]. Qed.

(** A repetition splits its input: a run of its class, which it takes, and
    the rest, which it hands to its continuation. *)
Lemma rep_loop_split {A} (cls : ascii -> bool) (lo : nat) (hi : option nat)
    (greedy : bool) (k : string -> option ascii -> string -> option A)
    (rest : string) :
  forall (n : nat) (taken : string) (prev : option ascii) (r : A),
    rep_loop cls lo hi greedy k n taken prev rest = Some r ->
    exists t rest',
      rest = (t ++ rest')%string
      /\ k (taken ++ t)%string (prev_after prev t) rest' = Some r
      /\ all_str cls t = true
      /\ (lo <= n + String.length t)%nat.
Proof.
  induction rest as [|c rest IH]; intros n taken prev r Hr;
    cbn [rep_loop] in Hr.
  - assert (Hstop : (if Nat.leb lo n then k taken prev EmptyString else None)
                    = Some r).
    { destruct greedy; cbn in Hr; auto.
      now apply or_else_Some in Hr as [Hr|Hr]; [|discriminate]. }
    destruct (Nat.leb lo n) eqn:E; [|discriminate].
    apply Nat.leb_le in E.
    exists EmptyString, EmptyString.
    cbn [append prev_after String.length all_str].
    rewrite string_app_nil_r.
    split; [reflexivity|]. split; [exact Hstop|]. split; [reflexivity|lia].
  - assert (Hcases :
      (if Nat.leb lo n then k taken prev (String c rest) else None) = Some r
      \/ (if (cls c && below hi n)%bool
          then rep_loop cls lo hi greedy k (S n)
                        (taken ++ String c EmptyString) (Some c) rest
          else None) = Some r).
    { destruct greedy; apply or_else_Some in Hr; tauto. }
    destruct Hcases as [Hstop|Hmore].
    + destruct (Nat.leb lo n) eqn:E; [|discriminate].
      apply Nat.leb_le in E.
      exists EmptyString, (String c rest).
      cbn [append prev_after String.length all_str].
      rewrite string_app_nil_r.
      split; [reflexivity|]. split; [exact Hstop|]. split; [reflexivity|lia].
    + destruct (cls c && below hi n)%bool eqn:E; [|discriminate].
      apply andb_true_iff in E as [Hc _].
      destruct (IH _ _ _ _ Hmore) as (t & rest' & -> & Hk & Ht & Hlo).
      exists (String c t), rest'.
      rewrite string_app_assoc in Hk. cbn in Hk |- *.
      rewrite Hc, Ht.
      split; [reflexivity|]. split; [exact Hk|]. split; [reflexivity|lia].
Qed.

(** A lazy repetition takes the shortest run after which the rest of the
    pattern matches. *)
Lemma rep_loop_lazy_run {A} (cls : ascii -> bool) (lo : nat)
    (hi : option nat) (k : string -> option ascii -> string -> option A)
    (run rest : string) :
  forall (n : nat) (taken : string) (prev : option ascii) (r : A),
    all_str cls run = true ->
    (forall j, (j < String.length run)%nat -> below hi (n + j) = true) ->
    (lo <= n + String.length run)%nat ->
    (forall pre post,
        run = (pre ++ post)%string -> post <> EmptyString ->
        k (taken ++ pre)%string (prev_after prev pre) (post ++ rest)%string
        = None) ->
    k (taken ++ run)%string (prev_after prev run) rest = Some r ->
    rep_loop cls lo hi false k n taken prev (run ++ rest) = Some r.
Proof.
  induction run as [|c run IH]; intros n taken prev r Hrun Hbelow Hlo Hfail Hk.
  - cbn [append String.length prev_after] in *.
    rewrite string_app_nil_r in Hk. rewrite Nat.add_0_r in Hlo.
    apply Nat.leb_le in Hlo.
    destruct rest as [|d rest]; cbn [rep_loop]; rewrite Hlo, Hk; reflexivity.
  - cbn in Hrun. apply andb_true_iff in Hrun as [Hc Hrun].
    cbn [append rep_loop].
    pose proof (Hfail EmptyString (String c run) eq_refl) as Hhere.
    cbn [append prev_after] in Hhere. rewrite string_app_nil_r in Hhere.
    rewrite Hhere by discriminate.
    replace (if Nat.leb lo n then None else None) with (@None A)
      by now destruct (Nat.leb lo n).
    cbn [or_else]. rewrite Hc.
    rewrite <- (Nat.add_0_r n) at 1.
    rewrite (Hbelow 0%nat) by (cbn; lia). cbn [andb].
    apply IH; auto.
    + intros j Hj. replace (S n + j)%nat with (n + S j)%nat by lia.
      apply Hbelow. cbn. lia.
    + cbn [String.length] in Hlo. lia.
    + intros pre post -> Hpost.
      rewrite string_app_assoc.
      apply (Hfail (String c pre) post eq_refl Hpost).
    + now rewrite string_app_assoc.
Qed.

(** The same for one atom of a pattern. *)
Lemma match_here_lazy (multiline : bool) (cap : bool)
    (cls : ascii -> bool) (lo : nat) (p : pattern)
    (run rest : string) (prev : option ascii) (caps : list string)
    (after : string) :
  all_str cls run = true ->
  (lo <= String.length run)%nat ->
  (forall pre post,
      run = (pre ++ post)%string -> post <> EmptyString ->
      match_here multiline p (prev_after prev pre) (post ++ rest)%string
      = None) ->
  match_here multiline p (prev_after prev run) rest = Some (caps, after) ->
  match_here multiline (Rep cap cls lo None false :: p) prev (run ++ rest)
  = Some (if cap then run :: caps else caps, after).
Proof.
  intros Hrun Hlo Hfail Hm. cbn [match_here].
  apply rep_loop_lazy_run; auto.
  - intros pre post Hsplit Hpost. cbn [append].
    now rewrite (Hfail pre post Hsplit Hpost).
  - cbn [append]. now rewrite Hm.
Qed.

Lemma at_eol_head (multiline : bool) (c : ascii) (r : string) :
  at_eol multiline (String c r) = true -> dot c = false.
Proof.
  unfold at_eol, dot. intros H. apply andb_true_iff in H as [H _].
  now rewrite H.
Qed.

Lemma leader_spec (c : ascii) :
  leader c = true ->
  space_or_dot c = true /\ isdecimal c = false /\ dot c = true.
Proof.
  unfold leader. intros H. apply orb_true_iff in H as [H|H];
    apply Ascii.eqb_eq in H; subst c; repeat split.
Qed.

Lemma isdecimal_not_leader (c : ascii) :
  isdecimal c = true -> space_or_dot c = false /\ dot c = true.
Proof.
  intros Hc. unfold space_or_dot. rewrite (isdecimal_not_space c Hc).
  destruct c as [[] [] [] [] [] [] [] []]; try discriminate Hc; split;
    reflexivity.
Qed.

(** Leaders and a page number at the end of a line split the input into
    the two runs and what follows the line. *)
Lemma match_here_leaders_page_split (multiline : bool)
    (prev : option ascii) (s : string) (x : list string * string) :
  match_here multiline
    [Rep false space_or_dot 1 None true; Rep true isdecimal 1 None true; Eol]
    prev s = Some x ->
  exists leaders digits rest,
    s = (leaders ++ digits ++ rest)%string
    /\ all_str space_or_dot leaders = true
    /\ all_str isdecimal digits = true
    /\ at_eol multiline rest = true.
Proof.
  cbn [match_here]. intros Hm.
  apply rep_loop_split in Hm as (leaders & rest1 & -> & Hk & Hl & _).
  match type of Hk with
  | match ?m with _ => _ end = _ => destruct m as [[caps after]|] eqn:E
  end; [|discriminate].
  apply rep_loop_split in E as (digits & rest2 & -> & Hk2 & Hd & _).
  destruct (at_eol multiline rest2) eqn:Heol; [|discriminate].
  now exists leaders, digits, rest2.
Qed.

(** Digits cannot run over a leader to the end of a line. *)
Lemma digits_stop_at_leader (multiline : bool) (l0 : ascii)
    (w digits rest : string) :
  leader l0 = true ->
  String l0 w = (digits ++ rest)%string ->
  all_str isdecimal digits = true ->
  at_eol multiline rest = true -> False.
Proof.
  intros Hl Heq Hd Heol. destruct (leader_spec l0 Hl) as (_ & Hnd & Hdot).
  destruct digits as [|d digits]; cbn in Heq.
  - subst rest. apply at_eol_head in Heol. congruence.
  - injection Heq as <- _. cbn in Hd.
    apply andb_true_iff in Hd as [Hd _]. congruence.
Qed.

(** Where a title goes on, up to a character that is neither whitespace
    nor a dot, no leaders and page number are found before the end of the
    title. *)
Lemma leaders_page_fail (multiline : bool) (prev : option ascii)
    (x : string) (c l0 : ascii) (w : string) :
  all_str dot x = true -> dot c = true -> space_or_dot c = false ->
  leader l0 = true ->
  match_here multiline
    [Rep false space_or_dot 1 None true; Rep true isdecimal 1 None true; Eol]
    prev (x ++ String c (String l0 w))
  = None.
Proof.
  intros Hx Hc Hsep Hl.
  match goal with |- ?m = None => destruct m as [r|] eqn:E end; auto.
  exfalso.
  apply match_here_leaders_page_split in E
    as (leaders & digits & rest & Heq & Hls & Hds & Heol).
  symmetry in Heq.
  apply string_app_split in Heq as [(m & -> & Heq)|(m & -> & Heq)].
  - rewrite all_str_app in Hx. apply andb_true_iff in Hx as [_ Hm].
    apply string_app_split in Heq as [(m' & -> & ->)|(m' & -> & Heq)].
    + rewrite all_str_app in Hm. apply andb_true_iff in Hm as [_ Hm'].
      destruct m' as [|y m']; cbn [append all_str] in Heol, Hm'.
      * apply at_eol_head in Heol. congruence.
      * apply andb_true_iff in Hm' as [Hy _].
        apply at_eol_head in Heol. congruence.
    + destruct m' as [|y m']; cbn in Heq.
      * subst rest. apply at_eol_head in Heol. congruence.
      * injection Heq as <- Heq.
        rewrite all_str_app in Hds. apply andb_true_iff in Hds as [_ Hds].
        cbn in Hds.
        apply andb_true_iff in Hds as [_ Hds].
        exact (digits_stop_at_leader multiline l0 w m' rest Hl Heq Hds Heol).
  - destruct m as [|y m]; cbn in Heq.
    + destruct digits as [|d digits]; cbn in Heq.
      * subst rest. apply at_eol_head in Heol. congruence.
      * injection Heq as <- Heq. cbn in Hds.
        apply andb_true_iff in Hds as [_ Hds].
        exact (digits_stop_at_leader multiline l0 w digits rest Hl Heq Hds
                 Heol).
    + injection Heq as <- _.
      rewrite all_str_app in Hls. apply andb_true_iff in Hls as [_ Hls].
      cbn in Hls.
      apply andb_true_iff in Hls as [Hy _]. congruence.
Qed.
Lemma last_char_split (s : string) (c : ascii) :
  last_char s = Some c -> exists x, s = (x ++ String c EmptyString)%string.
Proof.
  induction s as [|a s IH]; [discriminate|].
  destruct s as [|b s].
  - cbn. intros [= ->]. now exists EmptyString.
  - intros H.
    change (last_char (String a (String b s)))
      with (last_char (String b s)) in H.
    destruct (IH H) as [x Hx]. exists (String a x). cbn [append].
    now rewrite <- Hx.
Qed.

Lemma last_char_app (pre post : string) :
  post <> EmptyString -> last_char (pre ++ post) = last_char post.
Proof.
  intros Hp. induction pre as [|a pre IH]; auto.
  cbn [append]. destruct (pre ++ post)%string as [|b r] eqn:E.
  - destruct pre; cbn in E; [congruence|discriminate].
  - rewrite <- IH. reflexivity.
Qed.

Lemma match_here_bol_at (multiline : bool) (p : pattern)
    (prev : option ascii) (s : string) :
  at_bol multiline prev = true ->
  match_here multiline (Bol :: p) prev s = match_here multiline p prev s.
Proof. intros Hb. cbn [match_here]. now rewrite Hb. Qed.

Lemma match_here_bol_fail (multiline : bool) (p : pattern)
    (prev : option ascii) (s : string) :
  at_bol multiline prev = false ->
  match_here multiline (Bol :: p) prev s = None.
Proof. intros Hb. cbn [match_here]. now rewrite Hb. Qed.

Lemma match_here_eol_at (multiline : bool) (prev : option ascii)
    (tail : string) :
  at_eol multiline tail = true ->
  match_here multiline [Eol] prev tail = Some ([], tail).
Proof. intros He. cbn [match_here]. now rewrite He. Qed.

(** The pattern matches a standard line that starts where a line may start
    and ends where a line may end; its groups are the numeral, the title
    and the page. *)
Lemma toc_line_match (l : toc_line) (prev : option ascii) (tail : string) :
  standard_line l -> at_bol true prev = true -> at_eol true tail = true ->
  match_here true toc_pattern_numbered prev (line_text l ++ tail)
  = Some (line_groups l, tail).
Proof.
  destruct l as [number title leaders digits].
  unfold standard_line, line_text, line_groups, toc_pattern_numbered.
  cbn [line_number line_title line_leaders line_page].
  intros (Hn & Hnlen & Ht & Hs & (c & Hlast & Hc) & Hl & Hllen & Hp & Hplen)
         Hbol Heol.
  rewrite (match_here_bol_at _ _ _ _ Hbol).
  rewrite string_app_assoc. cbn [append]. rewrite !string_app_assoc.
  change (Some ([number; title; digits], tail))
    with (Some (if true then number :: [title; digits]
                else [title; digits], tail)).
  apply (match_here_greedy true true digit_or_dot 1 None).
  - exact Hn.
  - reflexivity.
  - reflexivity.
  - exact Hnlen.
  - change (String " " (title ++ leaders ++ digits ++ tail))
      with (String " " EmptyString ++ (title ++ leaders ++ digits ++ tail))%string.
    change (Some ([title; digits], tail))
      with (Some (if false then String " " EmptyString :: [title; digits]
                  else [title; digits], tail)).
    apply (match_here_greedy true false isspace 0 None).
    + reflexivity.
    + reflexivity.
    + pose proof (head_not_space title Hs) as Hh.
      destruct title; [discriminate Hlast|exact Hh].
    + cbn. lia.
    + change (Some ([title; digits], tail))
        with (Some (if true then title :: [digits] else [digits], tail)).
      apply (match_here_lazy true true dot 1).
      * exact Ht.
      * destruct title; [discriminate Hlast|cbn; lia].
      * intros pre post Hsplit Hpost.
        rewrite Hsplit, (last_char_app pre post Hpost) in Hlast.
        destruct (last_char_split post c Hlast) as [x ->].
        rewrite Hsplit, !all_str_app in Ht.
        apply andb_true_iff in Ht as [_ Ht].
        apply andb_true_iff in Ht as [Hx Hdc]. cbn in Hdc.
        rewrite andb_true_r in Hdc.
        destruct leaders as [|l0 w]; [cbn in Hllen; lia|].
        cbn in Hl. apply andb_true_iff in Hl as [Hl0 _].
        rewrite string_app_assoc. cbn [append].
        now apply leaders_page_fail.
      * change (Some ([digits], tail))
          with (Some (if false then leaders :: [digits] else [digits], tail)).
        apply (match_here_greedy true false space_or_dot 1 None).
        -- apply (all_str_impl leader); [|exact Hl].
           intros a Ha. now destruct (leader_spec a Ha).
        -- reflexivity.
        -- destruct digits as [|d0 ds]; [cbn in Hplen; lia|].
           cbn in Hp. apply andb_true_iff in Hp as [Hd0 _].
           cbn [append].
           now rewrite (proj1 (isdecimal_not_leader d0 Hd0)).
        -- exact Hllen.
        -- change (Some ([digits], tail))
             with (Some (if true then digits :: [] else [], tail)).
           apply (match_here_greedy true true isdecimal 1 None).
           ++ exact Hp.
           ++ reflexivity.
           ++ destruct tail as [|a tail']; [exact I|].
              apply at_eol_head in Heol. unfold dot in Heol.
              apply negb_false_iff, Ascii.eqb_eq in Heol. now subst a.
           ++ exact Hplen.
           ++ now apply match_here_eol_at.
Qed.
(** Stepping over the characters of a match. *)
Lemma finditer_skip (multiline : bool) (p : pattern) (run s : string) :
  forall prev,
    finditer_from multiline p (String.length run) prev (run ++ s)
    = finditer_from multiline p 0 (prev_after prev run) s.
Proof.
  induction run as [|c run IH]; intros prev.
  - reflexivity.
  - cbn [String.length append prev_after finditer_from]. apply IH.
Qed.

(** After a match that starts here the search resumes where it ends. *)
Lemma finditer_from_match (multiline : bool) (p : pattern)
    (prev : option ascii) (c : ascii) (r tail : string)
    (caps : list string) :
  match_here multiline p prev (String c r ++ tail) = Some (caps, tail) ->
  finditer_from multiline p 0 prev (String c r ++ tail)
  = caps :: finditer_from multiline p 0 (prev_after (Some c) r) tail.
Proof.
  intros Hm. cbn [append] in Hm |- *. cbn [finditer_from]. rewrite Hm.
  f_equal. cbn [String.length]. rewrite string_length_app.
  replace (Nat.pred (S (String.length r + String.length tail)
                     - String.length tail))
    with (String.length r) by lia.
  apply finditer_skip.
Qed.

Lemma last_char_none (s : string) : last_char s = None -> s = EmptyString.
Proof.
  induction s as [|a s IH]; auto.
  destruct s as [|b s]; [discriminate|]. intros Hn.
  change (last_char (String a (String b s)))
    with (last_char (String b s)) in Hn.
  apply IH in Hn. discriminate.
Qed.

(** The last character of a standard line is a digit. *)
Lemma line_text_end (l : toc_line) :
  standard_line l ->
  exists c r d,
    line_text l = String c r
    /\ prev_after (Some c) r = Some d /\ isdecimal d = true.
Proof.
  destruct l as [number title leaders digits].
  unfold standard_line, line_text.
  cbn [line_number line_title line_leaders line_page].
  intros (_ & Hnlen & _ & _ & _ & _ & _ & Hp & Hplen).
  destruct number as [|c number]; [cbn in Hnlen; lia|].
  destruct (last_char digits) as [d|] eqn:Hd.
  - destruct (last_char_split digits d Hd) as [x ->].
    rewrite all_str_app in Hp. apply andb_true_iff in Hp as [_ Hp].
    cbn in Hp. rewrite andb_true_r in Hp.
    exists c, (number ++ String " " (title ++ leaders
                                     ++ x ++ String d EmptyString))%string, d.
    split; [reflexivity|]. split; [|exact Hp].
    replace (number ++ String " " (title ++ leaders
                                   ++ x ++ String d EmptyString))%string
      with ((number ++ String " " (title ++ leaders ++ x))
            ++ String d EmptyString)%string.
    + apply prev_after_app.
    + rewrite !string_app_assoc. cbn [append]. now rewrite !string_app_assoc.
  - apply last_char_none in Hd. subst digits. cbn in Hplen. lia.
Qed.

Lemma isdecimal_not_newline (d : ascii) :
  isdecimal d = true -> at_bol true (Some d) = false.
Proof.
  intros Hd. destruct (isdecimal_not_leader d Hd) as [_ Hdot].
  unfold dot in Hdot. apply negb_true_iff in Hdot. exact Hdot.
Qed.
(** No match starts inside a line, nor on a character that is neither a
    digit nor a dot. *)
Lemma toc_no_match_head (prev : option ascii) (s : string) :
  match s with
  | EmptyString => True
  | String c _ => digit_or_dot c = false
  end ->
  match_here true toc_pattern_numbered prev s = None.
Proof.
  intros Hs. unfold toc_pattern_numbered. cbn [match_here].
  destruct (at_bol true prev); [|reflexivity].
  destruct s as [|c r]; cbn [rep_loop Nat.leb or_else]; [reflexivity|].
  now rewrite Hs.
Qed.

Lemma toc_no_match_inside (prev : option ascii) (s : string) :
  at_bol true prev = false ->
  match_here true toc_pattern_numbered prev s = None.
Proof. intros Hb. unfold toc_pattern_numbered. now apply match_here_bol_fail. Qed.

Lemma dot_not_bol (c : ascii) : dot c = true -> at_bol true (Some c) = false.
Proof. unfold dot. intros Hc. now apply negb_true_iff in Hc. Qed.

(** The search passes over what is left of a line. *)
Lemma finditer_rest_of_line (s tail : string) :
  forall prev,
    all_str dot s = true -> at_bol true prev = false ->
    finditer_from true toc_pattern_numbered 0 prev (s ++ tail)
    = finditer_from true toc_pattern_numbered 0 (prev_after prev s) tail
    /\ at_bol true (prev_after prev s) = false.
Proof.
  induction s as [|c s IH]; intros prev Hs Hb.
  - auto.
  - cbn in Hs. apply andb_true_iff in Hs as [Hc Hs].
    cbn [append finditer_from prev_after].
    rewrite (toc_no_match_inside prev _ Hb).
    apply IH; [exact Hs|now apply dot_not_bol].
Qed.

(** The search passes over a line that is no entry, up to its end. *)
Lemma finditer_plain_line (s tail : string) (prev : option ascii) :
  plain_line s ->
  exists prev',
    finditer_from true toc_pattern_numbered 0 prev (s ++ tail)
    = finditer_from true toc_pattern_numbered 0 prev' tail
    /\ (s = EmptyString -> prev' = prev)
    /\ (s <> EmptyString -> at_bol true prev' = false).
Proof.
  intros [Hs Hhead]. destruct s as [|c r].
  - exists prev. cbn [append]. split; [reflexivity|]. split; congruence.
  - cbn in Hs. apply andb_true_iff in Hs as [Hc Hr].
    exists (prev_after (Some c) r).
    cbn [append finditer_from].
    rewrite (toc_no_match_head prev (String c (r ++ tail)) Hhead).
    destruct (finditer_rest_of_line r tail (Some c) Hr (dot_not_bol c Hc))
      as [Heq Hb].
    split; [exact Heq|]. split; [discriminate|auto].
Qed.

(** At a line break that no match reaches over, the search goes on with
    the next line. *)
Lemma finditer_line_break (prev : option ascii) (text : string) :
  finditer_from true toc_pattern_numbered 0 prev (String newline text)
  = finditer_from true toc_pattern_numbered 0 (Some newline) text.
Proof.
  cbn [finditer_from].
  now rewrite (toc_no_match_head prev (String newline text) eq_refl).
Qed.

Lemma finditer_end (prev : option ascii) :
  finditer_from true toc_pattern_numbered 0 prev EmptyString = [].
Proof.
  cbn [finditer_from]. now rewrite (toc_no_match_head prev EmptyString I).
Qed.

(** The search passes over one line of a page: an entry gives its match,
    another line gives none. *)
Lemma finditer_one_line (pl : page_line) (tail : string)
    (prev : option ascii) :
  well_formed_line pl -> at_bol true prev = true ->
  at_eol true tail = true ->
  exists prev',
    finditer_from true toc_pattern_numbered 0 prev (page_line_text pl ++ tail)
    = map line_groups (entries_of [pl])
      ++ finditer_from true toc_pattern_numbered 0 prev' tail.
Proof.
  intros Hwf Hbol Heol. destruct pl as [l|s]; cbn [page_line_text].
  - destruct (line_text_end l Hwf) as (c & r & d & Htext & Hprev & Hd).
    pose proof (toc_line_match l prev tail Hwf Hbol Heol) as Hm.
    rewrite Htext in Hm |- *.
    rewrite (finditer_from_match _ _ _ _ _ _ _ Hm).
    exists (prev_after (Some c) r). reflexivity.
  - destruct (finditer_plain_line s tail prev Hwf) as (prev' & Heq & _).
    exists prev'. exact Heq.
Qed.

(** The matches on a page of well-formed lines: one for each entry, in the
    order of the lines, with its numeral, title and page. *)
Lemma finditer_lines (pls : list page_line) :
  Forall well_formed_line pls ->
  forall prev, at_bol true prev = true ->
    finditer_from true toc_pattern_numbered 0 prev (lines_text pls)
    = map line_groups (entries_of pls).
Proof.
  induction pls as [|pl pls IH]; intros Hall prev Hbol.
  - apply finditer_end.
  - inversion Hall as [|? ? Hpl Hrest]; subst.
    destruct pls as [|pl' pls'].
    + cbn [lines_text].
      rewrite <- (string_app_nil_r (page_line_text pl)).
      destruct (finditer_one_line pl EmptyString prev Hpl Hbol eq_refl)
        as [prev' ->].
      now rewrite finditer_end, app_nil_r.
    + change (lines_text (pl :: pl' :: pls'))
        with (page_line_text pl
              ++ String newline (lines_text (pl' :: pls')))%string.
      destruct (finditer_one_line pl
                  (String newline (lines_text (pl' :: pls'))) prev Hpl Hbol
                  eq_refl) as [prev' ->].
      rewrite finditer_line_break, (IH Hrest (Some newline) eq_refl).
      unfold entries_of. cbn [flat_map].
      now rewrite app_nil_r, !map_app.
Qed.
(** ** What the extractor reads on a page of lines *)

Lemma parse_line_groups (l : toc_line) :
  standard_line l -> parse_entry (line_groups l) = Some (line_entry l).
Proof.
  intros (Hn & _ & _ & Hs & _ & _ & _ & Hp & Hplen).
  unfold parse_entry, line_groups, line_entry, line_page_number.
  destruct (int_of_str_decimal _ Hp Hplen) as [v ->].
  now rewrite (strip_numeral _ Hn), Hs.
Qed.

Lemma entries_of_app (a b : list page_line) :
  entries_of (a ++ b) = entries_of a ++ entries_of b.
Proof. apply flat_map_app. Qed.

Lemma entries_of_standard (pls : list page_line) :
  Forall well_formed_line pls -> Forall standard_line (entries_of pls).
Proof.
  induction 1 as [|pl pls Hpl _ IH]; [constructor|].
  unfold entries_of. cbn [flat_map].
  destruct pl as [l|s]; [constructor; assumption|exact IH].
Qed.

Section LinesOfPages.
Context `{SizeNum}.

Lemma page_matches_lines (p : page) (pls : list page_line) :
  page_of_lines p pls ->
  page_matches p = map line_groups (entries_of pls)
  /\ Forall standard_line (entries_of pls).
Proof.
  intros [Htext Hall]. split; [|now apply entries_of_standard].
  unfold page_matches, finditer. rewrite Htext.
  rewrite <- (finditer_lines pls Hall None eq_refl).
  destruct (lines_text pls); [|reflexivity].
  symmetry. apply finditer_end.
Qed.

Lemma parse_lines (ls : list toc_line) :
  Forall standard_line ls ->
  flat_map (fun groups => match parse_entry groups with
                          | Some e => [e]
                          | None => []
                          end)
           (map line_groups ls)
  = map line_entry ls.
Proof.
  induction 1 as [|l ls Hl _ IH]; [reflexivity|].
  cbn [map flat_map]. now rewrite (parse_line_groups l Hl), IH.
Qed.

Lemma scanned_entries_lines (pages : list page)
    (plss : list (list page_line)) :
  Forall2 page_of_lines pages plss ->
  flat_map page_matches pages = map line_groups (entries_of (concat plss))
  /\ Forall standard_line (entries_of (concat plss))
  /\ scanned_entries pages = map line_entry (entries_of (concat plss)).
Proof.
  intros Hall.
  assert (Hm : flat_map page_matches pages
               = map line_groups (entries_of (concat plss))
               /\ Forall standard_line (entries_of (concat plss))).
  { induction Hall as [|p pls pages plss Hp _ [IHm IHs]];
      [split; [reflexivity|constructor]|].
    destruct (page_matches_lines p pls Hp) as [Hpm Hps].
    cbn [flat_map concat]. rewrite entries_of_app, map_app, Hpm, IHm.
    split; [reflexivity|]. apply Forall_app. now split. }
  destruct Hm as [Hm Hs]. split; [exact Hm|]. split; [exact Hs|].
  unfold scanned_entries. rewrite Hm. now apply parse_lines.
Qed.

(** X15: on pages made of lines of which some are entries of the usual
    form -- a numeral of digits and dots, a blank, a title that ends with
    neither whitespace nor a dot, leaders of blanks and dots, a page number
    -- and the others do not start with a digit or a dot, the pattern of
    the extractor matches the entries and nothing else: one match for each
    entry, in the order of the lines, read as the numeral, the title and
    the page number of that line. *)
Theorem lines_of_contents_are_read (pages : list page)
    (plss : list (list page_line)) :
  Forall2 page_of_lines pages plss ->
  flat_map page_matches pages = map line_groups (entries_of (concat plss))
  /\ scanned_entries pages = map line_entry (entries_of (concat plss)).
Proof.
  intros Hall.
  destruct (scanned_entries_lines pages plss Hall) as (Hm & _ & Hs).
  now split.
Qed.

Lemma find_of_In {A} (f : A -> bool) (l : list A) (x : A) :
  In x l -> f x = true -> exists y, find f l = Some y.
Proof.
  intros Hin Hx. destruct (find f l) as [y|] eqn:E; [now exists y|].
  pose proof (find_none f l E x Hin). congruence.
Qed.

(** X16: when all the pages of the document are scanned and are made of
    such lines, an entry whose title is longer than 5 characters and whose
    page is greater than 1 is never missed: the extractor returns a
    mapping, and the label of the entry -- numeral, blank, title -- is one
    of its keys, with the page number of an entry on the pages that has
    this label. *)
Theorem entry_line_becomes_a_chapter (pages : list page)
    (plss : list (list page_line)) (pages_to_scan : Z) (l : toc_line) :
  Forall2 page_of_lines pages plss ->
  (Z.of_nat (List.length pages) <= pages_to_scan)%Z ->
  In l (entries_of (concat plss)) ->
  (5 < String.length (line_title l))%nat ->
  (1 < line_page_number l)%Z ->
  exists chapters first,
    snd (extract_chapters_from_toc true (Opened pages) pages_to_scan)
    = Some chapters
    /\ In first (entries_of (concat plss))
    /\ entry_label (line_entry first) = entry_label (line_entry l)
    /\ In ((line_number l ++ " " ++ line_title l)%string,
           line_page_number first) chapters.
Proof.
  intros Hall Hscan Hin Htitle Hpage.
  destruct (scanned_entries_lines pages plss Hall) as (_ & _ & Hs).
  unfold extract_chapters_from_toc. cbn [negb].
  rewrite toc_pages_entries, pages_scanned_firstn.
  rewrite firstn_all2 by lia. rewrite Hs.
  set (entries := map line_entry (entries_of (concat plss))).
  destruct (keep_entries_first entries [] [] (NoDup_nil _)) as [_ Hget].
  { intros label page. cbn. split; [discriminate|].
    intros (x & Hx & _). discriminate. }
  cbn [app] in Hget.
  set (label := (line_number l ++ " " ++ line_title l)%string).
  assert (Hacc : (acceptable (line_entry l)
                  && String.eqb (entry_label (line_entry l)) label)%bool
                 = true).
  { unfold acceptable, line_entry. cbn [entry_title entry_page].
    apply andb_true_iff. split.
    - apply andb_true_iff. split; [now apply Nat.ltb_lt|now apply Z.ltb_lt].
    - apply String.eqb_refl. }
  destruct (find_of_In
              (fun e => (acceptable e
                         && String.eqb (entry_label e) label)%bool)
              entries (line_entry l) (in_map line_entry _ _ Hin) Hacc)
    as [x Hx].
  fold (first_accepted label entries) in Hx.
  destruct (first_accepted_some label entries x Hx) as (Hxin & _ & Hlabel).
  apply in_map_iff in Hxin as (first & <- & Hfirst).
  assert (Hd : dict_get label (fold_left keep_entry entries [])
               = Some (line_page_number first)).
  { apply Hget. exists (line_entry first). now split. }
  apply dict_get_In in Hd.
  destruct (fold_left keep_entry entries []) as [|kv d] eqn:Ed;
    [contradiction|].
  cbn [is_nil negb snd].
  exists (sorted snd (kv :: d)), first.
  split; [reflexivity|]. split; [exact Hfirst|]. split; [exact Hlabel|].
  now apply sorted_In.
Qed.
End LinesOfPages.

(** The contents page of the example is made of such lines. *)
Lemma contents_of_lines :
  page_of_lines Example.contents Example.contents_lines.
Proof.
  split; [reflexivity|].
  repeat constructor; cbn; try lia; try reflexivity.
  - exists "n"%char. now split.
  - exists "t"%char. now split.
Qed.

Lemma lines_of_contents_are_read_witness :
  scanned_entries [Example.contents]
  = [mk_entry "1" "Introduction" 3; mk_entry "2" "Basics of it" 20].
Proof.
  assert (Hall : Forall2 page_of_lines [Example.contents]
                         [Example.contents_lines])
    by (constructor; [exact contents_of_lines|constructor]).
  exact (proj2 (lines_of_contents_are_read [Example.contents]
                  [Example.contents_lines] Hall)).
Defined.

Lemma entry_line_becomes_a_chapter_witness :
  exists chapters first,
    snd (extract_chapters_from_toc true (Opened [Example.contents]) 15)
    = Some chapters
    /\ In first (entries_of (concat [Example.contents_lines]))
    /\ entry_label (line_entry first)
       = entry_label
           (line_entry (mk_toc_line "2" "Basics of it" " ..... " "20"))
    /\ In ("2 Basics of it", line_page_number first) chapters.
Proof.
  assert (Hall : Forall2 page_of_lines [Example.contents]
                         [Example.contents_lines])
    by (constructor; [exact contents_of_lines|constructor]).
  assert (Hscan : (Z.of_nat (List.length [Example.contents]) <= 15)%Z)
    by (cbn; lia).
  assert (Hin : In (mk_toc_line "2" "Basics of it" " ..... " "20")
                   (entries_of (concat [Example.contents_lines])))
    by (cbn; auto).
  assert (Htitle : (5 < String.length "Basics of it")%nat) by (cbn; lia).
  assert (Hpage : (1 < line_page_number
                         (mk_toc_line "2" "Basics of it" " ..... " "20"))%Z)
    by (vm_compute; reflexivity).
  exact (entry_line_becomes_a_chapter [Example.contents]
           [Example.contents_lines] 15
           (mk_toc_line "2" "Basics of it" " ..... " "20")
           Hall Hscan Hin Htitle Hpage).
Defined.

(* --------------------------------------------------------------------- *)
(** ** The anchor of the manual fallback *)
(* --------------------------------------------------------------------- *)

Lemma anchors_app (a b : list line) : anchors (a ++ b) = anchors a ++ anchors b.
Proof. apply flat_map_app. Qed.

Lemma anchors_nil : anchors [] = [].
Proof. reflexivity. Qed.

Lemma anchors_cons_other (l : line) (out : list line) :
  match l with MainManualRequired _ _ => False | _ => True end ->
  anchors (l :: out) = anchors out.
Proof. now destruct l. Qed.

Lemma anchors_cons_required (anchor_chapter : option string)
    (anchor_printed_page : Z) (out : list line) :
  anchors (MainManualRequired anchor_chapter anchor_printed_page :: out)
  = (anchor_chapter, anchor_printed_page) :: anchors out.
Proof. reflexivity. Qed.

Ltac anchors_simpl :=
  repeat first [rewrite anchors_app
               |rewrite anchors_cons_required
               |rewrite anchors_cons_other by exact I
               |rewrite anchors_nil].

Lemma In_anchors (out : list line) (anchor_chapter : option string)
    (anchor_printed_page : Z) :
  In (MainManualRequired anchor_chapter anchor_printed_page) out
  <-> In (anchor_chapter, anchor_printed_page) (anchors out).
Proof.
  unfold anchors. rewrite in_flat_map. split.
  - intros Hin. eexists. split; [exact Hin|]. now left.
  - intros (l & Hin & Hl). destruct l; try contradiction.
    destruct Hl as [[= <- <-]|[]]. exact Hin.
Qed.

Lemma anchors_prompt (stdin : list string) :
  anchors (fst (prompt_file_page stdin)) = [].
Proof.
  induction stdin as [|user_input rest IH]; [reflexivity|].
  cbn [prompt_file_page].
  destruct (prompt_file_page rest) as [out r]. cbn [fst] in IH.
  destruct (int_of_str (strip user_input)) as [file_page|]; [|exact IH].
  destruct (Z.ltb file_page 1); [exact IH|reflexivity].
Qed.

Lemma anchors_manual_fallback (first_chapter_title : string)
    (first_chapter_printed_page : Z) (stdin : list string) :
  anchors (fst (manual_fallback first_chapter_title
                  first_chapter_printed_page stdin))
  = [manual_anchor first_chapter_title first_chapter_printed_page].
Proof.
  unfold manual_fallback.
  destruct (manual_anchor first_chapter_title first_chapter_printed_page)
    as [anchor_chapter anchor_printed_page].
  destruct (provided_answer_applies first_chapter_title anchor_printed_page);
    [reflexivity|].
  pose proof (anchors_prompt stdin) as Hp.
  destruct (prompt_file_page stdin) as [out [[file_page rest]|]];
    cbn [fst] in Hp |- *.
  - change (anchors (MainManualRequired anchor_chapter anchor_printed_page
                     :: out ++ [MainManualOffset
                                  (file_page - anchor_printed_page)]))
      with ((anchor_chapter, anchor_printed_page)
            :: anchors (out ++ [MainManualOffset
                                  (file_page - anchor_printed_page)])).
    now rewrite anchors_app, Hp.
  - change (anchors (MainManualRequired anchor_chapter anchor_printed_page
                     :: out))
      with ((anchor_chapter, anchor_printed_page) :: anchors out).
    now rewrite Hp.
Qed.

Lemma anchors_chapter_lines (total_pages : nat) (pm : dict (Z * Z))
    (chapters : dict (Z * Z)) :
  anchors (flat_map (chapter_lines total_pages pm) chapters) = [].
Proof.
  induction chapters as [|[title [s e]] rest IH]; [reflexivity|].
  cbn [flat_map]. rewrite anchors_app, IH. unfold chapter_lines.
  now destruct (invalid_range total_pages s e).
Qed.

Lemma anchors_split_with_offset (fs : filesystem) (total_pages : nat)
    (chapter_starts : dict Z) (page_offset : Z) :
  anchors (printed (split_with_offset fs total_pages chapter_starts
                      page_offset)) = [].
Proof.
  unfold split_with_offset, split_pdf_by_chapters. cbn [printed].
  match goal with
  | |- context [split_chapters fs total_pages ?pm ?chapters ?e0] =>
      destruct (split_chapters_spec fs total_pages pm chapters e0)
        as (reached & rest & _ & _ & Hrest);
      pose proof (anchors_chapter_lines total_pages pm reached) as Hc
  end.
  destruct rest as [|[title [s e]] rest'].
  - rewrite Hrest. unfold say, no_effects. cbn [printed app].
    anchors_simpl. now rewrite Hc.
  - destruct Hrest as (_ & err & _ & Hp). rewrite Hp.
    unfold say, no_effects. cbn [printed app].
    anchors_simpl. now rewrite Hc.
Qed.

Section AnchorOfARun.
Context `{SizeNum}.

Lemma anchors_extract (pdfplumber : bool) (pdf : opened)
    (pages_to_scan : Z) :
  anchors (fst (extract_chapters_from_toc pdfplumber pdf pages_to_scan))
  = [].
Proof.
  unfold extract_chapters_from_toc.
  destruct pdfplumber; [|reflexivity]. cbn [negb].
  destruct pdf as [pages| |e]; try reflexivity.
  destruct (toc_pages [] (pages_scanned pages pages_to_scan)) as [d|e];
    [|reflexivity].
  now destruct (is_nil d).
Qed.

Lemma anchors_scan_pages (pages : list page)
    (search_key page_number_key : string) (printed_start_page : Z)
    (indices : list nat) :
  forall first_page_checked,
    anchors (fst (scan_pages pages search_key page_number_key
                    printed_start_page first_page_checked indices)) = [].
Proof.
  induction indices as [|i rest IH]; intros first; [reflexivity|].
  cbn [scan_pages]. specialize (IH false).
  destruct (scan_pages pages search_key page_number_key printed_start_page
              false rest) as [out' r]. cbn [fst] in IH.
  destruct (nth_error pages i) as [p|];
    [|destruct first; reflexivity].
  destruct (inspect search_key page_number_key p) as [[|[] []]|e];
    destruct first; cbn [fst app]; rewrite ?anchors_app, ?IH;
    try reflexivity; cbn [anchors flat_map app]; exact IH.
Qed.

Lemma anchors_scan (pdfplumber : bool) (pdf : opened)
    (chapter_title : string) (printed_start_page toc_end_file_page : Z) :
  anchors (fst (find_offset_by_title_scan pdfplumber pdf chapter_title
                  printed_start_page toc_end_file_page)) = [].
Proof.
  unfold find_offset_by_title_scan.
  destruct pdfplumber; [|reflexivity]. cbn [negb].
  destruct (is_empty (clean_chapter_title chapter_title)); [reflexivity|].
  destruct pdf as [pages| |e]; try reflexivity.
  match goal with
  | |- context [scan_pages ?a ?b ?c ?d ?f ?g] =>
      pose proof (anchors_scan_pages a b c d g f) as Hs;
      destruct (scan_pages a b c d f g) as [out r]
  end.
  exact Hs.
Qed.

(** X5: a run asks for a page number at most for one of two anchors.
    When pypdf reads the file, the anchor is the first chapter of the
    extractor with its printed page, which is greater than 1 and the
    least of the printed pages of the chapters; the scan for that chapter
    has failed. When pypdf cannot read the file, the anchor is printed
    page 1, without a chapter, and the run does not reach the end of the
    script. *)
Theorem manual_anchor_of_a_run (fs : filesystem) (pdfplumber : bool)
    (pdf : opened) (input_pdf : reader) (stdin : list string)
    (anchor_chapter : option string) (anchor_printed_page : Z) :
  In (MainManualRequired anchor_chapter anchor_printed_page)
     (printed (run_effects (main fs pdfplumber pdf input_pdf stdin))) ->
  (exists total_pages first_chapter_title more,
      input_pdf = Reader total_pages
      /\ snd (extract_chapters_from_toc pdfplumber pdf 15)
         = Some ((first_chapter_title, anchor_printed_page) :: more)
      /\ anchor_chapter = Some first_chapter_title
      /\ (1 < anchor_printed_page)%Z
      /\ (forall title page,
             In (title, page) more -> (anchor_printed_page <= page)%Z)
      /\ snd (find_offset_by_title_scan pdfplumber pdf first_chapter_title
                anchor_printed_page TOC_END_FILE_PAGE) = None)
  \/ (exists e,
         input_pdf = ReaderFailed e
         /\ anchor_chapter = None /\ anchor_printed_page = 1%Z
         /\ run_ending (main fs pdfplumber pdf input_pdf stdin)
            <> Finished).
Proof.
  rewrite In_anchors. unfold main.
  destruct stdin as [|path typed]; [contradiction|].
  pose proof (anchors_extract pdfplumber pdf 15) as Hout.
  destruct (extract_chapters_from_toc pdfplumber pdf 15)
    as [out [[|[title page] more]|]] eqn:Eext; cbn [fst] in Hout.
  - cbn [stop run_effects printed]. anchors_simpl. rewrite Hout.
    contradiction.
  - destruct input_pdf as [total_pages| |e].
    + pose proof (anchors_scan pdfplumber pdf title page TOC_END_FILE_PAGE)
        as Hout1.
      destruct (find_offset_by_title_scan pdfplumber pdf title page
                  TOC_END_FILE_PAGE)
        as [out1 [[page_offset file_page]|]] eqn:Escan; cbn [fst] in Hout1.
      * cbn [run_effects printed]. anchors_simpl.
        rewrite Hout, Hout1, anchors_split_with_offset.
        contradiction.
      * pose proof (anchors_manual_fallback title page typed) as Hout2.
        assert (Hanchor : In (anchor_chapter, anchor_printed_page)
                             [manual_anchor title page] ->
                          anchor_chapter = Some title
                          /\ anchor_printed_page = page
                          /\ (1 < page)%Z
                          /\ forall t p, In (t, p) more -> (page <= p)%Z).
        { assert (Hsome : snd (extract_chapters_from_toc pdfplumber pdf 15)
                          = Some ((title, page) :: more))
            by now rewrite Eext.
          destruct (first_chapter_anchor _ _ _ _ _ _ Hsome) as [Ha Hleast].
          rewrite Ha. intros [[= <- <-]|[]].
          split; [reflexivity|]. split; [reflexivity|].
          split; [|exact Hleast].
          unfold manual_anchor, FIRST_PRINTED_PAGE_NUMBER in Ha.
          destruct (Z.ltb 1 page) eqn:Ep; [now apply Z.ltb_lt|].
          rewrite andb_false_r in Ha. discriminate. }
        assert (Hcase : In (anchor_chapter, anchor_printed_page)
                           [manual_anchor title page] ->
                        exists total_pages' first_chapter_title more',
                          Reader total_pages = Reader total_pages'
                          /\ Some ((title, page) :: more)
                             = Some ((first_chapter_title,
                                      anchor_printed_page) :: more')
                          /\ anchor_chapter = Some first_chapter_title
                          /\ (1 < anchor_printed_page)%Z
                          /\ (forall t p,
                                 In (t, p) more' ->
                                 (anchor_printed_page <= p)%Z)
                          /\ snd (find_offset_by_title_scan pdfplumber pdf
                                    first_chapter_title anchor_printed_page
                                    TOC_END_FILE_PAGE) = None).
        { intros Hin.
          destruct (Hanchor Hin) as (-> & -> & Hpage & Hleast).
          exists total_pages, title, more.
          repeat (split; [auto; fail|]). now rewrite Escan. }
        destruct (manual_fallback title page typed)
          as [out2 [[page_offset rest]|]]; cbn [fst] in Hout2;
          cbn [stop run_effects printed]; anchors_simpl;
          rewrite ?anchors_split_with_offset, Hout, Hout1, Hout2;
          cbn [app]; intros Hin; left; cbn [snd]; now apply Hcase.
    + cbn [stop run_effects printed]. anchors_simpl. rewrite Hout.
      contradiction.
    + pose proof (anchors_manual_fallback EmptyString
                    FIRST_PRINTED_PAGE_NUMBER typed) as Hout'.
      destruct (manual_fallback EmptyString FIRST_PRINTED_PAGE_NUMBER typed)
        as [out' [[page_offset rest]|]]; cbn [fst] in Hout';
        cbn [stop run_effects printed run_ending]; anchors_simpl;
        rewrite Hout, Hout'; cbn [app];
        intros [[= <- <-]|[]]; right; exists e;
        repeat split; discriminate.
  - cbn [stop run_effects printed]. anchors_simpl. rewrite Hout.
    contradiction.
Qed.
End AnchorOfARun.

(** The small book cut after its part title, so that the scan fails: the
    run asks for the file page of the first chapter, printed on page 3. *)
Lemma manual_anchor_of_a_run_witness :
  (exists total_pages first_chapter_title more,
      Reader 45 = Reader total_pages
      /\ snd (extract_chapters_from_toc true
                (Opened (firstn 20 Example.book)) 15)
         = Some ((first_chapter_title, 3%Z) :: more)
      /\ Some "1 Introduction" = Some first_chapter_title
      /\ (1 < 3)%Z
      /\ (forall title page, In (title, page) more -> (3 <= page)%Z)
      /\ snd (find_offset_by_title_scan true
                (Opened (firstn 20 Example.book)) first_chapter_title 3
                TOC_END_FILE_PAGE) = None)
  \/ (exists e,
         Reader 45 = ReaderFailed e
         /\ Some "1 Introduction" = None /\ 3%Z = 1%Z
         /\ run_ending
              (main writable true (Opened (firstn 20 Example.book))
                 (Reader 45) ["book.pdf"; "27"])
            <> Finished).
Proof.
  assert (Hin : In (MainManualRequired (Some "1 Introduction") 3)
                   (printed (run_effects
                      (main writable true (Opened (firstn 20 Example.book))
                         (Reader 45) ["book.pdf"; "27"])))).
  { vm_compute. repeat (first [left; reflexivity|right]). }
  exact (manual_anchor_of_a_run writable true
           (Opened (firstn 20 Example.book)) (Reader 45)
           ["book.pdf"; "27"] (Some "1 Introduction") 3 Hin).
Defined.
